(** * metator.network: contig registry, pair collector, aggregation pass and
    bin contraction, embedded from [src/metator/network.py].

    Python values are modelled by the types the code gives them: [int] as [Z],
    [float] (and numpy's [float64]) as IEEE-754 binary64 through the Standard
    Library's [spec_float], [str] as [string], a [dict] keyed by contig name as
    a [gmap string _], a [dict] whose iteration order is read as the list of
    its items, a file as the list of its lines.  A raised exception is an
    explicit [Raise] result; data mutated before the exception (the registry,
    the lines already written to a file) stays in the state. *)

From Stdlib Require Import ZArith Lia Permutation.
From Stdlib.Floats Require Import SpecFloat.
From stdpp Require Import gmap strings pretty list fin_maps.

Local Open Scope string_scope.
Local Open Scope list_scope.
Local Open Scope Z_scope.

(** ** Exceptions *)

Inductive exn :=
| StopIteration
| UnboundLocalError
| KeyError
| IndexError
| TypeError
| ValueError
| ZeroDivisionError
| NetworkXError
| CsvError.

Inductive result (A : Type) :=
| Ok (a : A)
| Raise (e : exn).
Arguments Ok {A} a.
Arguments Raise {A} e.

#[global] Instance exn_eq_dec : EqDecision exn.
Proof. solve_decision. Defined.

#[global] Instance result_ret : MRet result := @Ok.
#[global] Instance result_bind : MBind result := λ A B f r,
  match r with
  | Ok a => f a
  | Raise e => Raise e
  end.

Definition is_Ok {A} (r : result A) : Prop :=
  match r with Ok _ => True | Raise _ => False end.

(** [l[i]] on a Python list, for an index [i >= 0]. *)
Definition getitem {A} (l : list A) (i : nat) : result A :=
  match l !! i with
  | Some x => Ok x
  | None => Raise IndexError
  end.

(** [d[k]] on a Python dict. *)
Definition dict_get {V} (d : gmap string V) (k : string) : result V :=
  match d !! k with
  | Some v => Ok v
  | None => Raise KeyError
  end.

(** ** Numbers *)

Definition prec : Z := 53.
Definition emax : Z := 1024.

Definition fmul := SFmul prec emax.
Definition fdiv := SFdiv prec emax.
Definition fadd := SFadd prec emax.
(** [np.sqrt] on a float: NaN on a negative argument, no exception. *)
Definition fsqrt := SFsqrt prec emax.
(** [x == 0] on a float: both signed zeros compare equal, NaN does not. *)
Definition feq0 (x : spec_float) : bool := SFeqb x (S754_zero false).

(** An [int] read as a float, rounded to nearest-even (an [int] beyond the
    range of the floats, on which Python raises [OverflowError], becomes an
    infinity). *)
Definition float_of_Z (z : Z) : spec_float := binary_normalize prec emax z 0 false.

(** The integer [z] as an unrounded binary float (mantissa [|z|], exponent 0). *)
Definition exact_of_Z (z : Z) : spec_float :=
  match z with
  | Z0 => S754_zero false
  | Zpos p => S754_finite false p 0
  | Zneg p => S754_finite true p 0
  end.

(** [a / b] on two [int]s: the correctly rounded quotient, and
    [ZeroDivisionError] on [b == 0]. *)
Definition int_truediv (a b : Z) : result spec_float :=
  if decide (b = 0) then Raise ZeroDivisionError
  else Ok (fdiv (exact_of_Z a) (exact_of_Z b)).

(** [x / b] for a float [x] and an [int] [b] (a Python float on the left:
    [ZeroDivisionError] on [b == 0]). *)
Definition float_truediv_int (x : spec_float) (b : Z) : result spec_float :=
  if decide (b = 0) then Raise ZeroDivisionError
  else Ok (fdiv x (float_of_Z b)).

(** [np.sqrt] on a Python [int]: numpy reads an [int] that fits [int64] or
    [uint64] as a number, and the square root is taken on its float; a
    larger or smaller [int] becomes an object, on which the ufunc raises
    [TypeError]. *)
Definition np_sqrt_int (z : Z) : result spec_float :=
  if decide (- 2 ^ 63 ≤ z < 2 ^ 64) then Ok (fsqrt (float_of_Z z))
  else Raise TypeError.

(** The literal [0.01]. *)
Definition f_0_01 : spec_float := S754_finite false 5764607523034235 (-59).
Definition f_10 : spec_float := float_of_Z 10.

(** ** The registry *)

(** One value of [contig_data]: the inner dict with keys "id", "length", "GC",
    "hit", "coverage", "RS".  "coverage" and "RS" hold the string "-" when no
    depth file, respectively no enzyme, was given: [None] here. *)
Record contig := Contig {
  c_id : Z;
  c_length : Z;
  c_GC : spec_float;
  c_hit : Z;
  c_coverage : option spec_float;
  c_RS : option Z
}.

(** One value of [hit_data]: keys "id" and "hit". *)
Record hits := Hits {
  h_id : Z;
  h_hit : list Z
}.

(** A weight written to the network file: the [int] count, or a float. *)
Inductive weight :=
| WInt (n : Z)
| WFloat (x : spec_float).

(** One line of the network file: id1, id2, weight. *)
Definition edge : Type := Z * Z * weight.

(** A row of the pre-network file as [csv.reader] yields it. *)
Abbreviation row := (list string).

(** ** normalize_pair *)

(** [contig_data[pair[i]]]: [IndexError] on a short row, [KeyError] on a name
    the registry does not hold. *)
Definition endpoint (contig_data : gmap string contig) (pair : row) (i : nat)
  : result contig :=
  name ← getitem pair i; dict_get contig_data name.

(** A field holding "-" where a number is used in arithmetic. *)
Definition number {A} (field : option A) : result A :=
  match field with
  | Some x => Ok x
  | None => Raise TypeError
  end.

(** The common last line, [return n_occ / factor]: the factor is a numpy
    float, so a zero factor gives an infinity or a NaN, never an exception. *)
Definition over_factor (n_occ : Z) (factor : spec_float) : weight :=
  WFloat (fdiv (float_of_Z n_occ) factor).

(** The guard of the two coverage-based strategies: [if factor == 0: return 0]. *)
Definition guarded (n_occ : Z) (factor : spec_float) : weight :=
  if feq0 factor then WInt 0 else over_factor n_occ factor.

Definition normalize_pair (contig_data : gmap string contig) (prev_pair : row)
    (n_occ : Z) (normalization : string) : result weight :=
  if decide (normalization = "abundance") then
    a ← endpoint contig_data prev_pair 0;
    b ← endpoint contig_data prev_pair 1;
    match c_coverage a, c_coverage b with
    | Some ca, Some cb => Ok (guarded n_occ (fsqrt (fmul ca cb)))
    | _, _ => Raise TypeError
    end
  else if decide (normalization = "length") then
    a ← endpoint contig_data prev_pair 0;
    q0 ← int_truediv (c_hit a) (c_length a);
    b ← endpoint contig_data prev_pair 1;
    q ← float_truediv_int (fmul q0 (float_of_Z (c_hit b))) (c_length b);
    Ok (over_factor n_occ (fsqrt q))
  else if decide (normalization = "RS") then
    a ← endpoint contig_data prev_pair 0;
    rs0 ← number (c_RS a);
    q0 ← int_truediv (c_hit a) rs0;
    b ← endpoint contig_data prev_pair 1;
    rs1 ← number (c_RS b);
    q ← float_truediv_int (fmul q0 (float_of_Z (c_hit b))) rs1;
    Ok (over_factor n_occ (fmul f_0_01 (fsqrt q)))
  else if decide (normalization = "RS_length") then
    a ← endpoint contig_data prev_pair 0;
    q0 ← int_truediv (c_hit a) 10;
    rs0 ← number (c_RS a);
    s0 ← np_sqrt_int (c_length a * rs0);
    let x0 := fmul q0 s0 in
    b ← endpoint contig_data prev_pair 1;
    let x1 := fdiv (fmul x0 (float_of_Z (c_hit b))) f_10 in
    rs1 ← number (c_RS b);
    s1 ← np_sqrt_int (c_length b * rs1);
    Ok (over_factor n_occ (fsqrt (fmul x1 s1)))
  else if decide (normalization = "empirical_hit") then
    a ← endpoint contig_data prev_pair 0;
    b ← endpoint contig_data prev_pair 1;
    factor ← np_sqrt_int (c_hit a * c_hit b);
    Ok (over_factor n_occ factor)
  else if decide (normalization = "theoritical_hit") then
    a ← endpoint contig_data prev_pair 0;
    x0 ← match c_coverage a, c_RS a with
         | Some ca, Some rs0 =>
             s0 ← np_sqrt_int (c_length a * rs0);
             Ok (fmul (fmul ca f_10) s0)
         | _, _ => Raise TypeError
         end;
    b ← endpoint contig_data prev_pair 1;
    x ← match c_coverage b, c_RS b with
        | Some cb, Some rs1 =>
            s1 ← np_sqrt_int (c_length b * rs1);
            Ok (fmul (fmul (fmul x0 cb) f_10) s1)
        | _, _ => Raise TypeError
        end;
    Ok (guarded n_occ (fsqrt x))
  else
    (* no branch bound [factor] *)
    Raise UnboundLocalError.

(** ** compute_contig_coverage *)

(** [hit * 1.0 / length] for one contig: the hit count as a float, divided
    by the length; [ZeroDivisionError] on a length 0. *)
Definition coverage_of (c : contig) : result spec_float :=
  float_truediv_int (fmul (float_of_Z (c_hit c)) (float_of_Z 1)) (c_length c).


(** ** compute_network *)

(** The local variables of the aggregation loop.  [curr_pair] is bound by the
    first iteration of the [for] loop only. *)
Record agg := Agg {
  prev_pair : row;
  curr_pair : option row;
  n_occ : Z;
  n_nonzero : Z;
  n_pairs : Z
}.

(** [effective_count]: the normalized count, or the count itself when
    [normalization] is the string "None". *)
Definition effective_count (contig_data : gmap string contig) (pair : row)
    (n : Z) (normalization : string) : result weight :=
  if decide (normalization ≠ "None")
  then normalize_pair contig_data pair n normalization
  else Ok (WInt n).

(** The three fields of a written line, evaluated left to right. *)
Definition edge_of (contig_data : gmap string contig) (pair : row) (w : weight)
  : result edge :=
  a ← endpoint contig_data pair 0;
  b ← endpoint contig_data pair 1;
  Ok (c_id a, c_id b, w).

(** [net.write(...)]: the line is appended once all its fields evaluated. *)
Definition net_write (net : list edge) (line : result edge)
  : result unit * list edge :=
  match line with
  | Ok e => (Ok (), net ++ [e])
  | Raise x => (Raise x, net)
  end.

(** One iteration of [for pair in pairs_reader]. *)
Definition agg_step (contig_data : gmap string contig) (normalization : string)
    (st : agg) (net : list edge) (pair : row) : result agg * list edge :=
  let curr := pair in
  if decide (prev_pair st = curr) then
    (Ok (Agg (prev_pair st) (Some curr) (n_occ st + 1) (n_nonzero st) (n_pairs st)),
     net)
  else
    let '(r, net') :=
      if decide (n_occ st > 0) then
        net_write net
          (w ← effective_count contig_data (prev_pair st) (n_occ st) normalization;
           edge_of contig_data (prev_pair st) w)
      else (Ok (), net) in
    match r with
    | Ok _ =>
        (Ok (Agg curr (Some curr) 1 (n_nonzero st + 1) (n_pairs st + n_occ st)),
         net')
    | Raise x => (Raise x, net')
    end.

Fixpoint agg_loop (contig_data : gmap string contig) (normalization : string)
    (st : agg) (net : list edge) (pairs_reader : list row)
  : result agg * list edge :=
  match pairs_reader with
  | [] => (Ok st, net)
  | pair_ :: rest =>
      match agg_step contig_data normalization st net pair_ with
      | (Ok st', net') => agg_loop contig_data normalization st' net' rest
      | (Raise x, net') => (Raise x, net')
      end
  end.

(** "Write the last value": the count is taken from [prev_pair], the two ids
    from [curr_pair]. *)
Definition agg_flush (contig_data : gmap string contig) (normalization : string)
    (st : agg) (net : list edge) : result agg * list edge :=
  let '(r, net') :=
    net_write net
      (w ← effective_count contig_data (prev_pair st) (n_occ st) normalization;
       curr ← match curr_pair st with
              | Some curr => Ok curr
              | None => Raise UnboundLocalError
              end;
       edge_of contig_data curr w) in
  match r with
  | Ok _ =>
      (Ok (Agg (prev_pair st) (curr_pair st) (n_occ st) (n_nonzero st + 1)
             (n_pairs st + n_occ st)),
       net')
  | Raise x => (Raise x, net')
  end.

(** The body of the [with] block over the sorted rows: the outcome and the
    lines the network file holds when the block is left. *)
Definition aggregate (contig_data : gmap string contig) (normalization : string)
    (sorted : list row) : result agg * list edge :=
  match sorted with
  | [] => (Raise StopIteration, [])          (* next(pairs_reader) *)
  | first :: rest =>
      match agg_loop contig_data normalization (Agg first None 1 1 0) [] rest with
      | (Ok st, net) => agg_flush contig_data normalization st net
      | (Raise x, net) => (Raise x, net)
      end
  end.

(** [compute_network]: [sort_pairs] stands for [metator.io.sort_pairs], which
    writes the rows of the pre-network file in sorted order. *)
Definition compute_network (sort_pairs : list row → list row)
    (pre_network : list row) (contig_data : gmap string contig)
    (normalization : string) : result unit * list edge :=
  match aggregate contig_data normalization (sort_pairs pre_network) with
  | (Ok _, net) => (Ok (), net)
  | (Raise x, net) => (Raise x, net)
  end.

(** ** Run-length view of a row stream *)

(** The groups of equal adjacent rows, each with its number of rows: the
    group of [prev], already counted [n] times, continued over [rest]. *)
Fixpoint runs (prev : row) (n : Z) (rest : list row) : list (row * Z) :=
  match rest with
  | [] => [(prev, n)]
  | r :: rest' =>
      if decide (prev = r) then runs prev (n + 1) rest'
      else (prev, n) :: runs r 1 rest'
  end.

Definition groups (rows : list row) : list (row * Z) :=
  match rows with
  | [] => []
  | r :: rest => runs r 1 rest
  end.

(** The two ids of a row whose names are both registered. *)
Definition pair_ids (contig_data : gmap string contig) (r : row) : option (Z * Z) :=
  a ← r !! 0%nat; ca ← contig_data !! a;
  b ← r !! 1%nat; cb ← contig_data !! b;
  Some (c_id ca, c_id cb).

Definition registered (contig_data : gmap string contig) (r : row) : Prop :=
  is_Some (pair_ids contig_data r).

(** The edge [e] is the line of group [g] with its raw count. *)
Definition raw_edge_of (contig_data : gmap string contig) (e : edge) (g : row * Z)
  : Prop :=
  pair_ids contig_data g.1 = Some (e.1.1, e.1.2) ∧ e.2 = WInt g.2.

(** The integer weight of a line (0 for a float). *)
Definition int_weight (e : edge) : Z :=
  match e.2 with
  | WInt n => n
  | WFloat _ => 0
  end.

Definition sum_weights (net : list edge) : Z :=
  foldr (λ e acc, int_weight e + acc) 0 net.

Definition sum_counts (gs : list (row * Z)) : Z :=
  foldr (λ g acc, g.2 + acc) 0 gs.


(** ** sort_pairs *)

(** Modelled from the spec: [metator.io.sort_pairs] is not under src/.  The
    spec's words are "sort the pair stream so identical pairs become
    contiguous (lexicographic ordering on the pair, first field then
    second)".  Used where a closed run of [compute_network] is evaluated; the
    general statements take any [sort_pairs] that permutes its input. *)
Fixpoint row_compare (r1 r2 : row) : comparison :=
  match r1, r2 with
  | [], [] => Eq
  | [], _ :: _ => Lt
  | _ :: _, [] => Gt
  | a :: r1', b :: r2' =>
      match String.compare a b with
      | Eq => row_compare r1' r2'
      | c => c
      end
  end.

Fixpoint insert_row (r : row) (sorted : list row) : list row :=
  match sorted with
  | [] => [r]
  | r' :: rest =>
      match row_compare r r' with
      | Gt => r' :: insert_row r rest
      | _ => r :: sorted
      end
  end.

Definition sort_pairs_lex (rows : list row) : list row :=
  foldr insert_row [] rows.

(** ** State threaded through a stage that mutates and may raise *)

(** A command over a state [St]: the outcome, and the state as the command
    leaves it (what was mutated before an exception stays mutated). *)
Definition prog (St A : Type) : Type := St → result A * St.

#[global] Instance prog_ret {St} : MRet (prog St) := λ A a st, (Ok a, st).
#[global] Instance prog_bind {St} : MBind (prog St) := λ A B f m st,
  match m st with
  | (Ok a, st') => f a st'
  | (Raise e, st') => (Raise e, st')
  end.

(** Evaluate an expression that reads the state. *)
Definition read {St A} (f : St → result A) : prog St A := λ st, (f st, st).
(** Mutate the state; on an exception the state is left as it was. *)
Definition update {St} (f : St → result St) : prog St unit := λ st,
  match f st with
  | Ok st' => (Ok (), st')
  | Raise e => (Raise e, st)
  end.

(** Nothing to do. *)
Definition pass {St} : prog St unit := λ st, (Ok (), st).

(** [for x in xs: body x] *)
Fixpoint for_each {St A} (xs : list A) (body : A → prog St unit) : prog St unit :=
  match xs with
  | [] => pass
  | x :: rest => body x;; for_each rest body
  end.

(** [for i, x in enumerate(xs): body i x], counting from [i]. *)
Fixpoint for_enumerate {St A} (i : nat) (xs : list A) (body : nat → A → prog St unit)
  : prog St unit :=
  match xs with
  | [] => pass
  | x :: rest => body i x;; for_enumerate (S i) rest body
  end.

(** ** precompute_network *)

(** What [precompute_network] mutates: the two dicts, the lines written to
    [out_file], and its four counters. *)
Record collector := Collector {
  registry : gmap string contig;             (* contig_data *)
  library_hits : option (gmap string hits);  (* hit_data, None for one file *)
  pre_net : list row;
  all_contacts_temp : Z;
  inter_contacts_temp : Z;
  all_contacts : Z;
  inter_contacts : Z
}.

Definition set_registry (f : gmap string contig → result (gmap string contig))
    (st : collector) : result collector :=
  contig_data ← f (registry st);
  Ok (Collector contig_data (library_hits st) (pre_net st)
        (all_contacts_temp st) (inter_contacts_temp st)
        (all_contacts st) (inter_contacts st)).

Definition set_library_hits
    (f : option (gmap string hits) → result (option (gmap string hits)))
    (st : collector) : result collector :=
  hit_data ← f (library_hits st);
  Ok (Collector (registry st) hit_data (pre_net st)
        (all_contacts_temp st) (inter_contacts_temp st)
        (all_contacts st) (inter_contacts st)).

(** [pre_net.write("\t".join([a, b]) + "\n")] *)
Definition pre_net_write (a b : string) (st : collector) : result collector :=
  Ok (Collector (registry st) (library_hits st) (pre_net st ++ [[a; b]])
        (all_contacts_temp st) (inter_contacts_temp st)
        (all_contacts st) (inter_contacts st)).

Definition set_temp (all inter : Z) (st : collector) : result collector :=
  Ok (Collector (registry st) (library_hits st) (pre_net st)
        all inter (all_contacts st) (inter_contacts st)).

Definition set_total (all inter : Z) (st : collector) : result collector :=
  Ok (Collector (registry st) (library_hits st) (pre_net st)
        (all_contacts_temp st) (inter_contacts_temp st) all inter).

(** [contig_data[name]["hit"] += 1] *)
Definition count_hit (name : string) (contig_data : gmap string contig)
  : result (gmap string contig) :=
  c ← dict_get contig_data name;
  Ok (<[name := Contig (c_id c) (c_length c) (c_GC c) (c_hit c + 1)
                  (c_coverage c) (c_RS c)]> contig_data).

(** [hit_data[name]["hit"][i] += 1]; [hit_data] is [None] when the registry
    was built for a single alignment file. *)
Definition count_library_hit (name : string) (i : nat)
    (hit_data : option (gmap string hits)) : result (option (gmap string hits)) :=
  match hit_data with
  | None => Raise TypeError
  | Some d =>
      h ← dict_get d name;
      x ← getitem (h_hit h) i;
      Ok (Some (<[name := Hits (h_id h) (<[i := x + 1]> (h_hit h))]> d))
  end.

(** The body of [for pair in pairs], on the fields [p] of the line;
    [n_files] is [len(aligment_files)], [i] the index of the file. *)
Definition collect_pair (n_files i : nat) (self_contacts : bool) (p : list string)
  : prog collector unit :=
  contig1 ← read (λ _, getitem p 1);
  contig2 ← read (λ _, getitem p 5);
  id1 ← read (λ st, c ← dict_get (registry st) contig1; Ok (c_id c));
  id2 ← read (λ st, c ← dict_get (registry st) contig2; Ok (c_id c));
  update (λ st, set_temp (all_contacts_temp st + 1) (inter_contacts_temp st) st);;
  update (set_registry (count_hit contig1));;
  update (set_registry (count_hit contig2));;
  (if decide (1 < n_files)%nat then
     update (set_library_hits (count_library_hit contig1 i));;
     update (set_library_hits (count_library_hit contig2 i))
   else pass);;
  if self_contacts && bool_decide (id1 = id2) then
    update (pre_net_write contig1 contig2)
  else if bool_decide (id1 < id2) then
    update (λ st, set_temp (all_contacts_temp st) (inter_contacts_temp st + 1) st);;
    update (pre_net_write contig1 contig2)
  else if bool_decide (id1 > id2) then
    update (λ st, set_temp (all_contacts_temp st) (inter_contacts_temp st + 1) st);;
    update (pre_net_write contig2 contig1)
  else pass.

(** The value logged as "3D ratio": [inter / all] on two [int]s. *)
Definition ratio_3D (inter all : Z) : prog collector spec_float :=
  read (λ _, int_truediv inter all).

(** The body of [for i, aligment_file in enumerate(aligment_files)], on the
    lines of the file, each split on tabulations. *)
Definition collect_file (n_files : nat) (self_contacts : bool) (i : nat)
    (pairs : list (list string)) : prog collector unit :=
  update (set_temp 0 0);;
  for_each pairs (collect_pair n_files i self_contacts);;
  update (λ st, set_total (all_contacts st + all_contacts_temp st)
                  (inter_contacts st + inter_contacts_temp st) st);;
  st ← read Ok;
  ratio_3D (inter_contacts_temp st) (all_contacts_temp st);;
  pass.

(** [precompute_network]: the returned registry, or the exception, and the
    state left behind (the registry as mutated, the lines written). *)
Definition precompute_network (aligment_files : list (list (list string)))
    (contig_data : gmap string contig) (hit_data : option (gmap string hits))
    (self_contacts : bool) : result (gmap string contig) * collector :=
  (for_enumerate 0 aligment_files
     (collect_file (length aligment_files) self_contacts);;
   st ← read Ok;
   ratio_3D (inter_contacts st) (all_contacts st);;
   mret (registry st))
    (Collector contig_data hit_data [] 0 0 0 0).

(** *** Vocabulary for the collector's statements *)

(** How often [name] is named by the pair [(contig1, contig2)]. *)
Definition ends_on (name contig1 contig2 : string) : Z :=
  (if decide (name = contig1) then 1 else 0)
  + (if decide (name = contig2) then 1 else 0).

Definition add_hits (k : Z) (c : contig) : contig :=
  Contig (c_id c) (c_length c) (c_GC c) (c_hit c + k) (c_coverage c) (c_RS c).

(** The keys of [hit_data] with the length of each "hit" list. *)
Definition hits_shape (hit_data : option (gmap string hits))
  : option (gmap string nat) :=
  (λ d : gmap string hits, (length ∘ h_hit) <$> d) <$> hit_data.

(** A line the collector can process in file [i] of [n_files]: it has the
    two name fields, both names are registered and, with several files, both
    have a per-file counter at index [i]. *)
Definition has_counter (n_files i : nat) (hit_data : option (gmap string hits))
    (name : string) : Prop :=
  (1 < n_files)%nat →
  ∃ sh len, hits_shape hit_data = Some sh ∧ sh !! name = Some len ∧ (i < len)%nat.

Definition processable (n_files i : nat) (st : collector) (p : list string) : Prop :=
  ∃ contig1 contig2,
    p !! 1%nat = Some contig1 ∧ p !! 5%nat = Some contig2
    ∧ is_Some (registry st !! contig1) ∧ is_Some (registry st !! contig2)
    ∧ has_counter n_files i (library_hits st) contig1
    ∧ has_counter n_files i (library_hits st) contig2.

(** Two states with the same registered names and the same per-file counters. *)
Definition same_shape (st st' : collector) : Prop :=
  (∀ name, is_Some (registry st' !! name) ↔ is_Some (registry st !! name))
  ∧ hits_shape (library_hits st') = hits_shape (library_hits st).

(** ** create_contig_data *)

(** A record of the assembly as [SeqIO.parse] yields it: [contig.id] and
    [str(contig.seq)]. *)
Record fasta := Fasta {
  fasta_id : string;
  fasta_seq : string
}.

(** [s.split("\t")]: the fields between the tabulations; [""] gives [[""]]. *)
Fixpoint split_tab (s : string) : list string :=
  match s with
  | EmptyString => [EmptyString]
  | String c s' =>
      if Ascii.eqb c (Ascii.ascii_of_nat 9) then EmptyString :: split_tab s'
      else match split_tab s' with
           | field :: fields => String c field :: fields
           | [] => [String c EmptyString]
           end
  end.

(** [depth.readline()]: the next line and the rest of the file; [""] at the
    end of the file. *)
Definition readline (depth : list string) : string * list string :=
  match depth with
  | [] => (EmptyString, [])
  | line :: rest => (line, rest)
  end.

(** [if x:] on a value that is [None] or a string. *)
Definition truthy (x : option string) : bool :=
  match x with
  | Some s => negb (String.eqb s EmptyString)
  | None => false
  end.

(** The local variables of [create_contig_data] that its loops update. *)
Record registry_build := RegistryBuild {
  global_id : Z;
  built_contig_data : gmap string contig;
  built_hit_data : option (gmap string hits);
  depth_rest : list string
}.

Section create_contig_data.
(** What the function calls outside this repository's sources:
    [SeqUtils.GC], [mio.get_restriction_site], [re.findall], and the
    builtins [int] and [float] on a string. *)
Context (GC : string → spec_float).
Context (get_restriction_site : string → result string).
Context (findall : string → string → list string).
Context (py_int : string → result Z).
Context (py_float : string → result spec_float).

(** ["RS": (len(re.findall(pattern, str(contig.seq))) + 1) if enzyme else "-"] *)
Definition restriction_sites (pattern : option string) (seq : string) : option Z :=
  (λ pat, Z.of_nat (length (findall pat seq)) + 1) <$> pattern.

(** [hit_data[contig.id] = {"id": global_id, "hit": [0] * nb_alignment}],
    under [if nb_alignment > 1]. *)
Definition register_hits (nb_alignment : nat) (name : string) (id : Z)
    (hit_data : option (gmap string hits)) : result (option (gmap string hits)) :=
  if decide (1 < nb_alignment)%nat then
    match hit_data with
    | Some d => Ok (Some (<[name := Hits id (replicate nb_alignment 0)]> d))
    | None => Raise TypeError
    end
  else Ok hit_data.

(** One iteration of the loop over the assembly when a depth file is read. *)
Definition add_contig_with_depth (nb_alignment : nat) (pattern : option string)
    (contig : fasta) (b : registry_build) : result registry_build :=
  let '(text, rest) := readline (depth_rest b) in
  let line := split_tab text in
  len_field ← getitem line 1;
  len ← py_int len_field;
  cov_field ← getitem line 2;
  cov ← py_float cov_field;
  let entry := Contig (global_id b) len (GC (fasta_seq contig)) 0 (Some cov)
                 (restriction_sites pattern (fasta_seq contig)) in
  hit_data ← register_hits nb_alignment (fasta_id contig) (global_id b)
               (built_hit_data b);
  Ok (RegistryBuild (global_id b + 1)
        (<[fasta_id contig := entry]> (built_contig_data b)) hit_data rest).

(** One iteration of the loop over the assembly without a depth file. *)
Definition add_contig (nb_alignment : nat) (pattern : option string)
    (contig : fasta) (b : registry_build) : result registry_build :=
  let entry := Contig (global_id b) (Z.of_nat (String.length (fasta_seq contig)))
                 (GC (fasta_seq contig)) 0 None
                 (restriction_sites pattern (fasta_seq contig)) in
  hit_data ← register_hits nb_alignment (fasta_id contig) (global_id b)
               (built_hit_data b);
  Ok (RegistryBuild (global_id b + 1)
        (<[fasta_id contig := entry]> (built_contig_data b)) hit_data
        (depth_rest b)).

(** [for contig in SeqIO.parse(assembly, "fasta"): body] *)
Fixpoint for_contigs (body : fasta → registry_build → result registry_build)
    (assembly : list fasta) (b : registry_build) : result registry_build :=
  match assembly with
  | [] => Ok b
  | contig :: rest => b' ← body contig b; for_contigs body rest b'
  end.

(** [if enzyme: pattern = mio.get_restriction_site(enzyme)]; [pattern] is
    read only under [if enzyme]. *)
Definition restriction_pattern (enzyme : option string) : result (option string) :=
  match enzyme with
  | Some e =>
      if truthy enzyme then pat ← get_restriction_site e; Ok (Some pat)
      else Ok None
  | None => Ok None
  end.

(** [depth_file] is [None], or the lines of the file. *)
Definition create_contig_data (assembly : list fasta) (nb_alignment : nat)
    (depth_file : option (list string)) (enzyme : option string)
  : result (gmap string contig * option (gmap string hits)) :=
  let hit_data : option (gmap string hits) :=
    if decide (1 < nb_alignment)%nat then Some ∅ else None in
  pattern ← restriction_pattern enzyme;
  b ← match depth_file with
      | Some depth =>
          let '(_, rest) := readline depth in
          for_contigs (add_contig_with_depth nb_alignment pattern) assembly
            (RegistryBuild 1 ∅ hit_data rest)
      | None =>
          for_contigs (add_contig nb_alignment pattern) assembly
            (RegistryBuild 1 ∅ hit_data [])
      end;
  Ok (built_contig_data b, built_hit_data b).
End create_contig_data.

(** What both loop bodies do to the id counter and to the registry. *)
Definition assigns_next_id (body : fasta → registry_build → result registry_build)
  : Prop :=
  ∀ contig b b', body contig b = Ok b' →
    global_id b' = global_id b + 1
    ∧ ∃ entry, c_id entry = global_id b
        ∧ built_contig_data b'
          = <[fasta_id contig := entry]> (built_contig_data b).

(** *** Stand-ins for the external functions, for closed runs

    [int] and [float] on a string of ASCII characters: surrounding
    whitespace, an optional sign, decimal digits with single underscores
    between them; for [float] also a fractional part, an exponent, and the
    words inf, infinity and nan in any case.  [SeqUtils.GC]: the share of
    the letters G, C and S, in both cases, in percent. *)

Definition digit_of (c : Ascii.ascii) : option Z :=
  let n := Z.of_nat (Ascii.nat_of_ascii c) in
  if decide (48 ≤ n ≤ 57) then Some (n - 48) else None.

(** The ASCII whitespace that [int] and [float] strip. *)
Definition is_space (c : Ascii.ascii) : bool :=
  let n := Z.of_nat (Ascii.nat_of_ascii c) in
  bool_decide (9 ≤ n ≤ 13 ∨ n = 32).

Fixpoint lstrip (s : string) : string :=
  match s with
  | EmptyString => EmptyString
  | String c s' => if is_space c then lstrip s' else s
  end.

Fixpoint rstrip (s : string) : string :=
  match s with
  | EmptyString => EmptyString
  | String c s' =>
      match rstrip s' with
      | EmptyString => if is_space c then EmptyString else String c EmptyString
      | rest => String c rest
      end
  end.

Definition strip (s : string) : string := rstrip (lstrip s).

(** An optional sign: whether it is a minus, and the text after it. *)
Definition signed (s : string) : bool * string :=
  match s with
  | String c s' =>
      if Ascii.eqb c (Ascii.ascii_of_nat 45) then (true, s')
      else if Ascii.eqb c (Ascii.ascii_of_nat 43) then (false, s')
      else (false, s)
  | EmptyString => (false, s)
  end.

(** The longest run of digits at the start of [s], with single underscores
    between digits, read after the value [acc] and the [n] digits before
    it: the value, the number of digits, and the text that follows. *)
Fixpoint digitpart (s : string) (acc : Z) (n : nat) : Z * nat * string :=
  match s with
  | EmptyString => (acc, n, s)
  | String c s' =>
      match digit_of c with
      | Some d => digitpart s' (10 * acc + d) (S n)
      | None =>
          if Ascii.eqb c (Ascii.ascii_of_nat 95) && negb (Nat.eqb n 0) then
            match s' with
            | String c' s'' =>
                match digit_of c' with
                | Some d => digitpart s'' (10 * acc + d) (S n)
                | None => (acc, n, s)
                end
            | EmptyString => (acc, n, s)
            end
          else (acc, n, s)
      end
  end.

Definition int_of_digits (s : string) : result Z :=
  let '(minus, body) := signed (strip s) in
  match digitpart body 0 0 with
  | (v, S _, EmptyString) => Ok (if minus then - v else v)
  | _ => Raise ValueError
  end.

(** The letters A to Z in lower case. *)
Fixpoint lower (s : string) : string :=
  match s with
  | EmptyString => EmptyString
  | String c s' =>
      let n := Ascii.nat_of_ascii c in
      String (if bool_decide (65 ≤ n ≤ 90)%nat then Ascii.ascii_of_nat (n + 32) else c)
        (lower s')
  end.

(** The exponent that follows the digits of a float: nothing, or the letter
    e and a signed integer. *)
Definition exponent (s : string) : option Z :=
  match s with
  | EmptyString => Some 0
  | String c s' =>
      if Ascii.eqb c (Ascii.ascii_of_nat 101) || Ascii.eqb c (Ascii.ascii_of_nat 69) then
        let '(minus, body) := signed s' in
        match digitpart body 0 0 with
        | (v, S _, EmptyString) => Some (if minus then - v else v)
        | _ => None
        end
      else None
  end.

(** The float nearest to [m * 10 ** e], for [m >= 0]. *)
Definition decimal (m e : Z) : spec_float :=
  if decide (0 ≤ e) then float_of_Z (m * 10 ^ e)
  else fdiv (exact_of_Z m) (exact_of_Z (10 ^ (- e))).

Definition float_of_decimal (s : string) : result spec_float :=
  let '(minus, body) := signed (strip s) in
  let word := lower body in
  if bool_decide (word = "inf" ∨ word = "infinity") then Ok (S754_infinity minus)
  else if bool_decide (word = "nan") then Ok S754_nan
  else
    let '(whole, n_whole, rest) := digitpart body 0 0 in
    let '(mantissa, n_frac, rest') :=
      match rest with
      | String c frac =>
          if Ascii.eqb c (Ascii.ascii_of_nat 46) then digitpart frac whole 0
          else (whole, 0%nat, rest)
      | EmptyString => (whole, 0%nat, rest)
      end in
    if Nat.eqb (n_whole + n_frac) 0 then Raise ValueError
    else match exponent rest' with
         | Some e =>
             let x := decimal mantissa (e - Z.of_nat n_frac) in
             Ok (if minus then SFopp x else x)
         | None => Raise ValueError
         end.

Definition float_of_decimal_or_zero (s : string) : spec_float :=
  match float_of_decimal s with
  | Ok x => x
  | Raise _ => S754_zero false
  end.

(** [sum(seq.count(x) for x in ["G", "C", "g", "c", "S", "s"])] *)
Fixpoint count_GC (s : string) : Z :=
  match s with
  | EmptyString => 0
  | String c s' =>
      (if bool_decide (Ascii.nat_of_ascii c ∈ [71; 67; 103; 99; 83; 115]%nat)
       then 1 else 0) + count_GC s'
  end.

(** [gc * 100.0 / len(seq)], and [0.0] for an empty sequence. *)
Definition GC_percent (s : string) : spec_float :=
  match int_truediv (100 * count_GC s) (Z.of_nat (String.length s)) with
  | Ok x => x
  | Raise _ => S754_zero false
  end.

(** No enzyme is configured in the closed runs: the two functions are not
    reached. *)
Definition no_restriction_site (enzyme : string) : result string := Raise ValueError.
Definition no_findall (pattern seq : string) : list string := [].

(** [create_contig_data] with the stand-ins. *)
Definition create_contig_data_run :=
  create_contig_data GC_percent no_restriction_site no_findall
    int_of_digits float_of_decimal.

(** *** Vocabulary for floats *)





(** ** The contact graph *)

(** A node of a [networkx.Graph]: a contig id, or the name of a bin. *)
Inductive node :=
| NInt (id : Z)
| NStr (name : string).

#[global] Instance node_eq_dec : EqDecision node.
Proof. solve_decision. Defined.

(** A Python dict whose iteration order is read: the items in insertion
    order. *)
Module Dict.
Section dict.
Context {K V : Type} `{EqDecision K}.

(** [d.get(k)] *)
Fixpoint get (d : list (K * V)) (k : K) : option V :=
  match d with
  | [] => None
  | (k', v) :: d' => if decide (k' = k) then Some v else get d' k
  end.

(** [d[k] = v]: in place for a key of [d], at the end for a new key. *)
Fixpoint set (d : list (K * V)) (k : K) (v : V) : list (K * V) :=
  match d with
  | [] => [(k, v)]
  | (k', v') :: d' =>
      if decide (k' = k) then (k, v) :: d' else (k', v') :: set d' k v
  end.

(** [del d[k]], for a key of [d]. *)
Fixpoint del (d : list (K * V)) (k : K) : list (K * V) :=
  match d with
  | [] => []
  | (k', v') :: d' =>
      if decide (k' = k) then del d' k else (k', v') :: del d' k
  end.

Definition keys (d : list (K * V)) : list K := d.*1.
End dict.
End Dict.

(** The adjacency of an undirected graph, [G._adj]: every node with its
    neighbours and the weight of the edge to each ([G._node] has the same
    keys in the same order).  An edge [{u, v}] is held in both directions,
    by one shared attribute dict, which holds its "weight" only. *)
Definition graph (W : Type) : Type := list (node * list (node * W)).

Section graph.
Context {W : Type}.

(** [G.add_node(n)] *)
Definition add_node (G : graph W) (n : node) : graph W :=
  match Dict.get G n with
  | Some _ => G
  | None => Dict.set G n []
  end.

(** [G._adj[u][v]["weight"]] when the edge exists. *)
Definition edge_weight (G : graph W) (u v : node) : option W :=
  nbrs ← Dict.get G u; Dict.get nbrs v.

(** [G.has_edge(u, v)] *)
Definition has_edge (G : graph W) (u v : node) : bool :=
  match edge_weight G u v with
  | Some _ => true
  | None => false
  end.

(** [G._adj[u][v] = {"weight": w}] for a node [u]. *)
Definition put_half (G : graph W) (u v : node) (w : W) : graph W :=
  match Dict.get G u with
  | Some nbrs => Dict.set G u (Dict.set nbrs v w)
  | None => G
  end.

(** Both directions of the edge [{u, v}] hold [w]. *)
Definition put_edge (G : graph W) (u v : node) (w : W) : graph W :=
  put_half (put_half G u v w) v u w.

(** [G.add_edge(u, v, weight=w)] *)
Definition add_edge (G : graph W) (u v : node) (w : W) : graph W :=
  put_edge (add_node (add_node G u) v) u v w.

(** [del G._adj[u][n]] *)
Definition drop_half (G : graph W) (u n : node) : graph W :=
  match Dict.get G u with
  | Some nbrs => Dict.set G u (Dict.del nbrs n)
  | None => G
  end.

(** [G.remove_node(n)]: [NetworkXError] when [n] is not a node; the entry
    of [n] is deleted from each of its neighbours, then [n] itself. *)
Definition remove_node (G : graph W) (n : node) : result (graph W) :=
  match Dict.get G n with
  | None => Raise NetworkXError
  | Some nbrs =>
      Ok (Dict.del (foldl (λ G' u, drop_half G' u n) G (Dict.keys nbrs)) n)
  end.

(** [G.edges(data=True)]: every node in order, with those of its
    neighbours that were not yet seen as a first endpoint. *)
Fixpoint edges_from (seen : list node) (adj : graph W) : list (node * node * W) :=
  match adj with
  | [] => []
  | (n, nbrs) :: rest =>
      ((λ '(nbr, w), (n, nbr, w)) <$> filter (λ '(nbr, _), nbr ∉ seen) nbrs)
      ++ edges_from (n :: seen) rest
  end.

Definition edges (G : graph W) : list (node * node * W) := edges_from [] G.

(** [G.subgraph(keep)]: the nodes of [G] that [keep] lists, and the edges
    of [G] between them. *)
Definition subgraph (G : graph W) (keep : list node) : graph W :=
  (λ '(n, nbrs), (n, filter (λ '(nbr, _), nbr ∈ keep) nbrs))
  <$> filter (λ '(n, _), n ∈ keep) G.

(** Every entry of the adjacency, both directions of an edge included:
    [(u, v, d) for u, nbrs in G._adj.items() for v, d in nbrs.items()]. *)
Definition directed (G : graph W) : list (node * node * W) :=
  mjoin ((λ row, (λ nbr, (row.1, nbr.1, nbr.2)) <$> row.2) <$> G).

(** [G.copy()]: a new graph is given the nodes of [G] in order, then every
    entry of the adjacency of [G] as an edge. *)
Definition copy (G : graph W) : graph W :=
  foldl (λ G' e, add_edge G' e.1.1 e.1.2 e.2)
    (foldl add_node [] (Dict.keys G)) (directed G).

(** ** merge_nodes *)

(** [+=] on two weights. *)
Context (add : W → W → W).

(** The two branches of the loop are the same statements on [n2] and on
    [n1]: the edge from [other] to [new_node] gains [w], or is created
    with [w]. *)
Definition redirect (new_node : node) (G2 : graph W) (other : node) (w : W)
  : graph W :=
  match edge_weight G2 other new_node with
  | Some old => put_edge G2 other new_node (add old w)
  | None => add_edge G2 other new_node w
  end.

Definition merge_step (nodes : list node) (new_node : node) (G2 : graph W)
    (e : node * node * W) : graph W :=
  let '(n1, n2, w) := e in
  if decide (n1 ∈ nodes) then redirect new_node G2 n2 w
  else if decide (n2 ∈ nodes) then redirect new_node G2 n1 w
  else G2.

(** [for n in nodes: G2.remove_node(n)] *)
Fixpoint remove_nodes (G2 : graph W) (nodes : list node) : result (graph W) :=
  match nodes with
  | [] => Ok G2
  | n :: rest => G2' ← remove_node G2 n; remove_nodes G2' rest
  end.

Definition merge_nodes (G1 : graph W) (nodes : list node) (new_node : node)
  : result (graph W) :=
  let G2 := copy G1 in
  let G2 := add_node G2 new_node in
  let G2 := foldl (merge_step nodes new_node) G2 (edges G1) in
  remove_nodes G2 nodes.
End graph.

(** *** Vocabulary for the contraction's statements *)

Definition is_node {W} (G : graph W) (n : node) : Prop := is_Some (Dict.get G n).

(** No node lists a neighbour twice. *)
Definition rows_NoDup {W} (G : graph W) : Prop :=
  ∀ n nbrs, Dict.get G n = Some nbrs → NoDup (Dict.keys nbrs).

(** A graph as networkx keeps it: no node listed twice, no neighbour listed
    twice, and every edge held in both directions with one weight. *)
Definition well_formed {W} (G : graph W) : Prop :=
  NoDup (Dict.keys G) ∧ rows_NoDup G ∧ ∀ u v, edge_weight G u v = edge_weight G v u.

(** The weights of the edges of the list [es] that join [x] and a node of
    [nodes], in the order of [es]. *)
Definition joining {W} (nodes : list node) (x : node) (es : list (node * node * W))
  : list W :=
  (λ e, e.2)
  <$> filter (λ e, (e.1.1 ∈ nodes ∧ e.1.2 = x) ∨ (e.1.2 ∈ nodes ∧ e.1.1 = x)) es.

(** The weights of [ws] added up from the left; no weight, no edge. *)
Definition total {W} (add : W → W → W) (ws : list W) : option W :=
  match ws with
  | [] => None
  | w :: rest => Some (foldl add w rest)
  end.

(** The weight the edges [es] bring to the edge between [x] and the new
    node, on top of the weight [start] that edge has. *)
Definition gained {W} (add : W → W → W) (nodes : list node) (x : node)
    (es : list (node * node * W)) (start : option W) : option W :=
  match start with
  | Some w0 => Some (foldl add w0 (joining nodes x es))
  | None => total add (joining nodes x es)
  end.

(** ** contigs_bin_network *)

(** A value of a table read by [pd.read_csv]: an integer or a string. *)
Inductive cell :=
| CInt (z : Z)
| CStr (s : string).

#[global] Instance cell_eq_dec : EqDecision cell.
Proof. solve_decision. Defined.

(** A [DataFrame] with its default row index: the labelled columns in
    order, each with its values by row. *)
Definition frame : Type := list (string * list cell).

(** [df.columns = names] on the columns [pd.read_csv(..., header=None)]
    read: [ValueError] when the number of names is not the number of
    columns. *)
Definition set_columns (data : list (list cell)) (names : list string)
  : result frame :=
  if decide (length names = length data) then Ok (zip names data)
  else Raise ValueError.

(** [df[name]] *)
Definition column (df : frame) (name : string) : result (list cell) :=
  match Dict.get df name with
  | Some values => Ok values
  | None => Raise KeyError
  end.

(** [series[i]] by label on the default index [0..n-1]. *)
Definition series_get (values : list cell) (i : Z) : result cell :=
  if decide (0 ≤ i) then
    match values !! Z.to_nat i with
    | Some c => Ok c
    | None => Raise KeyError
    end
  else Raise KeyError.

(** The twelve names assigned to [contigs_data.columns]; the seventh is the
    concatenation of two adjacent string literals. *)
Definition contigs_data_columns : list string :=
  ["ID"; "Name"; "Size"; "GC_content"; "HiC_contact"; "Shotgun_coverage";
   "Restriction_site" +:+ "core_comunitiy_id"; "core_community_contigs";
   "core_community_size"; "overlapping_comunitiy_id";
   "overlapping_community_contigs"; "overlapping_community_size"].

(** [left.merge(right, on="name", how="inner")]: the rows of [right] whose
    name a row of [left] holds, in the order of [left]; [KeyError] when a
    frame has no column "name". *)
Definition merge_on_name (left right : frame) : result frame :=
  lnames ← column left "name";
  rnames ← column right "name";
  let matches : list nat :=
    l ← lnames;
    (λ jr, jr.1) <$> filter (λ jr, jr.2 = l) (imap (λ j r, (j, r)) rnames) in
  let pick (values : list cell) : list cell :=
    omap (λ j, values !! j) matches in
  Ok (("name", pick rnames)
      :: ((λ lv, (lv.1, pick lv.2)) <$> filter (λ lv, lv.1 ≠ "name") right)).

(** A value used as a node of the network. *)
Definition node_of_cell (c : cell) : node :=
  match c with
  | CInt z => NInt z
  | CStr s => NStr s
  end.

(** ["bin_" + str(bin_id)] *)
Definition bin_node_name (bin_id : cell) : string :=
  "bin_" +:+ match bin_id with
             | CInt z => pretty z
             | CStr s => s
             end.

Section contigs_bin_network.
(** The builtin [int] on a string. *)
Context (py_int : string → result Z).

Definition cell_int (c : cell) : result Z :=
  match c with
  | CInt z => Ok z
  | CStr s => py_int s
  end.

(** The body of [for contig_id in contigs_data["id"]]; [bin_list] maps a
    community id to the list of its members. *)
Definition bin_step (contigs_data : frame) (contigs_of_interest : list cell)
    (bin_size : Z) (bin_list : list (cell * list cell)) (contig_id : cell)
  : result (list (cell * list cell)) :=
  if decide (contig_id ∈ contigs_of_interest) then Ok bin_list
  else
    oc_ids ← column contigs_data "oc_id";
    i ← match contig_id with
        | CInt z => Ok (z - 1)
        | CStr _ => Raise TypeError
        end;
    oc_id ← series_get oc_ids i;
    oc_lengths ← column contigs_data "oc_length";
    oc_length ← series_get oc_lengths i;
    match cell_int oc_length with
    | Ok len =>
        if decide (len > bin_size) then
          match Dict.get bin_list oc_id with
          | Some members => Ok (Dict.set bin_list oc_id (members ++ [contig_id]))
          | None => Ok (Dict.set bin_list oc_id [contig_id])   (* except KeyError *)
          end
        else Ok bin_list
    | Raise ValueError => Ok bin_list                          (* except ValueError *)
    | Raise e => Raise e
    end.

Fixpoint bin_loop (contigs_data : frame) (contigs_of_interest : list cell)
    (bin_size : Z) (bin_list : list (cell * list cell)) (ids : list cell)
  : result (list (cell * list cell)) :=
  match ids with
  | [] => Ok bin_list
  | contig_id :: rest =>
      bin_list' ← bin_step contigs_data contigs_of_interest bin_size bin_list
                    contig_id;
      bin_loop contigs_data contigs_of_interest bin_size bin_list' rest
  end.

(** [for bin_id in bin_list.keys()]: the nodes to keep and the network. *)
Fixpoint contract_bins (bin_list : list (cell * list cell))
    (to_keep : list node) (contigs_network : graph spec_float)
  : result (list node * graph spec_float) :=
  match bin_list with
  | [] => Ok (to_keep, contigs_network)
  | (bin_id, members) :: rest =>
      let bin_node := NStr (bin_node_name bin_id) in
      network' ← merge_nodes fadd contigs_network (node_of_cell <$> members)
                   bin_node;
      contract_bins rest (to_keep ++ [bin_node]) network'
  end.

(** [contigs_data_file] and [contigs_of_interest] are the files as
    [pd.read_csv(..., header=None)] reads them, column by column;
    [contigs_network] is what [nx.read_edgelist] built.  The result is the
    returned graph, which is also the one written to the output file. *)
Definition contigs_bin_network (contigs_network : graph spec_float)
    (contigs_data_file : list (list cell))
    (contigs_of_interest : option (list (list cell))) (bin_size : Z)
  : result (graph spec_float) :=
  contigs_data ← set_columns contigs_data_file contigs_data_columns;
  of_interest ← match contigs_of_interest with
                | None => Ok []
                | Some file =>
                    names ← set_columns file ["name"];
                    merged ← merge_on_name names contigs_data;
                    column merged "id"
                end;
  ids ← column contigs_data "id";
  bin_list ← bin_loop contigs_data of_interest bin_size [] ids;
  kept ← contract_bins bin_list (node_of_cell <$> of_interest) contigs_network;
  Ok (subgraph kept.2 kept.1).
End contigs_bin_network.

(** ** Closed inputs *)

Definition TAB : string := String (Ascii.ascii_of_nat 9) EmptyString.
Definition NEWLINE : string := String (Ascii.ascii_of_nat 10) EmptyString.

(** An alignment line between [contig1] and [contig2], split on
    tabulations: the names are fields 1 and 5. *)
Definition pair_line (contig1 contig2 : string) : list string :=
  ["read"; contig1; "10"; "+"; "read"; contig2; "250"; "-" +:+ NEWLINE].

(** A data row of a depth file. *)
Definition depth_line (name len cov : string) : string :=
  name +:+ TAB +:+ len +:+ TAB +:+ cov +:+ NEWLINE.

Definition two_contigs : list fasta := [Fasta "a" "ACGT"; Fasta "b" "GC"].

(** The registry of [two_contigs] with the given coverages. *)
Definition two_contig_data (cov_a cov_b : option spec_float) : gmap string contig :=
  <["a" := Contig 1 4 (GC_percent "ACGT") 0 cov_a None]>
    (<["b" := Contig 2 2 (GC_percent "GC") 0 cov_b None]> ∅).

Definition two_hit_data : gmap string hits :=
  <["a" := Hits 1 [0; 0]]> (<["b" := Hits 2 [0; 0]]> ∅).

(** The edges (2,5,w=3), (3,5,w=4) and (2,3,w=9), added in this order. *)
Definition three_edges : graph spec_float :=
  add_edge
    (add_edge (add_edge [] (NInt 2) (NInt 5) (float_of_Z 3))
       (NInt 3) (NInt 5) (float_of_Z 4))
    (NInt 2) (NInt 3) (float_of_Z 9).

(** [2 ** -600] *)
Definition tiny : spec_float := S754_finite false 4503599627370496 (-652).

(** ** Vocabulary for the aggregation pass under any normalization *)

(** The line of one group of equal rows: its weight first, then its ids. *)
Definition line_of (contig_data : gmap string contig) (normalization : string)
    (g : row * Z) : result edge :=
  w ← effective_count contig_data g.1 g.2 normalization;
  edge_of contig_data g.1 w.

(** The lines of the groups [gs] written after [net], in order, up to the
    first one that raises. *)
Fixpoint write_groups (contig_data : gmap string contig) (normalization : string)
    (net : list edge) (gs : list (row * Z)) : result unit * list edge :=
  match gs with
  | [] => (Ok (), net)
  | g :: rest =>
      match net_write net (line_of contig_data normalization g) with
      | (Ok _, net') => write_groups contig_data normalization net' rest
      | (Raise e, net') => (Raise e, net')
      end
  end.

(** The six strings [normalize_pair] compares [normalization] with. *)
Definition normalizations : list string :=
  ["abundance"; "length"; "RS"; "RS_length"; "empirical_hit"; "theoritical_hit"].

(** How many rows of [rows] are the row [r]. *)
Definition occurrences (r : row) (rows : list row) : Z :=
  Z.of_nat (length (filter (λ r', r' = r) rows)).

(** Equal rows are next to each other: no two groups of equal adjacent rows
    are groups of the same row. *)
Definition equal_rows_adjacent (rows : list row) : Prop :=
  NoDup (groups rows).*1.

(** The counts of the groups of the row [r], added up. *)
Definition group_total (r : row) (gs : list (row * Z)) : Z :=
  sum_counts (filter (λ g, g.1 = r) gs).

(** ** Vocabulary for compute_contig_coverage *)



(** ** Vocabulary for create_contig_data *)

(** The value of [hit_data] for a contig: its id and one zero per
    alignment file. *)
Definition hits_of (nb_alignment : nat) (c : contig) : hits :=
  Hits (c_id c) (replicate nb_alignment 0).

(** [hit_data] as [create_contig_data] builds it beside [contig_data]:
    [None] unless there are several alignment files. *)
Definition hit_data_of (nb_alignment : nat) (contig_data : gmap string contig)
  : option (gmap string hits) :=
  if decide (1 < nb_alignment)%nat then Some (hits_of nb_alignment <$> contig_data)
  else None.

(** The contig at position [i] is the last one of the assembly with its name. *)
Definition last_of_its_name (assembly : list fasta) (i : nat) : Prop :=
  ∀ contig, assembly !! i = Some contig →
    ∀ j contig', (i < j)%nat → assembly !! j = Some contig' →
      fasta_id contig' ≠ fasta_id contig.

Section depth_row.
Context (py_int : string → result Z).
Context (py_float : string → result spec_float).

(** What the loop reads from a line of the depth file: [int(line[1])] and
    [float(line[2])] of the line split on tabulations. *)
Definition depth_row (text : string) : result (Z * spec_float) :=
  let line := split_tab text in
  len_field ← getitem line 1;
  len ← py_int len_field;
  cov_field ← getitem line 2;
  cov ← py_float cov_field;
  Ok (len, cov).

(** No depth file; or a depth file that holds, after its header line, at
    least [n] data rows, the first [n] of which can be read. *)
Definition depth_rows_parse (depth_file : option (list string)) (n : nat) : Prop :=
  match depth_file with
  | None => True
  | Some depth =>
      ∀ i, (i < n)%nat →
        ∃ text, (readline depth).2 !! i = Some text ∧ is_Ok (depth_row text)
  end.
End depth_row.


Section registry_entries.
Context (GC : string → spec_float).
Context (findall : string → string → list string).
Context (pattern : option string).

(** The entry of a contig registered under [id] without a depth file. *)
Definition entry_of (id : Z) (record : fasta) : contig :=
  Contig id (Z.of_nat (String.length (fasta_seq record))) (GC (fasta_seq record)) 0
    None (restriction_sites findall pattern (fasta_seq record)).

(** The entry of a contig registered under [id] with the length and the
    coverage read from the depth file. *)
Definition entry_with_depth (id : Z) (record : fasta) (len : Z) (cov : spec_float)
  : contig :=
  Contig id len (GC (fasta_seq record)) 0 (Some cov)
    (restriction_sites findall pattern (fasta_seq record)).
End registry_entries.

(** ** Vocabulary for the pair collector *)

(** What holds of the outcome of the command [m] run from [st]: [Q] of the
    value and the state when it returns, [E] of the state when it raises. *)
Definition wp {St A} (m : prog St A) (Q : A → St → Prop) (E : St → Prop) (st : St)
  : Prop :=
  match m st with
  | (Ok a, st') => Q a st'
  | (Raise _, st') => E st'
  end.

(** A row of the pre-network file as the aggregation pass expects it: two
    registered names, the lower id first, or two equal ids when
    self-contacts are enabled. *)
Definition canonical_row (contig_data : gmap string contig) (self_contacts : bool)
    (r : row) : Prop :=
  ∃ a b ca cb,
    r = [a; b] ∧ contig_data !! a = Some ca ∧ contig_data !! b = Some cb
    ∧ (c_id ca < c_id cb ∨ (self_contacts = true ∧ c_id ca = c_id cb)).

(** [contig_data'] is [contig_data] with some hit counts increased. *)
Definition only_hits_grow (contig_data contig_data' : gmap string contig) : Prop :=
  ∀ name, ∃ k, 0 ≤ k ∧ contig_data' !! name = add_hits k <$> contig_data !! name.

(** What every state of a run of the collector started on [contig_data] and
    [hit_data] satisfies. *)
Definition collector_inv (contig_data : gmap string contig)
    (hit_data : option (gmap string hits)) (n_files : nat) (self_contacts : bool)
    (st : collector) : Prop :=
  only_hits_grow contig_data (registry st)
  ∧ Forall (canonical_row contig_data self_contacts) (pre_net st)
  ∧ hits_shape (library_hits st) = hits_shape hit_data
  ∧ ((n_files ≤ 1)%nat → library_hits st = hit_data).

(** The row the collector writes for the line [p], if any, by the ids of the
    registry [contig_data]. *)
Definition emitted_row (contig_data : gmap string contig) (self_contacts : bool)
    (p : list string) : list row :=
  match p !! 1%nat, p !! 5%nat with
  | Some contig1, Some contig2 =>
      match contig_data !! contig1, contig_data !! contig2 with
      | Some c1, Some c2 =>
          if self_contacts && bool_decide (c_id c1 = c_id c2) then [[contig1; contig2]]
          else if bool_decide (c_id c1 < c_id c2) then [[contig1; contig2]]
          else if bool_decide (c_id c1 > c_id c2) then [[contig2; contig1]]
          else []
      | _, _ => []
      end
  | _, _ => []
  end.

(** How often the lines [pairs] name the contig [name]. *)
Definition hits_from (name : string) (pairs : list (list string)) : Z :=
  foldr (λ p acc,
           match p !! 1%nat, p !! 5%nat with
           | Some contig1, Some contig2 => ends_on name contig1 contig2
           | _, _ => 0
           end + acc) 0 pairs.

(** The state [st] is what the lines [seen] make of the registry
    [contig_data]. *)
Definition collected (contig_data : gmap string contig) (self_contacts : bool)
    (seen : list (list string)) (st : collector) : Prop :=
  (∀ name, registry st !! name = add_hits (hits_from name seen) <$> contig_data !! name)
  ∧ pre_net st = seen ≫= emitted_row contig_data self_contacts.

(** ** Vocabulary for the whole pipeline *)

(** The line [p] names, in its fields 1 and 5, two contigs of [names]. *)
Definition names_both (names : list string) (p : list string) : Prop :=
  ∃ contig1 contig2,
    p !! 1%nat = Some contig1 ∧ p !! 5%nat = Some contig2
    ∧ contig1 ∈ names ∧ contig2 ∈ names.

(** The line [p] is kept for the network: self-contacts are enabled, or it
    names two different contigs. *)
Definition retained (self_contacts : bool) (p : list string) : Prop :=
  self_contacts = true ∨ p !! 1%nat ≠ p !! 5%nat.

#[global] Instance retained_dec self_contacts p : Decision (retained self_contacts p).
Proof. unfold retained. apply _. Defined.

(** ** write_contig_data and write_hit_data *)

(** ["\t".join(fields)] *)
Fixpoint join_tab (fields : list string) : string :=
  match fields with
  | [] => EmptyString
  | [field] => field
  | field :: rest => field +:+ TAB +:+ join_tab rest
  end.

(** [str] of a field that holds a number or the string "-". *)
Definition str_or_dash {A} (str : A → string) (field : option A) : string :=
  match field with
  | Some x => str x
  | None => "-"
  end.

(** The first line [write_contig_data] writes. *)
Definition contig_data_header : string :=
  "ID" +:+ TAB +:+ "Name" +:+ TAB +:+ "Size" +:+ TAB +:+ "GC_content" +:+ TAB
  +:+ "Hit" +:+ TAB +:+ "Shotgun_coverage" +:+ TAB +:+ "Restriction_site" +:+ NEWLINE.

Section write_contig_data.
(** [str] of a float, which Python leaves to the float's [repr]. *)
Context (str_float : spec_float → string).

(** ["{}\t{}\t{}\t{}\t{}\t{}\t{}\n".format(idx, name, length, GC_content, hit,
    coverage, RS)] *)
Definition contig_data_line (name : string) (c : contig) : string :=
  pretty (c_id c) +:+ TAB +:+ name +:+ TAB +:+ pretty (c_length c) +:+ TAB
  +:+ str_float (c_GC c) +:+ TAB +:+ pretty (c_hit c) +:+ TAB
  +:+ str_or_dash str_float (c_coverage c) +:+ TAB
  +:+ str_or_dash pretty (c_RS c) +:+ NEWLINE.

(** [write_contig_data]: the strings written to the file, one per call of
    [write]; [contig_data] is the dict as its items in iteration order. *)
Definition write_contig_data (contig_data : list (string * contig)) : list string :=
  contig_data_header :: ((λ item, contig_data_line item.1 item.2) <$> contig_data).
End write_contig_data.

(** ["{0}\t{1}\t{2}\n".format(idx, name, hit_str)] with
    [hit_str = "\t".join(map(str, hit_data[name]["hit"]))] *)
Definition hit_data_line (name : string) (h : hits) : string :=
  pretty (h_id h) +:+ TAB +:+ name +:+ TAB +:+ join_tab (pretty <$> h_hit h)
  +:+ NEWLINE.

(** [write_hit_data], on the items of [hit_data] in iteration order. *)
Definition write_hit_data (hit_data : list (string * hits)) : list string :=
  (λ item, hit_data_line item.1 item.2) <$> hit_data.

(** The string holds no tabulation. *)
Fixpoint no_tab (s : string) : bool :=
  match s with
  | EmptyString => true
  | String c s' => negb (Ascii.eqb c (Ascii.ascii_of_nat 9)) && no_tab s'
  end.

(** A stand-in for [str] of a float, for closed runs: sign, mantissa and
    binary exponent in decimal digits. *)
Definition str_float_parts (x : spec_float) : string :=
  match x with
  | S754_zero s => if s then "-0.0" else "0.0"
  | S754_infinity s => if s then "-inf" else "inf"
  | S754_nan => "nan"
  | S754_finite s m e =>
      (if s then "-" else "") +:+ pretty (Zpos m) +:+ "p" +:+ pretty e
  end.

(** ** The pre-network file as text *)

Definition LF : Ascii.ascii := Ascii.ascii_of_nat 10.
Definition CR : Ascii.ascii := Ascii.ascii_of_nat 13.
Definition HT : Ascii.ascii := Ascii.ascii_of_nat 9.
Definition QUOTE : Ascii.ascii := Ascii.ascii_of_nat 34.

(** What [precompute_network] writes for a row:
    ["\t".join(map(str, [contig1, contig2])) + "\n"]. *)
Definition pre_net_line (r : row) : string := join_tab r +:+ NEWLINE.

(** The content of a file written chunk by chunk. *)
Definition file_of (chunks : list string) : string := foldr String.append EmptyString chunks.

(** Reading in text mode translates the line ends ["\r\n"] and ["\r"] to
    ["\n"]. *)
Fixpoint universal_newlines (s : string) : string :=
  match s with
  | EmptyString => EmptyString
  | String c s' =>
      if Ascii.eqb c CR then
        String LF
          match s' with
          | String c' s'' =>
              if Ascii.eqb c' LF then universal_newlines s'' else universal_newlines s'
          | EmptyString => EmptyString
          end
      else String c (universal_newlines s')
  end.

(** The lines of a text, each with its final ["\n"], but for a last line
    that has none. *)
Fixpoint split_lines (s : string) : list string :=
  match s with
  | EmptyString => []
  | String c s' =>
      if Ascii.eqb c LF then String c EmptyString :: split_lines s'
      else match split_lines s' with
           | line :: lines => String c line :: lines
           | [] => [String c EmptyString]
           end
  end.

(** [for line in open(path, "r")]: the lines a file of the given content
    yields. *)
Definition text_lines (content : string) : list string :=
  split_lines (universal_newlines content).

(** ** csv.reader *)

(** The states of the reader that a dialect without escape character
    reaches. *)
Inductive csv_state :=
| START_RECORD
| START_FIELD
| IN_FIELD
| IN_QUOTED_FIELD
| QUOTE_IN_QUOTED_FIELD
| EAT_CRNL.

#[global] Instance csv_state_eq_dec : EqDecision csv_state.
Proof. solve_decision. Defined.

(** The reader between two characters: its state, the fields of the record
    saved so far, and the field being read. *)
Record csv_parser := CsvParser {
  csv_st : csv_state;
  csv_fields : list string;
  csv_field : string
}.

(** [csv.field_size_limit()], by default. *)
Definition field_limit : Z := 131072.

(** [parse_add_char]: one more character in the field, [csv.Error] beyond
    the field size limit. *)
Definition parse_add_char (p : csv_parser) (c : Ascii.ascii) (next : csv_state)
  : result csv_parser :=
  if decide (field_limit ≤ Z.of_nat (String.length (csv_field p))) then Raise CsvError
  else Ok (CsvParser next (csv_fields p) (csv_field p +:+ String c EmptyString)).

(** [parse_save_field]: the field is appended to the record. *)
Definition parse_save_field (p : csv_parser) (next : csv_state) : csv_parser :=
  CsvParser next (csv_fields p ++ [csv_field p]) EmptyString.

Definition csv_goto (p : csv_parser) (next : csv_state) : csv_parser :=
  CsvParser next (csv_fields p) (csv_field p).

Definition is_newline (c : Ascii.ascii) : bool := Ascii.eqb c LF || Ascii.eqb c CR.

(** The case [START_FIELD] of [parse_process_char], on which the case
    [START_RECORD] falls through; [None] is the end of the line. *)
Definition csv_start_field (p : csv_parser) (c : option Ascii.ascii) : result csv_parser :=
  match c with
  | None => Ok (parse_save_field p START_RECORD)
  | Some ch =>
      if is_newline ch then Ok (parse_save_field p EAT_CRNL)
      else if Ascii.eqb ch QUOTE then Ok (csv_goto p IN_QUOTED_FIELD)
      else if Ascii.eqb ch HT then Ok (parse_save_field p START_FIELD)
      else parse_add_char p ch IN_FIELD
  end.

(** [parse_process_char] for the dialect of [csv.reader(pairs,
    delimiter=TAB)]: the double quote as quote character, doubled quotes
    read as one, no escape character, not strict.  A NUL character is an
    ordinary character, as from Python 3.11 on. *)
Definition parse_process_char (p : csv_parser) (c : option Ascii.ascii) : result csv_parser :=
  match csv_st p with
  | START_RECORD =>
      match c with
      | None => Ok p
      | Some ch =>
          if is_newline ch then Ok (csv_goto p EAT_CRNL) else csv_start_field p c
      end
  | START_FIELD => csv_start_field p c
  | IN_FIELD =>
      match c with
      | None => Ok (parse_save_field p START_RECORD)
      | Some ch =>
          if is_newline ch then Ok (parse_save_field p EAT_CRNL)
          else if Ascii.eqb ch HT then Ok (parse_save_field p START_FIELD)
          else parse_add_char p ch IN_FIELD
      end
  | IN_QUOTED_FIELD =>
      match c with
      | None => Ok p
      | Some ch =>
          if Ascii.eqb ch QUOTE then Ok (csv_goto p QUOTE_IN_QUOTED_FIELD)
          else parse_add_char p ch IN_QUOTED_FIELD
      end
  | QUOTE_IN_QUOTED_FIELD =>
      match c with
      | None => Ok (parse_save_field p START_RECORD)
      | Some ch =>
          if Ascii.eqb ch QUOTE then parse_add_char p ch IN_QUOTED_FIELD
          else if Ascii.eqb ch HT then Ok (parse_save_field p START_FIELD)
          else if is_newline ch then Ok (parse_save_field p EAT_CRNL)
          else parse_add_char p ch IN_FIELD
      end
  | EAT_CRNL =>
      match c with
      | None => Ok (csv_goto p START_RECORD)
      | Some ch => if is_newline ch then Ok p else Raise CsvError
      end
  end.

(** One line of the input: its characters, then the end of the line. *)
Fixpoint csv_feed (p : csv_parser) (line : string) : result csv_parser :=
  match line with
  | EmptyString => parse_process_char p None
  | String c rest => p' ← parse_process_char p (Some c); csv_feed p' rest
  end.

(** [parse_reset], at the start of every record. *)
Definition parse_reset : csv_parser := CsvParser START_RECORD [] EmptyString.

(** What an iterator over rows does until it is exhausted or raises: the
    rows it yields, and the exception that ends it, if any. *)
Record reader := Reader {
  yielded : list row;
  failure : option exn
}.

(** The records read from [lines] by a reader in the state [p]: a record
    continues over the next line while a quoted field is open, and the end
    of the input closes an open record. *)
Fixpoint csv_records (p : csv_parser) (lines : list string) : reader :=
  match lines with
  | [] =>
      if bool_decide (csv_field p ≠ EmptyString ∨ csv_st p = IN_QUOTED_FIELD)
      then Reader [csv_fields p ++ [csv_field p]] None
      else Reader [] None
  | line :: rest =>
      match csv_feed p line with
      | Raise e => Reader [] (Some e)
      | Ok p' =>
          if decide (csv_st p' = START_RECORD) then
            let r := csv_records parse_reset rest in
            Reader (csv_fields p' :: yielded r) (failure r)
          else csv_records p' rest
      end
  end.

(** [csv.reader(pairs, delimiter=TAB)] over the lines of a file. *)
Definition csv_reader (lines : list string) : reader := csv_records parse_reset lines.

(** ** compute_network on the files *)

(** The loop of [compute_network] over a reader: the rows it yields are
    aggregated as by [aggregate]; when the reader raises, the exception
    leaves the loop after the rows read before it, with the lines written
    for them. *)
Definition aggregate_reader (contig_data : gmap string contig)
    (normalization : string) (pairs_reader : reader) : result agg * list edge :=
  match failure pairs_reader with
  | None => aggregate contig_data normalization (yielded pairs_reader)
  | Some e =>
      match yielded pairs_reader with
      | [] => (Raise e, [])                    (* next(pairs_reader) *)
      | first :: rest =>
          match agg_loop contig_data normalization (Agg first None 1 1 0) [] rest with
          | (Ok _, net) => (Raise e, net)
          | (Raise x, net) => (Raise x, net)
          end
      end
  end.

(** [compute_network] on the content of the pre-network file:
    [sort_pairs] stands for [metator.io.sort_pairs], which writes the
    sorted file from it; the sorted file is read line by line in text mode
    and parsed by [csv.reader]. *)
Definition compute_network_file (sort_pairs : string → string)
    (pre_network_file : string) (contig_data : gmap string contig)
    (normalization : string) : result unit * list edge :=
  let pairs := text_lines (sort_pairs pre_network_file) in
  match aggregate_reader contig_data normalization (csv_reader pairs) with
  | (Ok _, net) => (Ok (), net)
  | (Raise x, net) => (Raise x, net)
  end.

(** ** alignment_to_contacts *)

Section alignment_to_contacts.
Context (GC : string → spec_float).
Context (get_restriction_site : string → result string).
Context (findall : string → string → list string).
Context (py_int : string → result Z).
Context (py_float : string → result spec_float).
Context (sort_pairs : string → string).

(** The three stages up to the network file: the registry, the pair
    collector, which writes the pre-network file, and the aggregation pass,
    which sorts that file and reads it back.  The result is the outcome and
    the lines of the network file; [write_contig_data] and [write_hit_data]
    then only print the registry. *)
Definition alignment_to_contacts (aligment_files : list (list (list string)))
    (assembly : list fasta) (depth_file : option (list string))
    (normalization : string) (enzyme : option string) (self_contacts : bool)
  : result unit * list edge :=
  let nb_alignment := length aligment_files in
  match create_contig_data GC get_restriction_site findall py_int py_float
          assembly nb_alignment depth_file enzyme with
  | Raise e => (Raise e, [])
  | Ok (contig_data, hit_data) =>
      match precompute_network aligment_files contig_data hit_data
              self_contacts with
      | (Raise e, _) => (Raise e, [])
      | (Ok contig_data', st) =>
          compute_network_file sort_pairs (file_of (pre_net_line <$> pre_net st))
            contig_data' normalization
      end
  end.
End alignment_to_contacts.

(** ** Vocabulary for the text of the pre-network file *)

(** A line of text: characters other than ["\n"], then ["\n"]. *)
Fixpoint text_line (l : string) : bool :=
  match l with
  | EmptyString => false
  | String c EmptyString => Ascii.eqb c LF
  | String c l' => negb (Ascii.eqb c LF) && text_line l'
  end.

(** The string holds no tabulation, no line end and no NUL character. *)
Fixpoint no_separator (s : string) : bool :=
  match s with
  | EmptyString => true
  | String c s' =>
      negb (Ascii.eqb c HT) && negb (is_newline c)
      && negb (Ascii.eqb c (Ascii.ascii_of_nat 0)) && no_separator s'
  end.

(** The string does not start with a double quote. *)
Definition unquoted (s : string) : bool :=
  match s with
  | String c _ => negb (Ascii.eqb c QUOTE)
  | EmptyString => true
  end.

(** A name that [csv.reader] reads back as it was written between two
    tabulations: no tabulation and no line end in it, no double quote at
    its start, and no more characters than the field size limit; and no
    NUL character, which the reader rejects before Python 3.11. *)
Definition csv_plain (s : string) : bool :=
  no_separator s && unquoted s
  && bool_decide (Z.of_nat (String.length s) ≤ field_limit).

(** [sort_pairs] writes the lines of the file it is given, in some order. *)
Definition permutes_lines (sort_pairs : string → string) : Prop :=
  ∀ lines : list string,
    Forall (λ l, text_line l = true) lines →
    ∃ sorted, sorted ≡ₚ lines ∧ sort_pairs (file_of lines) = file_of sorted.

(** A stand-in for [metator.io.sort_pairs] on the text of the file, for
    closed runs: the lines in the order of their characters. *)
Fixpoint insert_line (l : string) (sorted : list string) : list string :=
  match sorted with
  | [] => [l]
  | l' :: rest =>
      match String.compare l l' with
      | Gt => l' :: insert_line l rest
      | _ => l :: sorted
      end
  end.

Definition sort_pairs_text (content : string) : string :=
  file_of (foldr insert_line [] (split_lines content)).

(** The rows of plain names. *)
Definition plain_pair (r : row) : Prop :=
  ∃ contig1 contig2, r = [contig1; contig2]
    ∧ csv_plain contig1 = true ∧ csv_plain contig2 = true.

(** The name made of the letter a between two double quotes. *)
Definition quoted_a : string :=
  String QUOTE (String (Ascii.ascii_of_nat 97) (String QUOTE EmptyString)).

(** * Properties *)

(** ** Run-length view *)

Lemma runs_sum prev n rest :
  sum_counts (runs prev n rest) = n + Z.of_nat (length rest).
Proof.
  revert prev n. induction rest as [|r rest IH]; intros prev n; simpl.
  - lia.
  - case_decide; simpl; rewrite IH; lia.
Qed.

Lemma groups_sum rows : sum_counts (groups rows) = Z.of_nat (length rows).
Proof. destruct rows as [|r rest]; simpl; [done|]. rewrite runs_sum. lia. Qed.

Lemma runs_replicate prev n k :
  runs prev n (replicate k prev) = [(prev, n + Z.of_nat k)].
Proof.
  revert n. induction k as [|k IH]; intros n; simpl.
  - f_equal. f_equal. lia.
  - case_decide; [|done]. rewrite IH. do 2 f_equal. lia.
Qed.

Lemma sum_weights_app net1 net2 :
  sum_weights (net1 ++ net2) = sum_weights net1 + sum_weights net2.
Proof. induction net1 as [|e net1 IH]; simpl; [done|]. rewrite IH. lia. Qed.

Lemma raw_edges_sum contig_data net gs :
  Forall2 (raw_edge_of contig_data) net gs → sum_weights net = sum_counts gs.
Proof.
  induction 1 as [|e g net gs [_ Hw] _ IH]; simpl; [done|].
  unfold int_weight. rewrite Hw, IH. done.
Qed.

(** ** The aggregation pass with normalization disabled *)

Section aggregate_raw.
Context (contig_data : gmap string contig).

Lemma effective_count_None (r : row) n :
  effective_count contig_data r n "None" = Ok (WInt n).
Proof. unfold effective_count. case_decide; [congruence|done]. Qed.

Lemma edge_of_registered (r : row) i j w :
  pair_ids contig_data r = Some (i, j) →
  edge_of contig_data r w = Ok (i, j, w).
Proof.
  unfold pair_ids, edge_of, endpoint, getitem, dict_get. intros H.
  destruct (r !! 0%nat) as [a|]; [|done]. simpl in *.
  destruct (contig_data !! a) as [ca|]; [|done]. simpl in *.
  destruct (r !! 1%nat) as [b|]; [|done]. simpl in *.
  destruct (contig_data !! b) as [cb|]; [|done]. simpl in *.
  congruence.
Qed.

(** A line for a registered pair is written with its count. *)
Lemma net_write_raw net (r r' : row) n i j :
  pair_ids contig_data r' = Some (i, j) →
  net_write net
    (w ← effective_count contig_data r n "None"; edge_of contig_data r' w)
  = (Ok (), net ++ [(i, j, WInt n)]).
Proof.
  intros H. rewrite effective_count_None. simpl.
  rewrite (edge_of_registered _ _ _ _ H). done.
Qed.

(** The loop over the rows after the first: it closes every group but the
    last, which it leaves pending in [prev_pair] and [n_occ]; from the first
    iteration on, [curr_pair] is bound and equal to [prev_pair]. *)
Lemma agg_loop_raw rest : ∀ st net,
  registered contig_data (prev_pair st) →
  Forall (registered contig_data) rest →
  0 < n_occ st →
  ∃ st' body gs,
    agg_loop contig_data "None" st net rest = (Ok st', net ++ body)
    ∧ runs (prev_pair st) (n_occ st) rest = gs ++ [(prev_pair st', n_occ st')]
    ∧ Forall2 (raw_edge_of contig_data) body gs
    ∧ registered contig_data (prev_pair st')
    ∧ 0 < n_occ st'
    ∧ (rest ≠ [] → curr_pair st' = Some (prev_pair st')).
Proof.
  induction rest as [|r rest IH]; intros st net Hprev Hrest Hn.
  - exists st, [], []. rewrite app_nil_r. done.
  - apply Forall_cons in Hrest as [Hr Hrest].
    cbn [agg_loop runs]. unfold agg_step.
    destruct (decide (prev_pair st = r)) as [Heq|Hne].
    + destruct (IH (Agg (prev_pair st) (Some r) (n_occ st + 1) (n_nonzero st)
                      (n_pairs st)) net)
        as (st' & body & gs & Hrun & Hruns & Hbody & Hreg & Hpos & Hcurr);
        [done|done|simpl; lia|].
      exists st', body, gs. simpl in *. repeat split; try done.
      intros _. destruct rest as [|r' rest'].
      * simpl in Hrun. injection Hrun as <- _. simpl. by rewrite Heq.
      * by apply Hcurr.
    + rewrite decide_True by lia.
      destruct Hprev as [[i j] Hij].
      rewrite (net_write_raw _ _ _ _ _ _ Hij).
      destruct (IH (Agg r (Some r) 1 (n_nonzero st + 1) (n_pairs st + n_occ st))
                  (net ++ [(i, j, WInt (n_occ st))]))
        as (st' & body & gs & Hrun & Hruns & Hbody & Hreg & Hpos & Hcurr);
        [done|done|simpl; lia|].
      exists st', ((i, j, WInt (n_occ st)) :: body), ((prev_pair st, n_occ st) :: gs).
      simpl in *. rewrite Hrun, Hruns, <- app_assoc. repeat split; try done.
      * constructor; [done|done].
      * intros _. destruct rest as [|r' rest'].
        -- simpl in Hrun. injection Hrun as <- _. done.
        -- by apply Hcurr.
Qed.

(** On at least two registered rows the pass ends normally and writes one
    line per group of equal adjacent rows, in order, each with the number of
    rows of its group. *)
Lemma aggregate_raw_groups sorted :
  Forall (registered contig_data) sorted →
  (2 ≤ length sorted)%nat →
  ∃ st net,
    aggregate contig_data "None" sorted = (Ok st, net)
    ∧ Forall2 (raw_edge_of contig_data) net (groups sorted).
Proof.
  destruct sorted as [|first rest]; [simpl; lia|].
  intros [Hfirst Hrest]%Forall_cons Hlen.
  destruct rest as [|second rest]; [simpl in Hlen; lia|].
  destruct (agg_loop_raw (second :: rest) (Agg first None 1 1 0) [])
    as (st' & body & gs & Hrun & Hruns & Hbody & [[i j] Hij] & Hpos & Hcurr);
    [done|done|simpl; lia|].
  unfold aggregate, groups. rewrite Hrun. unfold agg_flush.
  rewrite Hcurr by done. simpl in Hruns.
  change (curr ← Ok (prev_pair st'); edge_of contig_data curr ?w)
    with (edge_of contig_data (prev_pair st') w).
  rewrite (net_write_raw _ _ _ _ _ _ Hij). simpl.
  eexists _, _. split; [done|].
  simpl in Hruns. rewrite Hruns.
  apply Forall2_app; [done|]. constructor; [done|constructor].
Qed.

End aggregate_raw.

(** ** compute_network with normalization disabled *)

Lemma insert_row_perm r sorted : insert_row r sorted ≡ₚ r :: sorted.
Proof.
  induction sorted as [|r' rest IH]; simpl; [done|].
  destruct (row_compare r r'); try done.
  rewrite IH. apply perm_swap.
Qed.

Lemma sort_pairs_lex_perm rows : sort_pairs_lex rows ≡ₚ rows.
Proof.
  induction rows as [|r rows IH]; simpl; [done|].
  rewrite insert_row_perm. by constructor.
Qed.

Lemma raw_edges_int contig_data net gs :
  Forall2 (raw_edge_of contig_data) net gs →
  Forall (λ e : edge, ∃ n, e.2 = WInt n) net.
Proof.
  induction 1 as [|e g net gs [_ Hw] _ IH]; constructor; [by eexists|done].
Qed.

Section compute_network_raw.
Context (sort_pairs : list row → list row).
Context (sort_pairs_perm : ∀ rows, sort_pairs rows ≡ₚ rows).
Context (contig_data : gmap string contig).

(** One line per group of the sorted stream. *)
Lemma compute_network_raw_groups pre_network :
  Forall (registered contig_data) pre_network →
  (2 ≤ length pre_network)%nat →
  ∃ net,
    compute_network sort_pairs pre_network contig_data "None" = (Ok (), net)
    ∧ Forall2 (raw_edge_of contig_data) net (groups (sort_pairs pre_network)).
Proof.
  intros Hreg Hlen.
  destruct (aggregate_raw_groups contig_data (sort_pairs pre_network))
    as (st & net & Hrun & Hnet).
  - by rewrite sort_pairs_perm.
  - by rewrite sort_pairs_perm.
  - exists net. unfold compute_network. by rewrite Hrun.
Qed.

(** With at least two retained pair records, every written weight is an
    integer count and the counts add up to the number of records. *)
Lemma compute_network_raw_sum pre_network :
  Forall (registered contig_data) pre_network →
  (2 ≤ length pre_network)%nat →
  ∃ net,
    compute_network sort_pairs pre_network contig_data "None" = (Ok (), net)
    ∧ Forall (λ e : edge, ∃ n, e.2 = WInt n) net
    ∧ sum_weights net = Z.of_nat (length pre_network).
Proof.
  intros Hreg Hlen.
  destruct (compute_network_raw_groups pre_network Hreg Hlen) as (net & Hrun & Hnet).
  exists net. split; [done|]. split.
  - by eapply raw_edges_int.
  - rewrite (raw_edges_sum _ _ _ Hnet), groups_sum.
    by rewrite sort_pairs_perm.
Qed.

(** A stream of [k + 2] equal rows is one group: one line, with count
    [k + 2], written by the final flush. *)
Lemma compute_network_raw_one_group (r : row) k i j :
  pair_ids contig_data r = Some (i, j) →
  compute_network sort_pairs (replicate (S (S k)) r) contig_data "None"
  = (Ok (), [(i, j, WInt (Z.of_nat k + 2))]).
Proof.
  intros Hij.
  assert (sort_pairs (replicate (S (S k)) r) = replicate (S (S k)) r) as Hsort.
  { symmetry. apply replicate_as_Forall. split.
    - by rewrite sort_pairs_perm, length_replicate.
    - rewrite sort_pairs_perm. by apply Forall_replicate_eq. }
  destruct (compute_network_raw_groups (replicate (S (S k)) r))
    as (net & Hrun & Hnet).
  - apply Forall_replicate. by eexists.
  - rewrite length_replicate. lia.
  - rewrite Hrun. f_equal.
    rewrite Hsort in Hnet. cbn [replicate groups] in Hnet.
    change (r :: replicate k r) with (replicate (S k) r) in Hnet.
    rewrite runs_replicate in Hnet.
    apply Forall2_cons_inv_r in Hnet as ([[i' j'] w] & net' & [Hids Hw] & Hnil & ->).
    apply Forall2_nil_inv_r in Hnil as ->.
    simpl in *. rewrite Hij in Hids. injection Hids as <- <-. subst w.
    do 3 f_equal. lia.
Qed.

End compute_network_raw.

(** ** The first row and the final flush *)

Lemma aggregate_empty contig_data normalization :
  aggregate contig_data normalization [] = (Raise StopIteration, []).
Proof. reflexivity. Qed.

(** On a one-row stream the [for] loop never binds [curr_pair]: whatever the
    normalization, the final flush raises before it writes. *)
Lemma aggregate_single_row contig_data normalization (r : row) :
  ∃ e, aggregate contig_data normalization [r] = (Raise e, []).
Proof.
  unfold aggregate, agg_loop, agg_flush. cbn [prev_pair curr_pair n_occ].
  destruct (effective_count contig_data r 1 normalization) as [w|e]; simpl;
    by eexists.
Qed.

Lemma aggregate_single_row_raw contig_data (r : row) :
  aggregate contig_data "None" [r] = (Raise UnboundLocalError, []).
Proof.
  unfold aggregate, agg_loop, agg_flush. cbn [prev_pair curr_pair n_occ].
  by rewrite effective_count_None.
Qed.

(** C1 (evaluation at the failing input): with normalization disabled, a
    stream of exactly one retained pair record leaves the network file empty,
    so the written weights add up to 0 while one record was retained. *)
Theorem compute_network_single_record_sum :
  ∀ (contig_data : gmap string contig) (r : row),
    let net := (compute_network sort_pairs_lex [r] contig_data "None").2 in
    net = [] ∧ sum_weights net = 0 ∧ Z.of_nat (length [r]) = 1.
Proof.
  intros contig_data r. unfold compute_network. simpl sort_pairs_lex.
  rewrite aggregate_single_row_raw. done.
Qed.

(** C2 (evaluation at the failing input): on a one-line stream the final
    flush raises [UnboundLocalError] on [curr_pair] and emits no edge; with a
    normalization enabled the pass raises as well and emits no edge. *)
Theorem compute_network_single_row_no_flush :
  ∀ (contig_data : gmap string contig) (r : row),
    compute_network sort_pairs_lex [r] contig_data "None"
    = (Raise UnboundLocalError, [])
    ∧ ∀ normalization, ∃ e,
        compute_network sort_pairs_lex [r] contig_data normalization
        = (Raise e, []).
Proof.
  intros contig_data r. unfold compute_network. simpl sort_pairs_lex. split.
  - by rewrite aggregate_single_row_raw.
  - intros normalization.
    destruct (aggregate_single_row contig_data normalization r) as [e ->].
    by exists e.
Qed.

(** C3 (evaluation at the failing input): on an empty stream
    [next(pairs_reader)] raises [StopIteration]; the network file is left
    empty, but the pass does not end normally. *)
Theorem compute_network_empty_stream_raises :
  ∀ (contig_data : gmap string contig) (normalization : string),
    compute_network sort_pairs_lex [] contig_data normalization
    = (Raise StopIteration, []).
Proof. reflexivity. Qed.

(** ** The pair collector, one record *)

Lemma bind_ok {St A B} (m : prog St A) (f : A → prog St B) st a st' :
  m st = (Ok a, st') → (m ≫= f) st = f a st'.
Proof. intros H. unfold mbind, prog_bind. by rewrite H. Qed.

Lemma bind_raise {St A B} (m : prog St A) (f : A → prog St B) st e st' :
  m st = (Raise e, st') → (m ≫= f) st = (Raise e, st').
Proof. intros H. unfold mbind, prog_bind. by rewrite H. Qed.

Lemma count_hit_twice contig1 contig2 (cd : gmap string contig) c1 c2 :
  cd !! contig1 = Some c1 → cd !! contig2 = Some c2 →
  ∃ cd1 cd',
    count_hit contig1 cd = Ok cd1 ∧ count_hit contig2 cd1 = Ok cd'
    ∧ ∀ name, cd' !! name = add_hits (ends_on name contig1 contig2) <$> cd !! name.
Proof.
  intros H1 H2. unfold count_hit at 1, dict_get. rewrite H1.
  cbn [mbind result_bind].
  assert (∀ c k, add_hits k c
                 = Contig (c_id c) (c_length c) (c_GC c) (c_hit c + k)
                     (c_coverage c) (c_RS c)) as Hadd by done.
  destruct (decide (contig1 = contig2)) as [->|Hne].
  - eexists; eexists. split; [reflexivity|]. unfold count_hit, dict_get.
    rewrite lookup_insert_eq. cbn [mbind result_bind].
    split; [reflexivity|].
    intros name. unfold ends_on.
    destruct (decide (name = contig2)) as [->|Hn].
    + rewrite lookup_insert_eq, H1. simpl. unfold add_hits. simpl.
      do 2 f_equal. lia.
    + rewrite !lookup_insert_ne by done.
      destruct (cd !! name) as [[]|]; simpl; [|done].
      unfold add_hits; simpl. do 2 f_equal. lia.
  - eexists; eexists. split; [reflexivity|]. unfold count_hit, dict_get.
    rewrite lookup_insert_ne, H2 by done. cbn [mbind result_bind].
    split; [reflexivity|].
    intros name. unfold ends_on.
    destruct (decide (name = contig1)) as [E1|Hn1];
      destruct (decide (name = contig2)) as [E2|Hn2]; subst; try done.
    + rewrite lookup_insert_ne, lookup_insert_eq, H1 by done.
      simpl. unfold add_hits; simpl. do 2 f_equal.
    + rewrite lookup_insert_eq, H2. simpl. unfold add_hits; simpl. done.
    + rewrite !lookup_insert_ne by done.
      destruct (cd !! name) as [[]|]; simpl; [|done].
      unfold add_hits; simpl. do 2 f_equal. lia.
Qed.

Lemma hits_shape_count (name : string) i x (h : hits) (d : gmap string hits) :
  d !! name = Some h →
  (length ∘ h_hit) <$> <[name := Hits (h_id h) (<[i := x]> (h_hit h))]> d
  = (length ∘ h_hit) <$> d.
Proof.
  intros H. rewrite fmap_insert. apply insert_id.
  rewrite lookup_fmap, H. simpl. by rewrite length_insert.
Qed.

Lemma count_library_hit_twice contig1 contig2 i (hd : gmap string hits) h1 h2 :
  hd !! contig1 = Some h1 → hd !! contig2 = Some h2 →
  (i < length (h_hit h1))%nat → (i < length (h_hit h2))%nat →
  ∃ hd1 hd',
    count_library_hit contig1 i (Some hd) = Ok (Some hd1)
    ∧ count_library_hit contig2 i (Some hd1) = Ok (Some hd')
    ∧ hits_shape (Some hd') = hits_shape (Some hd).
Proof.
  intros H1 H2 Hi1 Hi2.
  destruct (lookup_lt_is_Some_2 _ _ Hi1) as [x1 Hx1].
  destruct (lookup_lt_is_Some_2 _ _ Hi2) as [x2 Hx2].
  assert (count_library_hit contig1 i (Some hd)
          = Ok (Some (<[contig1 := Hits (h_id h1) (<[i := x1 + 1]> (h_hit h1))]> hd)))
    as Hfirst.
  { unfold count_library_hit, dict_get, getitem. by rewrite H1; simpl; rewrite Hx1. }
  rewrite Hfirst.
  destruct (decide (contig1 = contig2)) as [->|Hne];
    (eexists; eexists; split; [reflexivity|]);
    unfold count_library_hit, dict_get, getitem.
  - rewrite lookup_insert_eq. cbn [mbind result_bind h_hit].
    rewrite list_lookup_insert_eq by done. cbn [mbind result_bind].
    split; [reflexivity|]. unfold hits_shape. simpl. f_equal.
    rewrite insert_insert_eq. rewrite list_insert_insert_eq.
    by apply hits_shape_count.
  - rewrite lookup_insert_ne, H2 by done. cbn [mbind result_bind].
    rewrite Hx2. cbn [mbind result_bind].
    split; [reflexivity|]. unfold hits_shape. simpl. f_equal.
    rewrite hits_shape_count by (by rewrite lookup_insert_ne).
    by apply hits_shape_count.
Qed.

Section collect_pair.
Context (n_files i : nat) (self_contacts : bool).

(** The full effect of one record whose two names are registered. *)
Lemma collect_pair_run (p : list string) (st : collector)
    (contig1 contig2 : string) (c1 c2 : contig) :
  p !! 1%nat = Some contig1 →
  p !! 5%nat = Some contig2 →
  registry st !! contig1 = Some c1 →
  registry st !! contig2 = Some c2 →
  ((1 < n_files)%nat →
   ∃ hd h1 h2, library_hits st = Some hd
     ∧ hd !! contig1 = Some h1 ∧ hd !! contig2 = Some h2
     ∧ (i < length (h_hit h1))%nat ∧ (i < length (h_hit h2))%nat) →
  ∃ st' emitted,
    collect_pair n_files i self_contacts p st = (Ok (), st')
    ∧ (∀ name, registry st' !! name
               = add_hits (ends_on name contig1 contig2) <$> registry st !! name)
    ∧ pre_net st' = pre_net st ++ emitted
    ∧ (self_contacts = true → c_id c1 = c_id c2 → emitted = [[contig1; contig2]])
    ∧ (c_id c1 < c_id c2 → emitted = [[contig1; contig2]])
    ∧ (c_id c2 < c_id c1 → emitted = [[contig2; contig1]])
    ∧ (self_contacts = false → c_id c1 = c_id c2 → emitted = [])
    ∧ hits_shape (library_hits st') = hits_shape (library_hits st)
    ∧ all_contacts_temp st' = all_contacts_temp st + 1
    ∧ all_contacts st' = all_contacts st
    ∧ inter_contacts st' = inter_contacts st.
Proof.
  intros Hp1 Hp5 H1 H2 Hlib.
  destruct st as [cd hd net a_t i_t a_ i_]. cbn [registry library_hits pre_net] in *.
  destruct (count_hit_twice contig1 contig2 cd c1 c2 H1 H2)
    as (cd1 & cd' & Hcd1 & Hcd' & Hhits).
  unfold collect_pair, read, update, set_temp, set_registry, set_library_hits,
    pre_net_write, pass, getitem, dict_get.
  unfold mbind, prog_bind, result_bind.
  cbn [registry library_hits pre_net all_contacts_temp inter_contacts_temp
       all_contacts inter_contacts].
  rewrite Hp1, Hp5, H1, H2.
  cbn [registry library_hits pre_net all_contacts_temp inter_contacts_temp
       all_contacts inter_contacts].
  rewrite Hcd1.
  cbn [registry library_hits pre_net all_contacts_temp inter_contacts_temp
       all_contacts inter_contacts].
  rewrite Hcd'.
  cbn [registry library_hits pre_net all_contacts_temp inter_contacts_temp
       all_contacts inter_contacts].
  match goal with
  | |- context [ let (_, _) := ?lib ?s in _ ] =>
      assert (∃ hd', lib s = (Ok (), Collector cd' hd' net (a_t + 1) i_t a_ i_)
                     ∧ hits_shape hd' = hits_shape hd)
        as (hd' & -> & Hshape)
  end.
  { case_decide as Hn; [|by eexists].
    destruct (Hlib Hn) as (hd0 & h1 & h2 & -> & Hh1 & Hh2 & Hi1 & Hi2).
    destruct (count_library_hit_twice contig1 contig2 i hd0 h1 h2)
      as (hd1 & hd2 & E1 & E2 & E3); [done..|].
    cbn [library_hits]. rewrite E1. cbn [library_hits]. rewrite E2.
    by eexists. }
  destruct self_contacts; cbn [andb]; repeat case_bool_decide;
    (eexists _, _; split; [reflexivity|]);
    cbn [registry pre_net library_hits all_contacts_temp all_contacts
         inter_contacts];
    (split; [done|]);
    (split; [reflexivity || (symmetry; apply app_nil_r)|]);
    repeat split; intros; (done || lia).
Qed.

(** C4: a record whose two names are registered increments the hit counter
    of both named contigs, twice for a record naming one contig at both
    ends, and changes nothing else in the registry; it is written unchanged
    when self-contacts are enabled and the ids are equal, with the lower-id
    contig first when the ids differ, and it is not written when the ids
    are equal and self-contacts are disabled. *)
Theorem collect_pair_counts_and_emits (p : list string) (st : collector)
    (contig1 contig2 : string) (c1 c2 : contig) :
  p !! 1%nat = Some contig1 →
  p !! 5%nat = Some contig2 →
  registry st !! contig1 = Some c1 →
  registry st !! contig2 = Some c2 →
  ((1 < n_files)%nat →
   ∃ hd h1 h2, library_hits st = Some hd
     ∧ hd !! contig1 = Some h1 ∧ hd !! contig2 = Some h2
     ∧ (i < length (h_hit h1))%nat ∧ (i < length (h_hit h2))%nat) →
  ∃ st' emitted,
    collect_pair n_files i self_contacts p st = (Ok (), st')
    ∧ (∀ name, registry st' !! name
               = add_hits (ends_on name contig1 contig2) <$> registry st !! name)
    ∧ pre_net st' = pre_net st ++ emitted
    ∧ (self_contacts = true → c_id c1 = c_id c2 → emitted = [[contig1; contig2]])
    ∧ (c_id c1 < c_id c2 → emitted = [[contig1; contig2]])
    ∧ (c_id c2 < c_id c1 → emitted = [[contig2; contig1]])
    ∧ (self_contacts = false → c_id c1 = c_id c2 → emitted = []).
Proof.
  intros Hp1 Hp5 H1 H2 Hlib.
  destruct (collect_pair_run p st contig1 contig2 c1 c2 Hp1 Hp5 H1 H2 Hlib)
    as (st' & emitted & Hrun & Hreg & Hnet & He1 & He2 & He3 & He4 & _).
  by exists st', emitted.
Qed.
End collect_pair.

(** ** The pair collector, whole files *)

Lemma same_shape_refl st : same_shape st st.
Proof. by split. Qed.

Lemma same_shape_trans st1 st2 st3 :
  same_shape st1 st2 → same_shape st2 st3 → same_shape st1 st3.
Proof.
  intros [H1 H2] [H3 H4]. split.
  - intros name. by rewrite H3, H1.
  - by rewrite H4, H2.
Qed.

Lemma processable_same_shape n_files i st st' p :
  same_shape st st' → processable n_files i st p → processable n_files i st' p.
Proof.
  intros [Hreg Hsh] (c1 & c2 & Hp1 & Hp5 & H1 & H2 & Hc1 & Hc2).
  exists c1, c2. unfold has_counter in *. rewrite Hsh, !Hreg. done.
Qed.

Lemma has_counter_inv n_files i hit_data name :
  has_counter n_files i hit_data name → (1 < n_files)%nat →
  ∃ hd h, hit_data = Some hd ∧ hd !! name = Some h ∧ (i < length (h_hit h))%nat.
Proof.
  intros H Hn. destruct (H Hn) as (sh & len & Hsh & Hlen & Hi).
  destruct hit_data as [hd|]; [|done]. simpl in Hsh. injection Hsh as <-.
  rewrite lookup_fmap in Hlen.
  destruct (hd !! name) as [h|] eqn:Hh; [|done]. simpl in Hlen.
  injection Hlen as <-. by exists hd, h.
Qed.

Section collect_files.
Context (n_files : nat) (self_contacts : bool).

Lemma collect_pair_processable i p st :
  processable n_files i st p →
  ∃ st', collect_pair n_files i self_contacts p st = (Ok (), st')
    ∧ same_shape st st'
    ∧ all_contacts_temp st' = all_contacts_temp st + 1.
Proof.
  intros (c1 & c2 & Hp1 & Hp5 & [r1 H1] & [r2 H2] & Hc1 & Hc2).
  destruct (collect_pair_run n_files i self_contacts p st c1 c2 r1 r2)
    as (st' & emitted & Hrun & Hreg & _ & _ & _ & _ & _ & Hsh & Hall & _);
    [done..| |].
  { intros Hn.
    destruct (has_counter_inv _ _ _ _ Hc1 Hn) as (hd & h1 & Hhd & Hh1 & Hi1).
    destruct (has_counter_inv _ _ _ _ Hc2 Hn) as (hd' & h2 & Hhd' & Hh2 & Hi2).
    rewrite Hhd in Hhd'. injection Hhd' as <-. by exists hd, h1, h2. }
  exists st'. split; [done|]. split; [|done]. split; [|done].
  intros name. rewrite Hreg. by rewrite fmap_is_Some.
Qed.

Lemma for_each_processable i pairs : ∀ st,
  Forall (processable n_files i st) pairs →
  ∃ st', for_each pairs (collect_pair n_files i self_contacts) st = (Ok (), st')
    ∧ same_shape st st'
    ∧ all_contacts_temp st' = all_contacts_temp st + Z.of_nat (length pairs).
Proof.
  induction pairs as [|p pairs IH]; intros st Hall.
  - exists st. cbn. split; [done|]. split; [apply same_shape_refl|lia].
  - apply Forall_cons in Hall as [Hp Hall].
    destruct (collect_pair_processable i p st Hp) as (st1 & Hrun1 & Hsh1 & Hn1).
    destruct (IH st1) as (st' & Hrun & Hsh & Hn).
    { eapply Forall_impl; [done|]. intros q. by apply processable_same_shape. }
    exists st'. cbn [for_each]. rewrite (bind_ok _ _ _ _ _ Hrun1).
    split; [done|]. split; [by eapply same_shape_trans|]. simpl length. lia.
Qed.

(** A file with no line: the per-file ratio is [0 / 0]. *)
Lemma collect_file_empty i st :
  ∃ st', collect_file n_files self_contacts i [] st = (Raise ZeroDivisionError, st').
Proof.
  destruct st. unfold collect_file, for_each, ratio_3D, update, read, set_temp,
    set_total, pass, int_truediv, mbind, prog_bind, mret, prog_ret. simpl.
  by eexists.
Qed.

(** A file of processable lines is collected, or it is empty and raises
    the division error. *)
Lemma collect_file_processable i pairs st :
  Forall (processable n_files i st) pairs →
  (∃ st', collect_file n_files self_contacts i pairs st = (Ok (), st')
          ∧ same_shape st st')
  ∨ (∃ st', collect_file n_files self_contacts i pairs st
            = (Raise ZeroDivisionError, st')).
Proof.
  intros Hall. destruct pairs as [|p pairs]; [right; apply collect_file_empty|].
  left.
  destruct (for_each_processable i (p :: pairs)
              (Collector (registry st) (library_hits st) (pre_net st) 0 0
                 (all_contacts st) (inter_contacts st)))
    as (st1 & Hrun & Hsh & Hn).
  { eapply Forall_impl; [done|]. intros q. by apply processable_same_shape. }
  unfold collect_file.
  erewrite bind_ok by (unfold update, set_temp; reflexivity).
  rewrite (bind_ok _ _ _ _ _ Hrun).
  destruct st1 as [cd1 hd1 net1 at1 it1 a1 i1].
  cbn [all_contacts_temp length] in Hn.
  unfold update, read, set_total, ratio_3D, int_truediv, mbind, prog_bind,
    mret, prog_ret. cbn.
  rewrite decide_False by lia.
  eexists. split; [reflexivity|].
  destruct Hsh as [H1 H2]. by split.
Qed.

(** Once a file without lines is met, the loop over the files raises; it
    raises the division error when the lines before it were processable. *)
Lemma for_enumerate_empty_file pre post : ∀ i st,
  ∃ e st', for_enumerate i (pre ++ [] :: post)
             (collect_file n_files self_contacts) st = (Raise e, st').
Proof.
  induction pre as [|pairs pre IH]; intros i st; cbn [app for_enumerate].
  - destruct (collect_file_empty i st) as [st' Hrun].
    rewrite (bind_raise _ _ _ _ _ Hrun). by eexists _, _.
  - unfold mbind at 1, prog_bind.
    destruct (collect_file n_files self_contacts i pairs st) as [[[]|e] st1].
    + apply IH.
    + by eexists _, _.
Qed.

Lemma for_enumerate_empty_file_zero_division pre post : ∀ i st,
  (∀ j pairs, pre !! j = Some pairs → Forall (processable n_files (i + j) st) pairs) →
  ∃ st', for_enumerate i (pre ++ [] :: post)
           (collect_file n_files self_contacts) st
         = (Raise ZeroDivisionError, st').
Proof.
  induction pre as [|pairs pre IH]; intros i st Hpre; cbn [app for_enumerate].
  - destruct (collect_file_empty i st) as [st' Hrun].
    rewrite (bind_raise _ _ _ _ _ Hrun). by eexists.
  - destruct (collect_file_processable i pairs st) as [(st1 & Hrun & Hsh)|[st1 Hrun]].
    + specialize (Hpre 0%nat pairs eq_refl). by rewrite Nat.add_0_r in Hpre.
    + rewrite (bind_ok _ _ _ _ _ Hrun). apply IH.
      intros j pairs' Hj. specialize (Hpre (S j) pairs' Hj).
      replace (S i + j)%nat with (i + S j)%nat by lia.
      eapply Forall_impl; [done|]. intros q. by apply processable_same_shape.
    + rewrite (bind_raise _ _ _ _ _ Hrun). by eexists.
Qed.
End collect_files.

(** C10: a run in which file [k] has no line never returns: it raises.  When
    the lines of the files before it are processable (their two names are
    registered), the exception is the [ZeroDivisionError] of the per-file
    "3D ratio" [inter_contacts_temp / all_contacts_temp = 0 / 0]. *)
Theorem precompute_network_empty_source
    (aligment_files : list (list (list string)))
    (contig_data : gmap string contig) (hit_data : option (gmap string hits))
    (self_contacts : bool) (k : nat) :
  aligment_files !! k = Some [] →
  (∃ e st, precompute_network aligment_files contig_data hit_data self_contacts
           = (Raise e, st))
  ∧ ((∀ j pairs, (j < k)%nat → aligment_files !! j = Some pairs →
        Forall (processable (length aligment_files) j
                  (Collector contig_data hit_data [] 0 0 0 0)) pairs) →
     ∃ st, precompute_network aligment_files contig_data hit_data self_contacts
           = (Raise ZeroDivisionError, st)).
Proof.
  intros Hk. unfold precompute_network.
  remember (length aligment_files) as n_files eqn:Hn. clear Hn.
  assert (∃ pre post, aligment_files = pre ++ [] :: post ∧ length pre = k)
    as (pre & post & -> & <-).
  { exists (take k aligment_files), (drop (S k) aligment_files). split.
    - by rewrite take_drop_middle.
    - rewrite length_take. apply lookup_lt_Some in Hk. lia. }
  split.
  - destruct (for_enumerate_empty_file n_files self_contacts pre post 0%nat
                (Collector contig_data hit_data [] 0 0 0 0)) as (e & st & Hrun).
    rewrite (bind_raise _ _ _ _ _ Hrun). by eexists _, _.
  - intros Hbefore.
    destruct (for_enumerate_empty_file_zero_division n_files self_contacts
                pre post 0%nat (Collector contig_data hit_data [] 0 0 0 0))
      as (st & Hrun).
    + intros j pairs Hj. apply Hbefore.
      * by apply lookup_lt_Some in Hj.
      * rewrite lookup_app_l; [done|]. by apply lookup_lt_Some in Hj.
    + rewrite (bind_raise _ _ _ _ _ Hrun). by eexists.
Qed.

(** ** Registry construction *)

(** The loop over the assembly numbers the contigs consecutively from the
    current [global_id]; names outside the assembly keep their entry. *)
Lemma for_contigs_ids body :
  assigns_next_id body →
  ∀ assembly b b',
    for_contigs body assembly b = Ok b' →
    NoDup (fasta_id <$> assembly) →
    global_id b' = global_id b + Z.of_nat (length assembly)
    ∧ (∀ i contig, assembly !! i = Some contig →
         c_id <$> built_contig_data b' !! fasta_id contig
         = Some (global_id b + Z.of_nat i))
    ∧ (∀ name, name ∉ fasta_id <$> assembly →
         built_contig_data b' !! name = built_contig_data b !! name).
Proof.
  intros Hbody. induction assembly as [|contig rest IH]; intros b b' Hrun Hnodup.
  - injection Hrun as <-. simpl. split; [lia|]. split; [|done].
    intros i contig Hi. by rewrite lookup_nil in Hi.
  - cbn [for_contigs] in Hrun.
    destruct (body contig b) as [b1|e] eqn:Hstep; [|done]. simpl in Hrun.
    destruct (Hbody _ _ _ Hstep) as (Hid & entry & Hentry & Hcd).
    rewrite fmap_cons in Hnodup. apply NoDup_cons in Hnodup as [Hfresh Hnodup].
    destruct (IH b1 b' Hrun Hnodup) as (Hid' & Hidx & Hother).
    split; [simpl length; lia|]. split.
    + intros [|i] c Hi.
      * injection Hi as <-. rewrite (Hother _ Hfresh), Hcd, lookup_insert_eq.
        simpl. f_equal. lia.
      * simpl in Hi. rewrite (Hidx i c Hi). f_equal. lia.
    + intros name Hname. rewrite fmap_cons in Hname.
      apply not_elem_of_cons in Hname as [Hne Hname].
      rewrite (Hother _ Hname), Hcd. by rewrite lookup_insert_ne.
Qed.

Lemma for_contigs_dom body :
  assigns_next_id body →
  ∀ assembly b b',
    for_contigs body assembly b = Ok b' →
    dom (built_contig_data b')
    = dom (built_contig_data b) ∪ list_to_set (fasta_id <$> assembly).
Proof.
  intros Hbody. induction assembly as [|contig rest IH]; intros b b' Hrun.
  - injection Hrun as <-. simpl. set_solver.
  - cbn [for_contigs] in Hrun.
    destruct (body contig b) as [b1|e] eqn:Hstep; [|done]. simpl in Hrun.
    destruct (Hbody _ _ _ Hstep) as (Hid & entry & Hentry & Hcd).
    rewrite (IH b1 b' Hrun), Hcd, dom_insert_L, fmap_cons. simpl. set_solver.
Qed.

Section create_contig_data_facts.
Context (GC : string → spec_float).
Context (get_restriction_site : string → result string).
Context (findall : string → string → list string).
Context (py_int : string → result Z).
Context (py_float : string → result spec_float).

Lemma add_contig_assigns nb_alignment pattern :
  assigns_next_id (add_contig GC findall nb_alignment pattern).
Proof.
  intros contig b b'. unfold add_contig.
  destruct (register_hits _ _ _ _) as [hd|e]; [|done]. simpl.
  intros [= <-]. simpl. split; [done|].
  eexists. split; [|reflexivity]. reflexivity.
Qed.

Lemma add_contig_with_depth_assigns nb_alignment pattern :
  assigns_next_id
    (add_contig_with_depth GC findall py_int py_float nb_alignment pattern).
Proof.
  intros contig b b'. unfold add_contig_with_depth.
  destruct (readline (depth_rest b)) as [text rest].
  destruct (getitem (split_tab text) 1) as [f1|e]; [|done]. simpl.
  destruct (py_int f1) as [len|e]; [|done]. simpl.
  destruct (getitem (split_tab text) 2) as [f2|e]; [|done]. simpl.
  destruct (py_float f2) as [cov|e]; [|done]. simpl.
  destruct (register_hits _ _ _ _) as [hd|e]; [|done]. simpl.
  intros [= <-]. simpl. split; [done|].
  eexists. split; [|reflexivity]. reflexivity.
Qed.

Lemma register_hits_ok nb_alignment name id hit_data :
  ((1 < nb_alignment)%nat → is_Some hit_data) →
  ∃ hit_data', register_hits nb_alignment name id hit_data = Ok hit_data'
    ∧ ((1 < nb_alignment)%nat → is_Some hit_data').
Proof.
  intros Hhd. unfold register_hits. case_decide as Hn.
  - destruct (Hhd Hn) as [d ->]. eexists. split; [reflexivity|]. by eexists.
  - eexists. split; [reflexivity|]. intros; lia.
Qed.

Lemma add_contig_ok nb_alignment pattern contig b :
  ((1 < nb_alignment)%nat → is_Some (built_hit_data b)) →
  ∃ b', add_contig GC findall nb_alignment pattern contig b = Ok b'
    ∧ ((1 < nb_alignment)%nat → is_Some (built_hit_data b')).
Proof.
  intros Hhd. unfold add_contig.
  destruct (register_hits_ok nb_alignment (fasta_id contig) (global_id b) _ Hhd)
    as (hd' & -> & Hhd').
  simpl. eexists. split; [reflexivity|]. done.
Qed.

(** Without a depth file the loop cannot raise. *)
Lemma for_contigs_add_contig_ok nb_alignment pattern assembly : ∀ b,
  ((1 < nb_alignment)%nat → is_Some (built_hit_data b)) →
  is_Ok (for_contigs (add_contig GC findall nb_alignment pattern) assembly b).
Proof.
  induction assembly as [|contig rest IH]; intros b Hhd; [done|].
  cbn [for_contigs].
  destruct (add_contig_ok nb_alignment pattern contig b Hhd) as (b' & -> & Hhd').
  simpl. by apply IH.
Qed.
End create_contig_data_facts.

Section create_contig_data_ids.
Context (GC : string → spec_float).
Context (get_restriction_site : string → result string).
Context (findall : string → string → list string).
Context (py_int : string → result Z).
Context (py_float : string → result spec_float).

Local Abbreviation create :=
  (create_contig_data GC get_restriction_site findall py_int py_float).

(** On an assembly with distinct names, a registry that is returned holds
    exactly the names of the assembly, gives the contig at position [i]
    (from 0) the id [i + 1], gives distinct names distinct ids, and reaches
    every id of [1..N]; without a depth file and with a usable enzyme
    pattern the registry is returned. *)
Lemma create_contig_data_ids_of_returned (assembly : list fasta)
    (nb_alignment : nat) (depth_file : option (list string))
    (enzyme : option string) :
  NoDup (fasta_id <$> assembly) →
  (depth_file = None →
   is_Ok (restriction_pattern get_restriction_site enzyme) →
   is_Ok (create assembly nb_alignment depth_file enzyme))
  ∧ ∀ contig_data hit_data,
      create assembly nb_alignment depth_file enzyme = Ok (contig_data, hit_data) →
      dom contig_data = list_to_set (fasta_id <$> assembly)
      ∧ (∀ i contig, assembly !! i = Some contig →
           c_id <$> contig_data !! fasta_id contig = Some (Z.of_nat i + 1))
      ∧ (∀ name1 name2 r1 r2,
           contig_data !! name1 = Some r1 → contig_data !! name2 = Some r2 →
           c_id r1 = c_id r2 → name1 = name2)
      ∧ (∀ k, 1 ≤ k ≤ Z.of_nat (length assembly) →
           ∃ name r, contig_data !! name = Some r ∧ c_id r = k).
Proof.
  intros Hnodup. split.
  - intros -> Hpat. unfold create_contig_data.
    destruct (restriction_pattern _ _) as [pattern|e]; [|done]. simpl.
    pose proof (for_contigs_add_contig_ok GC findall nb_alignment pattern assembly
                  (RegistryBuild 1 ∅
                     (if decide (1 < nb_alignment)%nat then Some ∅ else None) []))
      as Hok.
    destruct (for_contigs _ _ _) as [b|e]; [done|].
    apply Hok. simpl. intros Hn. rewrite decide_True by done. by eexists.
  - intros contig_data hit_data Hrun. unfold create_contig_data in Hrun.
    destruct (restriction_pattern _ _) as [pattern|e]; [|done]. simpl in Hrun.
    assert (∃ body b0 b,
               assigns_next_id body ∧ for_contigs body assembly b0 = Ok b
               ∧ global_id b0 = 1 ∧ built_contig_data b0 = ∅
               ∧ built_contig_data b = contig_data)
      as (body & b0 & b & Hbody & Hloop & Hid0 & Hcd0 & <-).
    { destruct depth_file as [depth|].
      - destruct (readline depth) as [header rest].
        destruct (for_contigs _ _ _) as [b|e] eqn:Hloop; [|done].
        injection Hrun as <- _. eexists _, _, b.
        split; [apply add_contig_with_depth_assigns|]. by split.
      - destruct (for_contigs _ _ _) as [b|e] eqn:Hloop; [|done].
        injection Hrun as <- _. eexists _, _, b.
        split; [apply add_contig_assigns|]. by split. }
    destruct (for_contigs_ids body Hbody assembly b0 b Hloop Hnodup)
      as (_ & Hidx & _).
    pose proof (for_contigs_dom body Hbody assembly b0 b Hloop) as Hdom.
    rewrite Hcd0, dom_empty_L, (left_id_L ∅ (∪)) in Hdom.
    rewrite Hid0 in Hidx.
    assert (∀ name r, built_contig_data b !! name = Some r →
              ∃ i contig, assembly !! i = Some contig ∧ fasta_id contig = name
                ∧ c_id r = Z.of_nat i + 1) as Hinv.
    { intros name r Hr.
      assert (name ∈ dom (built_contig_data b)) as Hin by (apply elem_of_dom; eauto).
      rewrite Hdom, elem_of_list_to_set in Hin.
      apply list_elem_of_fmap in Hin as (contig & -> & Hin).
      apply list_elem_of_lookup in Hin as [i Hi].
      exists i, contig. split; [done|]. split; [done|].
      specialize (Hidx i contig Hi). rewrite Hr in Hidx. simpl in Hidx.
      injection Hidx as ->. lia. }
    split; [done|]. split; [|split].
    + intros i contig Hi. rewrite (Hidx i contig Hi). f_equal. lia.
    + intros name1 name2 r1 r2 H1 H2 Heq.
      destruct (Hinv _ _ H1) as (i & c1 & Hi & <- & Hid1).
      destruct (Hinv _ _ H2) as (j & c2 & Hj & <- & Hid2).
      assert (i = j) as -> by lia. congruence.
    + intros k Hk.
      destruct (lookup_lt_is_Some_2 assembly (Z.to_nat (k - 1))) as [contig Hc];
        [lia|].
      specialize (Hidx _ _ Hc).
      destruct (built_contig_data b !! fasta_id contig) as [r|] eqn:Hr; [|done].
      exists (fasta_id contig), r. split; [done|].
      simpl in Hidx. injection Hidx as ->. lia.
Qed.
End create_contig_data_ids.

(** ** Registry construction with a depth file *)

Section create_contig_data_depth.
Context (GC : string → spec_float).
Context (get_restriction_site : string → result string).
Context (findall : string → string → list string).
Context (py_int : string → result Z).
Context (py_float : string → result spec_float).

Local Abbreviation create :=
  (create_contig_data GC get_restriction_site findall py_int py_float).
Local Abbreviation add_with_depth :=
  (add_contig_with_depth GC findall py_int py_float).

(** Reading past the last line of the depth file raises. *)
Lemma add_contig_with_depth_eof nb_alignment pattern contig b :
  depth_rest b = [] →
  add_with_depth nb_alignment pattern contig b = Raise IndexError.
Proof. intros H. unfold add_contig_with_depth. by rewrite H. Qed.

(** A step that succeeds consumed one line, and does not look at the lines
    after it. *)
Lemma add_contig_with_depth_more nb_alignment pattern contig b line rest extra :
  depth_rest b = line :: rest →
  match add_with_depth nb_alignment pattern contig b with
  | Ok b' =>
      depth_rest b' = rest
      ∧ add_with_depth nb_alignment pattern contig
          (RegistryBuild (global_id b) (built_contig_data b) (built_hit_data b)
             (line :: rest ++ extra))
        = Ok (RegistryBuild (global_id b') (built_contig_data b')
                (built_hit_data b') (rest ++ extra))
  | Raise e =>
      add_with_depth nb_alignment pattern contig
        (RegistryBuild (global_id b) (built_contig_data b) (built_hit_data b)
           (line :: rest ++ extra))
      = Raise e
  end.
Proof.
  intros H. unfold add_contig_with_depth. rewrite H. cbn.
  destruct (getitem (split_tab line) 1) as [f1|e]; [|done]. simpl.
  destruct (py_int f1) as [len|e]; [|done]. simpl.
  destruct (getitem (split_tab line) 2) as [f2|e]; [|done]. simpl.
  destruct (py_float f2) as [cov|e]; [|done]. simpl.
  destruct (register_hits _ _ _ _) as [hd|e]; [|done]. simpl. done.
Qed.

Lemma for_contigs_depth_short nb_alignment pattern assembly : ∀ b,
  (length (depth_rest b) < length assembly)%nat →
  ∃ e, for_contigs (add_with_depth nb_alignment pattern) assembly b = Raise e.
Proof.
  induction assembly as [|contig rest IH]; intros b Hlen; [simpl in Hlen; lia|].
  cbn [for_contigs].
  destruct (depth_rest b) as [|line lines] eqn:Hdepth.
  - rewrite add_contig_with_depth_eof by done. by eexists.
  - pose proof (add_contig_with_depth_more nb_alignment pattern contig b
                  line lines [] Hdepth) as Hstep.
    destruct (add_with_depth nb_alignment pattern contig b) as [b'|e].
    + destruct Hstep as [Hrest _]. simpl. apply IH.
      rewrite Hrest. simpl in Hlen. lia.
    + by eexists.
Qed.

Lemma for_contigs_depth_surplus nb_alignment pattern extra assembly :
  ∀ b rows,
    depth_rest b = rows → (length assembly ≤ length rows)%nat →
    match for_contigs (add_with_depth nb_alignment pattern) assembly b with
    | Ok b' =>
        for_contigs (add_with_depth nb_alignment pattern) assembly
          (RegistryBuild (global_id b) (built_contig_data b) (built_hit_data b)
             (rows ++ extra))
        = Ok (RegistryBuild (global_id b') (built_contig_data b')
                (built_hit_data b') (depth_rest b' ++ extra))
    | Raise e =>
        for_contigs (add_with_depth nb_alignment pattern) assembly
          (RegistryBuild (global_id b) (built_contig_data b) (built_hit_data b)
             (rows ++ extra))
        = Raise e
    end.
Proof.
  induction assembly as [|contig rest IH]; intros b rows Hrows Hlen.
  - simpl. by rewrite Hrows.
  - destruct rows as [|line lines]; [simpl in Hlen; lia|].
    cbn [for_contigs app].
    pose proof (add_contig_with_depth_more nb_alignment pattern contig b
                  line lines extra Hrows) as Hstep.
    destruct (add_with_depth nb_alignment pattern contig b) as [b'|e].
    + destruct Hstep as [Hrest ->]. simpl.
      specialize (IH b' lines Hrest ltac:(simpl in Hlen; lia)).
      destruct (for_contigs _ rest b') as [b''|e]; exact IH.
    + by rewrite Hstep.
Qed.

(** C9, as the code has it: a depth file with fewer data rows than the
    assembly has contigs makes registry construction raise; a depth file
    with more data rows is not told apart from the file cut after the
    first [N] data rows: the surplus rows are ignored. *)
Theorem create_contig_data_depth_rows (assembly : list fasta)
    (nb_alignment : nat) (header : string) (rows extra : list string)
    (enzyme : option string) :
  ((length rows < length assembly)%nat →
   ∃ e, create assembly nb_alignment (Some (header :: rows)) enzyme = Raise e)
  ∧ ((length assembly ≤ length rows)%nat →
     create assembly nb_alignment (Some (header :: rows ++ extra)) enzyme
     = create assembly nb_alignment (Some (header :: rows)) enzyme).
Proof.
  unfold create_contig_data.
  destruct (restriction_pattern _ _) as [pattern|e]; simpl.
  2: { split; [by eexists|done]. }
  split.
  - intros Hlen.
    destruct (for_contigs_depth_short nb_alignment pattern assembly
                (RegistryBuild 1 ∅
                   (if decide (1 < nb_alignment)%nat then Some ∅ else None) rows))
      as [e ->]; [done|].
    by eexists.
  - intros Hlen.
    pose proof (for_contigs_depth_surplus nb_alignment pattern extra assembly
                  (RegistryBuild 1 ∅
                     (if decide (1 < nb_alignment)%nat then Some ∅ else None) rows)
                  rows eq_refl Hlen) as Hsur.
    cbn [global_id built_contig_data built_hit_data] in Hsur.
    destruct (for_contigs _ assembly (RegistryBuild 1 ∅ _ rows)) as [b|e];
      rewrite Hsur; done.
Qed.
End create_contig_data_depth.

(** ** normalize_pair: the two guarded strategies *)




Section normalize_pair_guard.
Context (contig_data : gmap string contig) (prev_pair : row) (n_occ : Z).
Context (a b : contig).
Context (Ha : endpoint contig_data prev_pair 0 = Ok a).
Context (Hb : endpoint contig_data prev_pair 1 = Ok b).



End normalize_pair_guard.

(** ** Ordered dicts *)

Section dict_facts.
Context {K V : Type} `{EqDecision K}.
Implicit Types (d : list (K * V)) (k : K) (v : V).

Lemma get_set d k v k' :
  Dict.get (Dict.set d k v) k' = if decide (k = k') then Some v else Dict.get d k'.
Proof.
  induction d as [|[k0 v0] d IH]; simpl.
  - by repeat case_decide.
  - repeat (case_decide; simpl; subst); try done; by rewrite IH, ?decide_False.
Qed.

Lemma get_del d k k' :
  Dict.get (Dict.del d k) k' = if decide (k = k') then None else Dict.get d k'.
Proof.
  induction d as [|[k0 v0] d IH]; simpl.
  - by case_decide.
  - repeat (case_decide; simpl; subst); try done; rewrite IH;
      by rewrite ?decide_True, ?decide_False.
Qed.

Lemma get_is_Some_keys d k : is_Some (Dict.get d k) ↔ k ∈ Dict.keys d.
Proof.
  unfold Dict.keys. induction d as [|[k0 v0] d IH]; simpl.
  - rewrite is_Some_alt. set_solver.
  - case_decide; subst.
    + split; [intros _; apply list_elem_of_here|by eexists].
    + rewrite IH. set_solver.
Qed.

Lemma get_elem_of d k v : NoDup (Dict.keys d) → (k, v) ∈ d → Dict.get d k = Some v.
Proof.
  unfold Dict.keys. induction d as [|[k0 v0] d IH]; simpl; intros Hnd Hin.
  - by apply elem_of_nil in Hin.
  - apply NoDup_cons in Hnd as [Hfresh Hnd].
    apply elem_of_cons in Hin as [[= <- <-]|Hin].
    + by rewrite decide_True.
    + rewrite decide_False; [by apply IH|].
      intros ->. apply Hfresh. apply list_elem_of_fmap. by exists (k, v).
Qed.
End dict_facts.

(** ** Graph operations, read through [edge_weight] and [is_node] *)

Section graph_facts.
Context {W : Type}.
Implicit Types (G : graph W) (u v a b n m : node) (w : W).

Lemma is_node_add_node G n m : is_node (add_node G n) m ↔ m = n ∨ is_node G m.
Proof.
  unfold is_node, add_node. destruct (Dict.get G n) as [nbrs|] eqn:Hn.
  - split; [by right|]. intros [->|H]; [by rewrite Hn|done].
  - rewrite get_set. case_decide; subst.
    + split; [by left|by eexists].
    + split; [by right|]. by intros [->|Hm].
Qed.

Lemma edge_weight_add_node G n a b :
  edge_weight (add_node G n) a b = edge_weight G a b.
Proof.
  unfold edge_weight, add_node. destruct (Dict.get G n) as [nbrs|] eqn:Hn; [done|].
  rewrite get_set. case_decide; subst; [|done]. by rewrite Hn.
Qed.

Lemma is_node_put_half G u v w m : is_node (put_half G u v w) m ↔ is_node G m.
Proof.
  unfold is_node, put_half. destruct (Dict.get G u) as [nbrs|] eqn:Hu; [|done].
  rewrite get_set. case_decide; subst; [|done]. rewrite Hu. split; by eexists.
Qed.

Lemma edge_weight_put_half G u v w a b :
  is_node G u →
  edge_weight (put_half G u v w) a b
  = if decide (a = u ∧ b = v) then Some w else edge_weight G a b.
Proof.
  intros [nbrs Hu]. unfold edge_weight, put_half. rewrite Hu, get_set.
  destruct (decide (u = a)) as [<-|Hne]; simpl.
  - rewrite get_set, Hu. simpl. repeat case_decide; naive_solver.
  - rewrite decide_False by naive_solver. done.
Qed.

Lemma is_node_put_edge G u v w m : is_node (put_edge G u v w) m ↔ is_node G m.
Proof. unfold put_edge. by rewrite !is_node_put_half. Qed.

Lemma edge_weight_put_edge G u v w a b :
  is_node G u → is_node G v →
  edge_weight (put_edge G u v w) a b
  = if decide ((a = u ∧ b = v) ∨ (a = v ∧ b = u)) then Some w
    else edge_weight G a b.
Proof.
  intros Hu Hv. unfold put_edge.
  rewrite edge_weight_put_half by (by apply is_node_put_half).
  rewrite edge_weight_put_half by done.
  repeat case_decide; naive_solver.
Qed.

Lemma is_node_add_edge G u v w m :
  is_node (add_edge G u v w) m ↔ m = u ∨ m = v ∨ is_node G m.
Proof.
  unfold add_edge. rewrite is_node_put_edge, !is_node_add_node. naive_solver.
Qed.

Lemma edge_weight_add_edge G u v w a b :
  edge_weight (add_edge G u v w) a b
  = if decide ((a = u ∧ b = v) ∨ (a = v ∧ b = u)) then Some w
    else edge_weight G a b.
Proof.
  unfold add_edge. rewrite edge_weight_put_edge.
  - by rewrite !edge_weight_add_node.
  - apply is_node_add_node. right. apply is_node_add_node. by left.
  - apply is_node_add_node. by left.
Qed.

Lemma edge_weight_is_node G a b : is_Some (edge_weight G a b) → is_node G a.
Proof.
  unfold edge_weight, is_node. destruct (Dict.get G a); [by eexists|].
  by intros [? [=]].
Qed.

Lemma is_node_drop_half G u n m : is_node (drop_half G u n) m ↔ is_node G m.
Proof.
  unfold is_node, drop_half. destruct (Dict.get G u) as [nbrs|] eqn:Hu; [|done].
  rewrite get_set. case_decide; subst; [|done]. rewrite Hu. split; by eexists.
Qed.

Lemma edge_weight_drop_half G u n a b :
  edge_weight (drop_half G u n) a b
  = if decide (a = u ∧ b = n) then None else edge_weight G a b.
Proof.
  unfold edge_weight, drop_half. destruct (Dict.get G u) as [nbrs|] eqn:Hu.
  - rewrite get_set. destruct (decide (u = a)) as [<-|Hne]; simpl.
    + rewrite get_del, Hu. simpl. repeat case_decide; naive_solver.
    + rewrite decide_False by naive_solver. done.
  - case_decide as Hd; [|done]. destruct Hd as [-> ->]. by rewrite Hu.
Qed.

Lemma foldl_drop_half n us : ∀ G,
  (∀ m, is_node (foldl (λ G' u, drop_half G' u n) G us) m ↔ is_node G m)
  ∧ ∀ a b,
      edge_weight (foldl (λ G' u, drop_half G' u n) G us) a b
      = if decide (a ∈ us ∧ b = n) then None else edge_weight G a b.
Proof.
  induction us as [|u us IH]; intros G; cbn [foldl].
  - split; [done|]. intros a b. rewrite decide_False; [done|].
    intros [Hin _]. by apply elem_of_nil in Hin.
  - destruct (IH (drop_half G u n)) as [Hnode Hedge]. split.
    + intros m. by rewrite Hnode, is_node_drop_half.
    + intros a b. rewrite Hedge, edge_weight_drop_half.
      repeat case_decide; try done; exfalso; set_solver.
Qed.

(** Removing a node of a graph that holds its edges in both directions
    removes the node and every edge at it, and nothing else. *)
Lemma remove_node_spec G n :
  is_node G n →
  (∀ u v, edge_weight G u v = edge_weight G v u) →
  ∃ G', remove_node G n = Ok G'
    ∧ (∀ m, is_node G' m ↔ m ≠ n ∧ is_node G m)
    ∧ (∀ a b, edge_weight G' a b
              = if decide (a = n ∨ b = n) then None else edge_weight G a b).
Proof.
  intros [nbrs Hn] Hsym. unfold remove_node. rewrite Hn.
  eexists. split; [reflexivity|].
  destruct (foldl_drop_half n (Dict.keys nbrs) G) as [Hnode Hedge]. split.
  - intros m. unfold is_node at 1. rewrite get_del.
    case_decide; subst.
    + split; [by intros [? [=]]|]. by intros [? _].
    + fold (is_node (foldl (λ G' u, drop_half G' u n) G (Dict.keys nbrs)) m).
      rewrite Hnode. naive_solver.
  - intros a b. unfold edge_weight at 1. rewrite get_del.
    destruct (decide (n = a)) as [<-|Hne]; simpl.
    + by rewrite decide_True by (by left).
    + fold (edge_weight (foldl (λ G' u, drop_half G' u n) G (Dict.keys nbrs)) a b).
      rewrite Hedge.
      destruct (decide (b = n)) as [->|Hb].
      * rewrite (decide_True (P := a = n ∨ n = n)) by (by right).
        case_decide as Hd; [done|].
        destruct (edge_weight G a n) as [w|] eqn:Hw; [|done].
        exfalso. apply Hd. split; [|done].
        apply get_is_Some_keys. rewrite Hsym in Hw.
        unfold edge_weight in Hw. rewrite Hn in Hw. simpl in Hw. by eexists.
      * rewrite decide_False by naive_solver.
        rewrite decide_False by naive_solver. done.
Qed.

(** Every edge that [G.edges] yields is an entry of the adjacency. *)
Lemma edges_from_entry seen (adj : graph W) n1 n2 w :
  (n1, n2, w) ∈ edges_from seen adj →
  ∃ nbrs, (n1, nbrs) ∈ adj ∧ (n2, w) ∈ nbrs.
Proof.
  revert seen. induction adj as [|[n nbrs] rest IH]; intros seen Hin; simpl in Hin.
  - by apply elem_of_nil in Hin.
  - apply elem_of_app in Hin as [Hin|Hin].
    + apply list_elem_of_fmap in Hin as ([nbr w'] & [= -> -> ->] & Hin).
      apply list_elem_of_filter in Hin as [_ Hin].
      exists nbrs. split; [apply list_elem_of_here|done].
    + destruct (IH _ Hin) as (nbrs' & H1 & H2).
      exists nbrs'. split; [by apply list_elem_of_further|done].
Qed.

Lemma edges_endpoints G n1 n2 w :
  well_formed G → (n1, n2, w) ∈ edges G → is_node G n1 ∧ is_node G n2.
Proof.
  intros (Hnd & _ & Hsym) Hin.
  destruct (edges_from_entry _ _ _ _ _ Hin) as (nbrs & Hentry & Hnbr).
  pose proof (get_elem_of _ _ _ Hnd Hentry) as Hget.
  split; [by eexists|].
  apply (edge_weight_is_node G n2 n1). rewrite Hsym.
  unfold edge_weight. rewrite Hget. simpl.
  apply get_is_Some_keys. apply list_elem_of_fmap. by exists (n2, w).
Qed.
End graph_facts.

(** ** Graphs built by [add_edge] are well formed *)

Lemma keys_set {K V} `{EqDecision K} (d : list (K * V)) k v :
  Dict.keys (Dict.set d k v)
  = if decide (k ∈ Dict.keys d) then Dict.keys d else Dict.keys d ++ [k].
Proof.
  unfold Dict.keys. induction d as [|[k0 v0] d IH].
  - rewrite decide_False; [done|]. apply not_elem_of_nil.
  - cbn [Dict.set]. destruct (decide (k0 = k)) as [->|Hne].
    + rewrite decide_True; [done|]. apply list_elem_of_here.
    + change ((k0, v0) :: Dict.set d k v).*1 with (k0 :: (Dict.set d k v).*1).
      change (((k0, v0) :: d).*1) with (k0 :: d.*1).
      rewrite IH. destruct (decide (k ∈ d.*1)) as [Hin|Hout].
      * rewrite decide_True; [done|]. by apply list_elem_of_further.
      * rewrite decide_False; [done|]. rewrite elem_of_cons. naive_solver.
Qed.

Lemma NoDup_keys_set {K V} `{EqDecision K} (d : list (K * V)) k v :
  NoDup (Dict.keys d) → NoDup (Dict.keys (Dict.set d k v)).
Proof.
  intros Hnd. rewrite keys_set. case_decide; [done|].
  apply NoDup_app. split; [done|]. split; [|apply NoDup_singleton].
  intros x Hx Hin. apply list_elem_of_singleton in Hin. by subst.
Qed.

Lemma get_Some_elem_of {K V} `{EqDecision K} (d : list (K * V)) k v :
  Dict.get d k = Some v → (k, v) ∈ d.
Proof.
  induction d as [|[k0 v0] d IH]; simpl; [done|].
  case_decide; subst.
  - intros [= ->]. apply list_elem_of_here.
  - intros Hget. apply list_elem_of_further. by apply IH.
Qed.

Section well_formed_facts.
Context {W : Type}.
Implicit Types (G : graph W).

Lemma well_formed_empty : well_formed ([] : graph W).
Proof. split; [apply NoDup_nil_2|]. split; [|done]. by intros n nbrs. Qed.

Lemma NoDup_keys_add_node G n :
  NoDup (Dict.keys G) → NoDup (Dict.keys (add_node G n)).
Proof.
  intros Hnd. unfold add_node. destruct (Dict.get G n); [done|].
  by apply NoDup_keys_set.
Qed.

Lemma NoDup_keys_put_half G u v w :
  NoDup (Dict.keys G) → NoDup (Dict.keys (put_half G u v w)).
Proof.
  intros Hnd. unfold put_half. destruct (Dict.get G u); [|done].
  by apply NoDup_keys_set.
Qed.

Lemma rows_NoDup_add_node G n : rows_NoDup G → rows_NoDup (add_node G n).
Proof.
  intros Hrows m nbrs. unfold add_node.
  destruct (Dict.get G n) eqn:Hn; [apply Hrows|].
  rewrite get_set. case_decide; [|apply Hrows].
  intros [= <-]. apply NoDup_nil_2.
Qed.

Lemma rows_NoDup_put_half G u v w : rows_NoDup G → rows_NoDup (put_half G u v w).
Proof.
  intros Hrows m nbrs. unfold put_half.
  destruct (Dict.get G u) as [nbrs_u|] eqn:Hu; [|apply Hrows].
  rewrite get_set. case_decide; [|apply Hrows].
  intros [= <-]. apply NoDup_keys_set. by eapply Hrows.
Qed.

Lemma well_formed_add_edge G u v w :
  well_formed G → well_formed (add_edge G u v w).
Proof.
  intros (Hnd & Hrows & Hsym). split; [|split].
  - unfold add_edge, put_edge.
    by do 2 apply NoDup_keys_put_half; do 2 apply NoDup_keys_add_node.
  - unfold add_edge, put_edge.
    by do 2 apply rows_NoDup_put_half; do 2 apply rows_NoDup_add_node.
  - intros a b. rewrite !edge_weight_add_edge, (Hsym a b).
    repeat case_decide; naive_solver.
Qed.

(** The entries of the adjacency are the weighted edges, read in both
    directions. *)
Lemma directed_spec G a b w :
  well_formed G → (a, b, w) ∈ directed G ↔ edge_weight G a b = Some w.
Proof.
  intros (Hnd & Hrows & _). unfold directed, edge_weight.
  rewrite list_elem_of_join. split.
  - intros (l & Hin & Hl).
    apply list_elem_of_fmap in Hl as ([n nbrs] & -> & Hrow).
    apply list_elem_of_fmap in Hin as ([v w'] & [= -> -> ->] & Hnbr).
    simpl in *. rewrite (get_elem_of _ _ _ Hnd Hrow). simpl.
    apply get_elem_of; [|done]. eapply Hrows. by apply get_elem_of.
  - intros Hw. destruct (Dict.get G a) as [nbrs|] eqn:Ha; [|done]. simpl in Hw.
    exists ((λ nbr, (a, nbr.1, nbr.2)) <$> nbrs). split.
    + apply list_elem_of_fmap. exists (b, w). split; [done|].
      by apply get_Some_elem_of.
    + apply list_elem_of_fmap. exists (a, nbrs). split; [done|].
      by apply get_Some_elem_of.
Qed.

Lemma foldl_add_node_spec (ns : list node) : ∀ G,
  (∀ m, is_node (foldl add_node G ns) m ↔ m ∈ ns ∨ is_node G m)
  ∧ (∀ a b, edge_weight (foldl add_node G ns) a b = edge_weight G a b)
  ∧ (well_formed G → well_formed (foldl add_node G ns)).
Proof.
  induction ns as [|n ns IH]; intros G; cbn [foldl].
  - split; [|done]. intros m. rewrite elem_of_nil. naive_solver.
  - destruct (IH (add_node G n)) as (Hnode & Hedge & Hwf). split; [|split].
    + intros m. rewrite Hnode, is_node_add_node, elem_of_cons. naive_solver.
    + intros a b. by rewrite Hedge, edge_weight_add_node.
    + intros (Hnd & Hrows & Hsym). apply Hwf. split; [|split].
      * by apply NoDup_keys_add_node.
      * by apply rows_NoDup_add_node.
      * intros u v. by rewrite !edge_weight_add_node.
Qed.

(** Adding edges whose weights agree with a weight table [wt] to a graph
    that agrees with [wt] wherever it has an edge. *)
Lemma foldl_add_edge_spec (wt : node → node → option W)
    (es : list (node * node * W)) : ∀ G,
  (∀ u v w, (u, v, w) ∈ es → wt u v = Some w ∧ wt v u = Some w) →
  (∀ a b w, edge_weight G a b = Some w → wt a b = Some w) →
  let G' := foldl (λ G' e, add_edge G' e.1.1 e.1.2 e.2) G es in
  (∀ m, is_node G' m ↔ is_node G m ∨ ∃ u v w, (u, v, w) ∈ es ∧ (m = u ∨ m = v))
  ∧ (∀ a b w, edge_weight G' a b = Some w → wt a b = Some w)
  ∧ (∀ a b, is_Some (edge_weight G a b) → is_Some (edge_weight G' a b))
  ∧ (∀ u v w, (u, v, w) ∈ es → edge_weight G' u v = Some w)
  ∧ (well_formed G → well_formed G').
Proof.
  induction es as [|[[u v] w] es IH]; intros G Hes HG; cbn [foldl fst snd].
  - split; [|split; [done|split; [done|split; [|done]]]].
    + intros m. split; [by left|]. intros [?|(? & ? & ? & Hin & _)]; [done|].
      by apply elem_of_nil in Hin.
    + intros ? ? ? Hin. by apply elem_of_nil in Hin.
  - destruct (Hes u v w) as [Huv Hvu]; [apply list_elem_of_here|].
    destruct (IH (add_edge G u v w)) as (Hnode & Hsound & Hmono & Hdone & Hwf).
    { intros ? ? ? Hin. apply Hes. by apply list_elem_of_further. }
    { intros a b w'. simpl. rewrite edge_weight_add_edge.
      case_decide as Hd; [|apply HG].
      intros [= <-]. by destruct Hd as [[-> ->]|[-> ->]]. }
    assert (∀ a b w', edge_weight
                        (foldl (λ G' e, add_edge G' e.1.1 e.1.2 e.2)
                           (add_edge G u v w) es) a b = Some w' →
                      wt a b = Some w') as Hsound' by exact Hsound.
    cbv zeta. split; [|split; [exact Hsound'|split; [|split]]].
    + intros m. rewrite Hnode, is_node_add_edge. split.
      * intros [[->|[->|Hm]]|(u' & v' & w' & Hin & Hm)].
        -- right. exists u, v, w. split; [apply list_elem_of_here|by left].
        -- right. exists u, v, w. split; [apply list_elem_of_here|by right].
        -- by left.
        -- right. exists u', v', w'. split; [by apply list_elem_of_further|done].
      * intros [Hm|(u' & v' & w' & Hin & Hm)]; [left; by right; right|].
        apply elem_of_cons in Hin as [[= -> -> ->]|Hin].
        -- left. destruct Hm as [->| ->]; [by left|by right; left].
        -- right. by exists u', v', w'.
    + intros a b Hab. apply Hmono. simpl. rewrite edge_weight_add_edge.
      case_decide; [by eexists|done].
    + intros u' v' w' Hin. apply elem_of_cons in Hin as [[= -> -> ->]|Hin].
      * destruct (Hmono u v) as [w' Hw'].
        { simpl. rewrite edge_weight_add_edge, decide_True by (by left).
          by eexists. }
        rewrite Hw'. f_equal. apply Hsound' in Hw'. congruence.
      * by apply Hdone.
    + intros HwfG. apply Hwf. by apply well_formed_add_edge.
Qed.

(** The copy of a well-formed graph has its nodes, its edges and their
    weights, and is well formed. *)
Lemma copy_spec G :
  well_formed G →
  (∀ m, is_node (copy G) m ↔ is_node G m)
  ∧ (∀ a b, edge_weight (copy G) a b = edge_weight G a b)
  ∧ well_formed (copy G).
Proof.
  intros Hwf. pose proof Hwf as (Hnd & Hrows & Hsym). unfold copy.
  destruct (foldl_add_node_spec (Dict.keys G) []) as (Hnode0 & Hedge0 & Hwf0).
  destruct (foldl_add_edge_spec (edge_weight G) (directed G)
              (foldl add_node [] (Dict.keys G)))
    as (Hnode & Hsound & _ & Hdone & Hwf').
  { intros u v w Hin. apply directed_spec in Hin; [|done].
    split; [done|]. by rewrite <- Hsym. }
  { intros a b w. by rewrite Hedge0. }
  split; [|split].
  - intros m. rewrite Hnode, Hnode0. split.
    + intros [[Hm|Hm]|(u & v & w & Hin & Hm)].
      * by apply get_is_Some_keys.
      * by destruct Hm as [? [=]].
      * apply directed_spec in Hin; [|done].
        destruct Hm as [->| ->].
        -- apply (edge_weight_is_node G u v). by eexists.
        -- apply (edge_weight_is_node G v u). rewrite <- Hsym. by eexists.
    + intros Hm. left. left. by apply get_is_Some_keys.
  - intros a b. destruct (edge_weight G a b) as [w|] eqn:Hw.
    + apply Hdone. by apply directed_spec.
    + match goal with |- ?lhs = None => destruct lhs as [w|] eqn:Hw' end; [|done].
      apply Hsound in Hw'. congruence.
  - apply Hwf', Hwf0, well_formed_empty.
Qed.
End well_formed_facts.

(** ** merge_nodes *)

Section merge_nodes_facts.
Context {W : Type} (add : W → W → W).
Context (nodes : list node) (new_node : node).
Implicit Types (G : graph W) (a b x m : node) (w : W).

Local Abbreviation symmetric G := (∀ u v, edge_weight G u v = edge_weight G v u).

Lemma redirect_spec G other w :
  is_node G new_node → symmetric G →
  let G' := redirect add new_node G other w in
  (∀ m, is_node G' m ↔ m = other ∨ is_node G m)
  ∧ symmetric G'
  ∧ ∀ a b,
      edge_weight G' a b
      = if decide ((a = other ∧ b = new_node) ∨ (a = new_node ∧ b = other))
        then Some (match edge_weight G other new_node with
                   | Some old => add old w
                   | None => w
                   end)
        else edge_weight G a b.
Proof.
  intros Hnew Hsym G'. subst G'. unfold redirect.
  destruct (edge_weight G other new_node) as [old|] eqn:Hold.
  - assert (is_node G other) as Hother
        by (apply (edge_weight_is_node G other new_node); by rewrite Hold).
    assert (∀ a b,
               edge_weight (put_edge G other new_node (add old w)) a b
               = if decide ((a = other ∧ b = new_node) ∨ (a = new_node ∧ b = other))
                 then Some (add old w) else edge_weight G a b) as Hedge
        by (intros; by apply edge_weight_put_edge).
    split; [|split; [|done]].
    + intros m. rewrite is_node_put_edge. naive_solver.
    + intros u v. rewrite !Hedge, (Hsym u v).
      repeat case_decide; naive_solver.
  - assert (∀ a b,
               edge_weight (add_edge G other new_node w) a b
               = if decide ((a = other ∧ b = new_node) ∨ (a = new_node ∧ b = other))
                 then Some w else edge_weight G a b) as Hedge
        by (intros; by apply edge_weight_add_edge).
    split; [|split; [|done]].
    + intros m. rewrite is_node_add_edge. naive_solver.
    + intros u v. rewrite !Hedge, (Hsym u v).
      repeat case_decide; naive_solver.
Qed.

Lemma gained_nil x start : gained add nodes x [] start = start.
Proof. by destruct start. Qed.

Lemma gained_skip x e es start :
  ¬ ((e.1.1 ∈ nodes ∧ e.1.2 = x) ∨ (e.1.2 ∈ nodes ∧ e.1.1 = x)) →
  gained add nodes x (e :: es) start = gained add nodes x es start.
Proof. intros H. unfold gained, joining. by rewrite filter_cons_False. Qed.

Lemma gained_take x e es start :
  (e.1.1 ∈ nodes ∧ e.1.2 = x) ∨ (e.1.2 ∈ nodes ∧ e.1.1 = x) →
  gained add nodes x (e :: es) start
  = gained add nodes x es (Some (match start with
                       | Some old => add old e.2
                       | None => e.2
                       end)).
Proof.
  intros H. unfold gained, joining. rewrite filter_cons_True by done.
  by destruct start.
Qed.

(** The loop over the edges of [G1]. *)
Lemma merge_loop_spec es : ∀ G,
  is_node G new_node → symmetric G →
  (∀ n1 n2 w, (n1, n2, w) ∈ es → n1 ≠ new_node ∧ n2 ≠ new_node) →
  let G' := foldl (merge_step add nodes new_node) G es in
  is_node G' new_node
  ∧ symmetric G'
  ∧ (∀ m, is_node G m → is_node G' m)
  ∧ (∀ m, is_node G' m →
       is_node G m ∨ ∃ n1 n2 w, (n1, n2, w) ∈ es ∧ (m = n1 ∨ m = n2))
  ∧ (∀ x, x ∉ nodes →
       edge_weight G' x new_node = gained add nodes x es (edge_weight G x new_node))
  ∧ (∀ a b, a ≠ new_node → b ≠ new_node → edge_weight G' a b = edge_weight G a b)
  ∧ edge_weight G' new_node new_node = edge_weight G new_node new_node.
Proof.
  induction es as [|[[n1 n2] w] es IH]; intros G Hnew Hsym Hends; cbn [foldl].
  - repeat split; try done; [by left|]. intros x _. by rewrite gained_nil.
  - destruct (Hends n1 n2 w) as [Hn1 Hn2]; [apply list_elem_of_here|].
    assert (∀ n1' n2' w', (n1', n2', w') ∈ es → n1' ≠ new_node ∧ n2' ≠ new_node)
      as Hends' by (intros; eapply Hends; by apply list_elem_of_further).
    cbv zeta.
    change (merge_step add nodes new_node G (n1, n2, w))
      with (if decide (n1 ∈ nodes) then redirect add new_node G n2 w
            else if decide (n2 ∈ nodes) then redirect add new_node G n1 w
                 else G).
    assert (∀ other G0,
               (other = n1 ∨ other = n2) →
               (∀ m, is_node G0 m ↔ m = other ∨ is_node G m) →
               ∀ m, is_node (foldl (merge_step add nodes new_node) G0 es) m →
                    (is_node G0 m ∨ ∃ n1' n2' w', (n1', n2', w') ∈ es
                                                  ∧ (m = n1' ∨ m = n2')) →
                    is_node G m ∨ ∃ n1' n2' w', (n1', n2', w') ∈ (n1, n2, w) :: es
                                                ∧ (m = n1' ∨ m = n2'))
      as Hback.
    { intros other G0 Hother Hnode m _ [Hm|(n1' & n2' & w' & Hin & Hm)].
      - apply Hnode in Hm as [->|Hm]; [|by left].
        right. exists n1, n2, w. split; [apply list_elem_of_here|done].
      - right. exists n1', n2', w'. split; [by apply list_elem_of_further|done]. }
    destruct (decide (n1 ∈ nodes)) as [Hin1|Hout1];
      [|destruct (decide (n2 ∈ nodes)) as [Hin2|Hout2]].
    + destruct (redirect_spec G n2 w Hnew Hsym) as (Hnode & Hsym' & Hedge).
      destruct (IH (redirect add new_node G n2 w))
        as (H1 & H2 & H3 & H3' & H4 & H5 & H6);
        [apply Hnode; by right|done|done|].
      split; [exact H1|]. split; [exact H2|]. split; [|split; [|split; [|split]]].
      * intros m Hm. apply H3, Hnode. by right.
      * intros m Hm. eapply (Hback n2); [by right|exact Hnode|exact Hm|by apply H3'].
      * intros x Hx. rewrite (H4 x Hx), Hedge.
        destruct (decide (x = n2)) as [->|Hne].
        -- rewrite decide_True by (by left).
           by rewrite gained_take by (left; done).
        -- rewrite decide_False by naive_solver.
           rewrite gained_skip; [done|]. simpl. naive_solver.
      * intros a b Ha Hb. rewrite (H5 a b Ha Hb), Hedge.
        by rewrite decide_False by naive_solver.
      * rewrite H6, Hedge. by rewrite decide_False by naive_solver.
    + destruct (redirect_spec G n1 w Hnew Hsym) as (Hnode & Hsym' & Hedge).
      destruct (IH (redirect add new_node G n1 w))
        as (H1 & H2 & H3 & H3' & H4 & H5 & H6);
        [apply Hnode; by right|done|done|].
      split; [exact H1|]. split; [exact H2|]. split; [|split; [|split; [|split]]].
      * intros m Hm. apply H3, Hnode. by right.
      * intros m Hm. eapply (Hback n1); [by left|exact Hnode|exact Hm|by apply H3'].
      * intros x Hx. rewrite (H4 x Hx), Hedge.
        destruct (decide (x = n1)) as [->|Hne].
        -- rewrite decide_True by (by left).
           by rewrite gained_take by (right; done).
        -- rewrite decide_False by naive_solver.
           rewrite gained_skip; [done|]. simpl. naive_solver.
      * intros a b Ha Hb. rewrite (H5 a b Ha Hb), Hedge.
        by rewrite decide_False by naive_solver.
      * rewrite H6, Hedge. by rewrite decide_False by naive_solver.
    + destruct (IH G) as (H1 & H2 & H3 & H3' & H4 & H5 & H6); [done..|].
      split; [exact H1|]. split; [exact H2|]. split; [exact H3|].
      split; [|split; [|split; [exact H5|exact H6]]].
      * intros m Hm. destruct (H3' m Hm) as [?|(n1' & n2' & w' & Hin & Hm')];
          [by left|].
        right. exists n1', n2', w'. split; [by apply list_elem_of_further|done].
      * intros x Hx. rewrite (H4 x Hx). rewrite gained_skip; [done|].
        simpl. naive_solver.
Qed.

(** The loop that removes the merged nodes. *)
Lemma remove_nodes_spec ms : ∀ G,
  NoDup ms → (∀ m, m ∈ ms → is_node G m) → symmetric G →
  ∃ G', remove_nodes G ms = Ok G'
    ∧ (∀ m, is_node G' m ↔ (m ∉ ms) ∧ is_node G m)
    ∧ (∀ a b, edge_weight G' a b
              = if decide (a ∈ ms ∨ b ∈ ms) then None else edge_weight G a b).
Proof.
  induction ms as [|n ms IH]; intros G Hnd Hin Hsym; cbn [remove_nodes].
  - exists G. split; [done|]. split.
    + intros m. set_solver.
    + intros a b. rewrite decide_False; [done|]. set_solver.
  - apply NoDup_cons in Hnd as [Hfresh Hnd].
    destruct (remove_node_spec G n) as (G1 & -> & Hnode1 & Hedge1);
      [apply Hin; set_solver|done|].
    destruct (IH G1) as (G' & Hrun & Hnode & Hedge); [done| | |].
    { intros m Hm. apply Hnode1. split; [set_solver|]. apply Hin. set_solver. }
    { intros u v. rewrite !Hedge1, (Hsym u v).
      repeat case_decide; naive_solver. }
    exists G'. split; [done|]. split.
    + intros m. rewrite Hnode, Hnode1. set_solver.
    + intros a b. rewrite Hedge, Hedge1.
      repeat case_decide; try done; exfalso; set_solver.
Qed.
End merge_nodes_facts.

(** C5: contracting the nodes [nodes] of a graph into the fresh node
    [new_node] succeeds; the merged nodes are gone and every other node
    stays; for a node [x] outside the community the edge between [new_node]
    and [x] carries the weights of all edges of [G1] between [x] and a
    merged node, added up in the order [G1.edges] yields them (and is absent
    when there is none); no self-loop is left on [new_node], so an edge
    between two merged nodes is dropped; every edge between two other nodes
    is kept with its weight. *)
Theorem merge_nodes_contracts {W : Type} (add : W → W → W) (G1 : graph W)
    (nodes : list node) (new_node : node) :
  well_formed G1 →
  NoDup nodes →
  (∀ m, m ∈ nodes → is_node G1 m) →
  ¬ is_node G1 new_node →
  new_node ∉ nodes →
  ∃ G, merge_nodes add G1 nodes new_node = Ok G
    ∧ (∀ m, is_node G m ↔ (m ∉ nodes) ∧ (m = new_node ∨ is_node G1 m))
    ∧ (∀ x, x ∉ nodes → x ≠ new_node →
         edge_weight G new_node x = total add (joining nodes x (edges G1))
         ∧ edge_weight G x new_node = total add (joining nodes x (edges G1)))
    ∧ edge_weight G new_node new_node = None
    ∧ (∀ a b, a ∈ nodes ∨ b ∈ nodes → edge_weight G a b = None)
    ∧ (∀ a b, a ∉ nodes → b ∉ nodes → a ≠ new_node → b ≠ new_node →
         edge_weight G a b = edge_weight G1 a b).
Proof.
  intros Hwf Hnd Hmembers Hfresh Hnotin. unfold merge_nodes.
  pose proof Hwf as (_ & _ & Hsym).
  destruct (copy_spec G1 Hwf) as (Hcnode & Hcedge & _).
  assert (∀ a b, edge_weight G1 a new_node = None ∧ edge_weight G1 new_node b = None)
    as Hnone.
  { intros a b. split.
    - destruct (edge_weight G1 a new_node) eqn:H; [|done].
      exfalso. apply Hfresh. apply (edge_weight_is_node G1 new_node a).
      rewrite <- Hsym, H. by eexists.
    - destruct (edge_weight G1 new_node b) eqn:H; [|done].
      exfalso. apply Hfresh. apply (edge_weight_is_node G1 new_node b).
      rewrite H. by eexists. }
  destruct (merge_loop_spec add nodes new_node (edges G1)
              (add_node (copy G1) new_node))
    as (Hnew & Hsym2 & Hkeep & Hback & Hgain & Hother & Hloop).
  { apply is_node_add_node. by left. }
  { intros u v. by rewrite !edge_weight_add_node, !Hcedge. }
  { intros n1 n2 w Hin. destruct (edges_endpoints G1 n1 n2 w Hwf Hin).
    split; by intros ->. }
  set (G2 := foldl (merge_step add nodes new_node) (add_node (copy G1) new_node)
               (edges G1)) in *.
  destruct (remove_nodes_spec nodes G2 Hnd) as (G & Hrun & Hnode & Hedge).
  { intros m Hm. apply Hkeep, is_node_add_node. right.
    by apply Hcnode, Hmembers. }
  { done. }
  exists G. split; [done|].
  assert (∀ m, is_node G2 m ↔ m = new_node ∨ is_node G1 m) as Hnode2.
  { intros m. split.
    - intros Hm. destruct (Hback m Hm) as [Hm'|(n1 & n2 & w & Hin & Hm')].
      + apply is_node_add_node in Hm' as [?|Hm']; [by left|].
        right. by apply Hcnode.
      + right. destruct (edges_endpoints G1 n1 n2 w Hwf Hin).
        by destruct Hm' as [->| ->].
    - intros Hm. apply Hkeep, is_node_add_node.
      destruct Hm as [?|Hm]; [by left|]. right. by apply Hcnode. }
  split; [|split; [|split; [|split]]].
  - intros m. by rewrite Hnode, Hnode2.
  - intros x Hx Hne.
    assert (edge_weight G x new_node = total add (joining nodes x (edges G1))) as Hw.
    { rewrite Hedge, decide_False by naive_solver.
      rewrite (Hgain x Hx), edge_weight_add_node, Hcedge.
      by rewrite (proj1 (Hnone x x)). }
    split; [|done]. rewrite <- Hw, !Hedge.
    rewrite (decide_False (P := new_node ∈ nodes ∨ x ∈ nodes)) by naive_solver.
    rewrite (decide_False (P := x ∈ nodes ∨ new_node ∈ nodes)) by naive_solver.
    apply Hsym2.
  - rewrite Hedge, decide_False by naive_solver.
    rewrite Hloop, edge_weight_add_node, Hcedge.
    exact (proj1 (Hnone new_node new_node)).
  - intros a b Hab. by rewrite Hedge, decide_True.
  - intros a b Ha Hb Hane Hbne. rewrite Hedge, decide_False by naive_solver.
    by rewrite Hother, edge_weight_add_node, Hcedge.
Qed.

(** ** contigs_bin_network *)

Lemma column_missing (names : list string) (data : list (list cell)) (name : string) :
  name ∉ names → column (zip names data) name = Raise KeyError.
Proof.
  intros Hout. unfold column.
  destruct (Dict.get (zip names data) name) as [values|] eqn:Hget; [|done].
  exfalso. apply Hout.
  assert (name ∈ Dict.keys (zip names data)) as Hin
    by (apply get_is_Some_keys; by eexists).
  apply list_elem_of_fmap in Hin as ([n vs] & -> & Hin).
  by apply elem_of_zip_l in Hin.
Qed.

Lemma contigs_data_columns_no_id : "id" ∉ contigs_data_columns.
Proof. apply (bool_decide_unpack _). by vm_compute. Qed.

Lemma contigs_data_columns_no_name : "name" ∉ contigs_data_columns.
Proof. apply (bool_decide_unpack _). by vm_compute. Qed.

(** C8 (evaluation at every input): the names given to the columns of the
    contig data hold neither "id" nor "name", so the function raises before
    it builds any member list: [ValueError] when the table has not twelve
    columns (or the file of contigs of interest not one), [KeyError]
    otherwise, on [contigs_data["id"]] or in the merge on "name". *)
Theorem contigs_bin_network_raises :
  ∀ (py_int : string → result Z) (contigs_network : graph spec_float)
    (contigs_data_file : list (list cell))
    (contigs_of_interest : option (list (list cell))) (bin_size : Z),
    contigs_bin_network py_int contigs_network contigs_data_file
      contigs_of_interest bin_size
    = Raise (if decide (length contigs_data_file = 12%nat)
             then match contigs_of_interest with
                  | Some file =>
                      if decide (length file = 1%nat) then KeyError else ValueError
                  | None => KeyError
                  end
             else ValueError).
Proof.
  intros py_int contigs_network contigs_data_file contigs_of_interest bin_size.
  unfold contigs_bin_network, set_columns.
  change (length contigs_data_columns) with 12%nat.
  change (length ["name"]) with 1%nat.
  destruct (decide (length contigs_data_file = 12%nat)) as [Hlen|Hlen].
  - rewrite (decide_True (P := 12%nat = length contigs_data_file)) by done.
    cbn [mbind result_bind].
    destruct contigs_of_interest as [file|].
    + destruct (decide (length file = 1%nat)) as [Hfile|Hfile].
      * rewrite (decide_True (P := 1%nat = length file)) by done.
        cbn [mbind result_bind]. unfold merge_on_name.
        destruct (column (zip ["name"] file) "name") as [lnames|e] eqn:Hl.
        -- cbn [mbind result_bind].
           by rewrite (column_missing _ _ _ contigs_data_columns_no_name).
        -- exfalso. unfold column in Hl.
           destruct file as [|col file]; [done|].
           change (zip ["name"] (col :: file)) with [("name", col)] in Hl.
           cbn [Dict.get] in Hl. case_decide; done.
      * by rewrite (decide_False (P := 1%nat = length file)).
    + cbn [mbind result_bind].
      by rewrite (column_missing _ _ _ contigs_data_columns_no_id).
  - by rewrite (decide_False (P := 12%nat = length contigs_data_file)).
Qed.

(** ** Closed runs *)

(** The run of the spec's test: two contigs and one self-pair.  With
    self-contacts disabled no pair is retained and the aggregation pass
    raises on the empty stream; with self-contacts enabled the one retained
    pair makes a one-line stream and the final flush raises. *)
Example one_self_pair_runs :
  alignment_to_contacts GC_percent no_restriction_site no_findall int_of_digits
    float_of_decimal sort_pairs_text [[pair_line "a" "a"]] two_contigs None
    "None" None false
  = (Raise StopIteration, [])
  ∧ alignment_to_contacts GC_percent no_restriction_site no_findall int_of_digits
      float_of_decimal sort_pairs_text [[pair_line "a" "a"]] two_contigs None
      "None" None true
    = (Raise UnboundLocalError, []).
Proof. split; vm_compute; reflexivity. Qed.

(** Three pairs, two of them between the two contigs. *)
Example three_pairs_run :
  alignment_to_contacts GC_percent no_restriction_site no_findall int_of_digits
    float_of_decimal sort_pairs_text
    [[pair_line "a" "b"; pair_line "b" "a"; pair_line "a" "a"]] two_contigs None
    "None" None true
  = (Ok (), [(1, 1, WInt 1); (1, 2, WInt 2)]).
Proof. vm_compute. reflexivity. Qed.

(** The contraction of the spec's test. *)
Example three_edges_merged :
  merge_nodes fadd three_edges [NInt 2; NInt 3] (NStr "bin_1")
  = Ok [(NInt 5, [(NStr "bin_1", float_of_Z 7)]);
        (NStr "bin_1", [(NInt 5, float_of_Z 7)])].
Proof. vm_compute. reflexivity. Qed.

(** C4 at a record from contig "b" (id 2) to contig "a" (id 1). *)
Lemma collect_pair_counts_and_emits_witness :
  ∃ st', collect_pair 1 0 false (pair_line "b" "a")
           (Collector (two_contig_data None None) None [] 0 0 0 0)
         = (Ok (), st')
    ∧ pre_net st' = [["a"; "b"]]
    ∧ c_hit <$> registry st' !! "a" = Some 1
    ∧ c_hit <$> registry st' !! "b" = Some 1.
Proof.
  destruct (collect_pair_counts_and_emits 1 0 false (pair_line "b" "a")
              (Collector (two_contig_data None None) None [] 0 0 0 0)
              "b" "a"
              (Contig 2 2 (GC_percent "GC") 0 None None)
              (Contig 1 4 (GC_percent "ACGT") 0 None None))
    as (st' & emitted & Hrun & Hreg & Hnet & _ & _ & Hgt & _).
  - reflexivity.
  - reflexivity.
  - vm_compute. reflexivity.
  - vm_compute. reflexivity.
  - intros Hn. exfalso. lia.
  - exists st'. split; [exact Hrun|]. split.
    + rewrite Hnet, Hgt; [reflexivity|]. simpl. lia.
    + rewrite !Hreg. split; vm_compute; reflexivity.
Defined.

(** C5 at the contraction of the spec's test. *)
Lemma merge_nodes_contracts_witness :
  ∃ G, merge_nodes fadd three_edges [NInt 2; NInt 3] (NStr "bin_1") = Ok G
    ∧ edge_weight G (NStr "bin_1") (NInt 5) = Some (float_of_Z 7)
    ∧ edge_weight G (NInt 5) (NStr "bin_1") = Some (float_of_Z 7)
    ∧ edge_weight G (NStr "bin_1") (NStr "bin_1") = None
    ∧ ¬ is_node G (NInt 2) ∧ ¬ is_node G (NInt 3).
Proof.
  destruct (merge_nodes_contracts fadd three_edges [NInt 2; NInt 3] (NStr "bin_1"))
    as (G & Hrun & Hnode & Hsum & Hloop & _ & _).
  - unfold three_edges. repeat apply well_formed_add_edge. apply well_formed_empty.
  - apply (bool_decide_unpack _). vm_compute. exact I.
  - intros m Hm. apply get_is_Some_keys. vm_compute.
    apply elem_of_cons in Hm as [->|Hm].
    + apply list_elem_of_here.
    + apply list_elem_of_singleton in Hm as ->.
      do 2 apply list_elem_of_further. apply list_elem_of_here.
  - intros Hin. apply get_is_Some_keys in Hin.
    revert Hin. apply (bool_decide_unpack _). vm_compute. exact I.
  - apply (bool_decide_unpack _). vm_compute. exact I.
  - exists G. split; [exact Hrun|].
    destruct (Hsum (NInt 5)) as [H1 H2].
    + apply (bool_decide_unpack _). vm_compute. exact I.
    + discriminate.
    + split; [rewrite H1; vm_compute; reflexivity|].
      split; [rewrite H2; vm_compute; reflexivity|].
      split; [exact Hloop|].
      split; intros Hin; apply Hnode in Hin as [Hout _]; apply Hout.
      * apply list_elem_of_here.
      * apply list_elem_of_further, list_elem_of_here.
Defined.


(** The test is on the computed factor, in binary64: outside the finite
    coverages of C7, a zero coverage next to an infinite one makes the
    factor a NaN, which does not compare equal to 0, and the weight is NaN;
    and the product of two coverages [2 ** -600] rounds to 0, which gives
    the weight 0. *)
Example normalize_pair_abundance_extreme_coverages :
  normalize_pair
    (two_contig_data (Some (S754_zero false)) (Some (S754_infinity false)))
    ["a"; "b"] 3 "abundance"
  = Ok (WFloat S754_nan)
  ∧ normalize_pair (two_contig_data (Some tiny) (Some tiny)) ["a"; "b"] 3 "abundance"
    = Ok (WInt 0).
Proof. split; vm_compute; reflexivity. Qed.

(** C9 as stated fails on the code: with one contig and two data rows in the
    depth file the registry is returned, built from the first row. *)
Lemma create_contig_data_surplus_rows_accepted :
  length [depth_line "a" "4" "2.5"; depth_line "b" "2" "1.0"]
  ≠ length [Fasta "a" "ACGT"]
  ∧ ∃ hit_data,
      create_contig_data_run [Fasta "a" "ACGT"] 1
        (Some ["contigName" +:+ TAB +:+ "contigLen" +:+ TAB +:+ "totalAvgDepth";
               depth_line "a" "4" "2.5"; depth_line "b" "2" "1.0"])
        None
      = Ok ({["a" := Contig 1 4 (GC_percent "ACGT") 0
                       (Some (S754_finite false 5629499534213120 (-51))) None]},
            hit_data).
Proof. split; [discriminate|]. eexists. vm_compute. reflexivity. Qed.

(** C10 at two files, the second one without a line. *)
Lemma precompute_network_empty_source_witness :
  ∃ st, precompute_network [[pair_line "b" "a"]; []] (two_contig_data None None)
          (Some two_hit_data) false
        = (Raise ZeroDivisionError, st).
Proof.
  refine (proj2 (precompute_network_empty_source [[pair_line "b" "a"]; []]
                   (two_contig_data None None) (Some two_hit_data) false 1 _) _).
  - reflexivity.
  - intros j pairs Hj Hpairs.
    destruct j as [|j]; [|exfalso; lia].
    injection Hpairs as <-. apply Forall_cons. split; [|apply Forall_nil_2].
    exists "b", "a". split; [reflexivity|]. split; [reflexivity|].
    split; [eexists; vm_compute; reflexivity|].
    split; [eexists; vm_compute; reflexivity|].
    split; intros _; eexists _, 2%nat;
      (split; [reflexivity|]); (split; [vm_compute; reflexivity|lia]).
Defined.

(** C10 as stated fails on the code: the second file has no line, but the
    line of the first file names a contig that is not registered, and the
    run ends there with [KeyError]: the ratio of the empty file is never
    computed. *)
Lemma precompute_network_unregistered_before_empty_source :
  [[pair_line "a" "c"]; []] !! 1%nat = Some ([] : list (list string))
  ∧ ∃ st, precompute_network [[pair_line "a" "c"]; []] (two_contig_data None None)
            (Some two_hit_data) false
          = (Raise KeyError, st).
Proof. split; [reflexivity|]. eexists. vm_compute. reflexivity. Qed.

(** ** Further properties *)

(** The two values of the docstring of [compute_contig_coverage]:
    [0.05] for 25 hits on 500 bp and [2.0] for 200 hits on 100 bp. *)
Theorem coverage_of_docstring :
  coverage_of (Contig 1 500 (float_of_decimal_or_zero "45.07") 25 (Some (S754_zero false)) None)
  = float_of_decimal "0.05"
  ∧ coverage_of (Contig 2 100 (float_of_decimal_or_zero "45.07") 200 (Some (S754_zero false)) None)
    = Ok (float_of_Z 2).
Proof. split; vm_compute; reflexivity. Qed.

(** [compute_network_raw_sum] at three retained pairs. *)
Lemma compute_network_raw_sum_witness :
  ∃ net,
    compute_network sort_pairs_lex [["a"; "b"]; ["a"; "a"]; ["a"; "b"]]
      (two_contig_data None None) "None"
    = (Ok (), net)
    ∧ sum_weights net = 3.
Proof.
  destruct (compute_network_raw_sum sort_pairs_lex sort_pairs_lex_perm
              (two_contig_data None None) [["a"; "b"]; ["a"; "a"]; ["a"; "b"]])
    as (net & Hrun & _ & Hsum).
  - repeat (apply Forall_cons; split); try apply Forall_nil_2;
      eexists; vm_compute; reflexivity.
  - simpl. lia.
  - exists net. split; [exact Hrun|exact Hsum].
Defined.

(** [compute_network_raw_one_group] at three equal lines. *)
Lemma compute_network_raw_one_group_witness :
  compute_network sort_pairs_lex (replicate 3 ["a"; "b"]) (two_contig_data None None)
    "None"
  = (Ok (), [(1, 2, WInt 3)]).
Proof.
  apply (compute_network_raw_one_group sort_pairs_lex sort_pairs_lex_perm
           (two_contig_data None None) ["a"; "b"] 1 1 2).
  vm_compute. reflexivity.
Defined.

(** ** The partition and the projection of contigs_bin_network

    These statements are about the loop bodies as written; the function
    itself does not reach them ([contigs_bin_network_raises]). *)

Section bin_partition.
Context (py_int : string → result Z).
Context (contigs_data : frame) (contigs_of_interest : list cell) (bin_size : Z).

(** A contig of interest is left out of every member list. *)
Lemma bin_step_of_interest bin_list contig_id :
  contig_id ∈ contigs_of_interest →
  bin_step py_int contigs_data contigs_of_interest bin_size bin_list contig_id
  = Ok bin_list.
Proof. intros Hin. unfold bin_step. by rewrite decide_True. Qed.

(** A contig that is not of interest joins the member list of its community
    when the size of the community exceeds [bin_size], and only then. *)
Theorem bin_step_joins bin_list z oc_ids oc_lengths oc_id oc_length len :
  CInt z ∉ contigs_of_interest →
  column contigs_data "oc_id" = Ok oc_ids →
  series_get oc_ids (z - 1) = Ok oc_id →
  column contigs_data "oc_length" = Ok oc_lengths →
  series_get oc_lengths (z - 1) = Ok oc_length →
  cell_int py_int oc_length = Ok len →
  ∃ bin_list',
    bin_step py_int contigs_data contigs_of_interest bin_size bin_list (CInt z)
    = Ok bin_list'
    ∧ (bin_size < len →
       Dict.get bin_list' oc_id
       = Some (default [] (Dict.get bin_list oc_id) ++ [CInt z])
       ∧ ∀ k, k ≠ oc_id → Dict.get bin_list' k = Dict.get bin_list k)
    ∧ (len ≤ bin_size → bin_list' = bin_list).
Proof.
  intros Hout Hids Hid Hlens Hlen Hint. unfold bin_step.
  rewrite decide_False by done. rewrite Hids. cbn [mbind result_bind].
  rewrite Hid. cbn [mbind result_bind]. rewrite Hlens. cbn [mbind result_bind].
  rewrite Hlen. cbn [mbind result_bind]. rewrite Hint.
  destruct (decide (len > bin_size)) as [Hgt|Hle].
  - destruct (Dict.get bin_list oc_id) as [members|] eqn:Hget;
      (eexists; split; [reflexivity|]); (split; [|intros; lia]); intros _;
      (split; [by rewrite get_set, decide_True|]);
      intros k Hk; by rewrite get_set, decide_False.
  - exists bin_list. split; [done|]. split; [intros; lia|done].
Qed.
End bin_partition.

Lemma is_node_subgraph {W} (G : graph W) (keep : list node) (n : node) :
  is_node (subgraph G keep) n → n ∈ keep.
Proof.
  intros Hn. apply get_is_Some_keys in Hn. unfold Dict.keys, subgraph in Hn.
  apply list_elem_of_fmap in Hn as ([n' nbrs'] & -> & Hn).
  apply list_elem_of_fmap in Hn as ([n0 nbrs0] & [= -> ->] & Hn).
  by apply list_elem_of_filter in Hn as [Hkeep _].
Qed.

Lemma contract_bins_keep bin_list : ∀ to_keep network to_keep' network',
  contract_bins bin_list to_keep network = Ok (to_keep', network') →
  to_keep' = to_keep ++ ((λ b, NStr (bin_node_name b.1)) <$> bin_list).
Proof.
  induction bin_list as [|[bin_id members] rest IH];
    intros to_keep network to_keep' network' Hrun; cbn [contract_bins] in Hrun.
  - injection Hrun as <- _. by rewrite app_nil_r.
  - destruct (merge_nodes _ _ _ _) as [network1|e]; [|done].
    cbn [mbind result_bind] in Hrun.
    rewrite (IH _ _ _ _ Hrun), <- app_assoc. done.
Qed.

(** The projection keeps bin nodes and contigs of interest only: a contig
    that is a node of the returned graph is a contig of interest. *)
Lemma bins_network_contigs bin_list (of_interest : list cell) network kept z :
  contract_bins bin_list (node_of_cell <$> of_interest) network = Ok kept →
  is_node (subgraph kept.2 kept.1) (NInt z) →
  CInt z ∈ of_interest.
Proof.
  destruct kept as [to_keep' network']. intros Hrun Hn. simpl in Hn.
  apply is_node_subgraph in Hn.
  rewrite (contract_bins_keep _ _ _ _ _ Hrun) in Hn.
  apply elem_of_app in Hn as [Hn|Hn].
  - apply list_elem_of_fmap in Hn as ([z'|s] & Heq & Hin); [|done].
    by injection Heq as ->.
  - by apply list_elem_of_fmap in Hn as (b & [=] & _).
Qed.

(** [bin_step_joins] at one contig of a community of 600000 bp, over the
    threshold 500000. *)
Lemma bin_step_joins_witness :
  ∃ bin_list',
    bin_step int_of_digits
      [("id", [CInt 1]); ("oc_id", [CInt 7]); ("oc_length", [CInt 600000])]
      [] 500000 [] (CInt 1)
    = Ok bin_list'
    ∧ Dict.get bin_list' (CInt 7) = Some [CInt 1].
Proof.
  destruct (bin_step_joins int_of_digits
              [("id", [CInt 1]); ("oc_id", [CInt 7]); ("oc_length", [CInt 600000])]
              [] 500000 [] 1 [CInt 7] [CInt 600000] (CInt 7) (CInt 600000) 600000)
    as (bin_list' & Hrun & Hjoin & _).
  - apply not_elem_of_nil.
  - reflexivity.
  - reflexivity.
  - reflexivity.
  - reflexivity.
  - reflexivity.
  - exists bin_list'. split; [exact Hrun|].
    destruct Hjoin as [Hget _]; [lia|]. exact Hget.
Defined.

(** [compute_network_raw_groups] at four sorted lines in three groups. *)
Lemma compute_network_raw_groups_witness :
  ∃ net,
    compute_network sort_pairs_lex [["a"; "b"]; ["a"; "a"]; ["b"; "b"]; ["a"; "b"]]
      (two_contig_data None None) "None"
    = (Ok (), net)
    ∧ Forall2 (raw_edge_of (two_contig_data None None)) net
        [(["a"; "a"], 1); (["a"; "b"], 2); (["b"; "b"], 1)].
Proof.
  destruct (compute_network_raw_groups sort_pairs_lex sort_pairs_lex_perm
              (two_contig_data None None)
              [["a"; "b"]; ["a"; "a"]; ["b"; "b"]; ["a"; "b"]])
    as (net & Hrun & Hnet).
  - repeat (apply Forall_cons; split); try apply Forall_nil_2;
      eexists; vm_compute; reflexivity.
  - simpl. lia.
  - exists net. split; [exact Hrun|exact Hnet].
Defined.

(** * Further properties of the code *)

(** ** The aggregation pass under any normalization *)

Section aggregate_groups.
Context (contig_data : gmap string contig) (normalization : string).

(** The loop, then the flush, from a state whose pending group is
    [prev_pair st] counted [n_occ st] times. *)
Lemma agg_loop_groups rest : ∀ st net,
  (rest = [] → curr_pair st = Some (prev_pair st)) →
  0 < n_occ st →
  match agg_loop contig_data normalization st net rest with
  | (Ok st', net') =>
      match agg_flush contig_data normalization st' net' with
      | (Ok _, net'') => (Ok (), net'')
      | (Raise e, net'') => (Raise e, net'')
      end
  | (Raise e, net') => (Raise e, net')
  end
  = write_groups contig_data normalization net
      (runs (prev_pair st) (n_occ st) rest).
Proof.
  induction rest as [|r rest IH]; intros st net Hcurr Hn.
  - cbn [agg_loop runs write_groups]. unfold agg_flush, line_of.
    rewrite Hcurr by done. cbn [fst snd].
    destruct (effective_count _ _ _ _) as [w|e]; simpl; [|done].
    by destruct (edge_of _ _ _).
  - cbn [agg_loop runs]. unfold agg_step.
    destruct (decide (prev_pair st = r)) as [Heq|Hne].
    + pose proof (IH (Agg (prev_pair st) (Some r) (n_occ st + 1) (n_nonzero st)
                        (n_pairs st)) net) as H.
      cbn [prev_pair n_occ curr_pair] in H. rewrite <- H; [done| |lia].
      intros _. by rewrite Heq.
    + rewrite decide_True by lia. cbn [write_groups]. unfold line_of. cbn [fst snd].
      destruct (net_write net _) as [[[]|e] net']; [|done].
      pose proof (IH (Agg r (Some r) 1 (n_nonzero st + 1) (n_pairs st + n_occ st))
                    net') as H.
      cbn [prev_pair n_occ curr_pair] in H. rewrite <- H; [done|done|lia].
Qed.

Lemma aggregate_groups first second rest :
  match aggregate contig_data normalization (first :: second :: rest) with
  | (Ok _, net) => (Ok (), net)
  | (Raise e, net) => (Raise e, net)
  end
  = write_groups contig_data normalization [] (groups (first :: second :: rest)).
Proof.
  unfold aggregate, groups.
  pose proof (agg_loop_groups (second :: rest) (Agg first None 1 1 0) []) as H.
  cbn [prev_pair n_occ] in H. rewrite <- H; [|done|lia].
  destruct (agg_loop _ _ _ _ _) as [[st|e] net]; [|done].
  by destruct (agg_flush _ _ _ _) as [[?|?] ?].
Qed.
End aggregate_groups.

Lemma runs_cons prev n rest : ∃ r k gs, runs prev n rest = (r, k) :: gs ∧ r = prev.
Proof.
  revert n. induction rest as [|r rest IH]; intros n; simpl.
  - by eexists _, _, _.
  - case_decide; [apply IH|by eexists _, _, _].
Qed.

Lemma normalize_pair_unknown contig_data (r : row) n normalization :
  normalization ∉ normalizations →
  normalize_pair contig_data r n normalization = Raise UnboundLocalError.
Proof.
  intros Hout. unfold normalize_pair.
  assert (∀ s, s ∈ normalizations → normalization ≠ s) as Hne by (by intros s Hs ->).
  unfold normalizations in Hne.
  repeat (rewrite decide_False
            by (apply Hne; repeat (apply list_elem_of_here || apply list_elem_of_further))).
  done.
Qed.

(** On a sorted stream of at least two rows the streaming loop and its
    final flush write what a group-by writes: one line per group of equal
    adjacent rows, in order, with the weight of the group's count under the
    given normalization; the first line that raises ends the pass, and the
    lines of the groups before it stay written. *)
Theorem compute_network_as_groups (sort_pairs : list row → list row)
    (pre_network : list row) (contig_data : gmap string contig)
    (normalization : string) :
  (2 ≤ length (sort_pairs pre_network))%nat →
  compute_network sort_pairs pre_network contig_data normalization
  = write_groups contig_data normalization [] (groups (sort_pairs pre_network)).
Proof.
  intros Hlen. unfold compute_network.
  destruct (sort_pairs pre_network) as [|first [|second rest]];
    [simpl in Hlen; lia..|].
  apply aggregate_groups.
Qed.

(** A normalization that is neither "None" nor one of the six names of
    [normalize_pair] leaves [factor] unbound: on any non-empty stream the
    pass raises [UnboundLocalError] and writes nothing. *)
Theorem compute_network_unknown_normalization (sort_pairs : list row → list row)
    (pre_network : list row) (contig_data : gmap string contig)
    (normalization : string) :
  normalization ≠ "None" →
  normalization ∉ normalizations →
  sort_pairs pre_network ≠ [] →
  compute_network sort_pairs pre_network contig_data normalization
  = (Raise UnboundLocalError, []).
Proof.
  intros Hnone Hout Hrows. unfold compute_network.
  destruct (sort_pairs pre_network) as [|first [|second rest]]; [done| |].
  - unfold aggregate, agg_loop, agg_flush, effective_count. cbn.
    rewrite decide_True by done. by rewrite normalize_pair_unknown.
  - rewrite aggregate_groups. unfold groups.
    destruct (runs_cons first 1 (second :: rest)) as (r & k & gs & -> & _).
    cbn [write_groups]. unfold line_of, effective_count.
    rewrite decide_True by done. by rewrite normalize_pair_unknown.
Qed.

(** ** Exact counts *)

Lemma occurrences_cons r x rows :
  occurrences r (x :: rows) = (if decide (x = r) then 1 else 0) + occurrences r rows.
Proof.
  unfold occurrences. rewrite filter_cons. case_decide; simpl length; lia.
Qed.

Lemma runs_keys prev n rest r :
  r ∈ (runs prev n rest).*1 ↔ r = prev ∨ r ∈ rest.
Proof.
  revert prev n. induction rest as [|x rest IH]; intros prev n; simpl.
  - rewrite list_elem_of_singleton, elem_of_nil. naive_solver.
  - case_decide as Hd; simpl.
    + rewrite IH, elem_of_cons. naive_solver.
    + rewrite elem_of_cons, IH, elem_of_cons. naive_solver.
Qed.

Lemma groups_keys rows r : r ∈ (groups rows).*1 ↔ r ∈ rows.
Proof.
  destruct rows as [|x rest]; simpl; [done|].
  by rewrite runs_keys, elem_of_cons.
Qed.

Lemma group_total_cons r g gs :
  group_total r (g :: gs) = (if decide (g.1 = r) then g.2 else 0) + group_total r gs.
Proof. unfold group_total. rewrite filter_cons. by case_decide. Qed.

Lemma runs_total r rest : ∀ prev n,
  group_total r (runs prev n rest)
  = (if decide (prev = r) then n else 0) + occurrences r rest.
Proof.
  induction rest as [|x rest IH]; intros prev n; cbn [runs].
  - rewrite group_total_cons. unfold group_total, occurrences. simpl. lia.
  - rewrite occurrences_cons. destruct (decide (prev = x)) as [->|Hne].
    + rewrite IH. repeat case_decide; lia.
    + rewrite group_total_cons, IH. simpl. repeat case_decide; lia.
Qed.

Lemma groups_total r rows : group_total r (groups rows) = occurrences r rows.
Proof.
  destruct rows as [|x rest]; [done|]. unfold groups.
  by rewrite runs_total, occurrences_cons.
Qed.

Lemma group_total_absent r gs : r ∉ gs.*1 → group_total r gs = 0.
Proof.
  induction gs as [|g gs IH]; intros Hout; [done|].
  rewrite fmap_cons in Hout. apply not_elem_of_cons in Hout as [Hne Hout].
  rewrite group_total_cons, decide_False by done. by rewrite IH.
Qed.

Lemma group_total_NoDup r n gs :
  NoDup gs.*1 → (r, n) ∈ gs → group_total r gs = n.
Proof.
  induction gs as [|g gs IH]; intros Hnd Hin; [by apply elem_of_nil in Hin|].
  rewrite fmap_cons in Hnd. apply NoDup_cons in Hnd as [Hfresh Hnd].
  rewrite group_total_cons.
  apply elem_of_cons in Hin as [<-|Hin].
  - simpl. rewrite decide_True by done. rewrite group_total_absent by done. lia.
  - rewrite decide_False.
    + rewrite IH by done. lia.
    + intros Heq. apply Hfresh. rewrite Heq.
      apply list_elem_of_fmap. by exists (r, n).
Qed.

Lemma groups_counts rows r n :
  equal_rows_adjacent rows →
  (r, n) ∈ groups rows ↔ r ∈ rows ∧ n = occurrences r rows.
Proof.
  intros Hadj. split.
  - intros Hin. split.
    + apply groups_keys. apply list_elem_of_fmap. by exists (r, n).
    + by rewrite <- groups_total, (group_total_NoDup r n).
  - intros [Hin ->]. apply groups_keys in Hin.
    apply list_elem_of_fmap in Hin as ([r' n'] & -> & Hin). simpl.
    by rewrite <- groups_total, (group_total_NoDup r' n').
Qed.

Lemma occurrences_perm r rows rows' :
  rows ≡ₚ rows' → occurrences r rows = occurrences r rows'.
Proof. intros H. unfold occurrences. by rewrite H. Qed.

(** With normalization disabled, when the sort returns the rows it was
    given with equal rows next to each other, the network file holds one
    line per distinct row of the pre-network, and the weight of the line is
    the number of times the row occurs in the pre-network. *)
Theorem compute_network_raw_counts (sort_pairs : list row → list row)
    (pre_network : list row) (contig_data : gmap string contig) :
  sort_pairs pre_network ≡ₚ pre_network →
  equal_rows_adjacent (sort_pairs pre_network) →
  Forall (registered contig_data) pre_network →
  (2 ≤ length pre_network)%nat →
  ∃ net gs,
    compute_network sort_pairs pre_network contig_data "None" = (Ok (), net)
    ∧ Forall2 (raw_edge_of contig_data) net gs
    ∧ NoDup gs.*1
    ∧ ∀ r n, (r, n) ∈ gs ↔ r ∈ pre_network ∧ n = occurrences r pre_network.
Proof.
  intros Hperm Hadj Hreg Hlen.
  destruct (aggregate_raw_groups contig_data (sort_pairs pre_network))
    as (st & net & Hrun & Hnet).
  - by rewrite Hperm.
  - by rewrite Hperm.
  - exists net, (groups (sort_pairs pre_network)).
    split; [unfold compute_network; by rewrite Hrun|].
    split; [done|]. split; [done|].
    intros r n. rewrite (groups_counts _ _ _ Hadj).
    rewrite (occurrences_perm r _ _ Hperm).
    split; intros [Hin ->]; (split; [|done]).
    + by rewrite <- Hperm.
    + by rewrite Hperm.
Qed.

(** [compute_network_raw_counts] at four lines, two of them equal. *)
Lemma compute_network_raw_counts_witness :
  ∃ net,
    compute_network sort_pairs_lex [["a"; "b"]; ["a"; "a"]; ["b"; "b"]; ["a"; "b"]]
      (two_contig_data None None) "None"
    = (Ok (), net)
    ∧ net = [(1, 1, WInt 1); (1, 2, WInt 2); (2, 2, WInt 1)].
Proof.
  destruct (compute_network_raw_counts sort_pairs_lex
              [["a"; "b"]; ["a"; "a"]; ["b"; "b"]; ["a"; "b"]]
              (two_contig_data None None))
    as (net & gs & Hrun & Hnet & Hnd & Hcount).
  - apply sort_pairs_lex_perm.
  - apply (bool_decide_unpack _). vm_compute. exact I.
  - repeat (apply Forall_cons; split); try apply Forall_nil_2;
      eexists; vm_compute; reflexivity.
  - simpl. lia.
  - exists net. split; [exact Hrun|].
    vm_compute in Hrun. by injection Hrun as <-.
Defined.

(** [compute_network_as_groups] at three lines of which the second names a
    contig the registry does not hold: the line of the first group is
    written, then the pass raises. *)
Lemma compute_network_as_groups_witness :
  compute_network sort_pairs_lex [["a"; "b"]; ["a"; "c"]; ["a"; "b"]]
    (two_contig_data None None) "None"
  = (Raise KeyError, [(1, 2, WInt 2)]).
Proof.
  rewrite (compute_network_as_groups sort_pairs_lex
             [["a"; "b"]; ["a"; "c"]; ["a"; "b"]] (two_contig_data None None) "None").
  - vm_compute. reflexivity.
  - simpl. lia.
Defined.

(** [compute_network_unknown_normalization] at the name "coverage". *)
Lemma compute_network_unknown_normalization_witness :
  compute_network sort_pairs_lex [["a"; "b"]; ["a"; "b"]]
    (two_contig_data None None) "coverage"
  = (Raise UnboundLocalError, []).
Proof.
  apply compute_network_unknown_normalization.
  - discriminate.
  - apply (bool_decide_unpack _). vm_compute. exact I.
  - simpl. discriminate.
Defined.

(** ** compute_contig_coverage *)







(** ** normalize_pair on a registry that lacks what the strategy reads *)

Section normalize_pair_errors.
Context (contig_data : gmap string contig) (prev_pair : row) (n_occ : Z).
Context (a b : contig).
Context (Ha : endpoint contig_data prev_pair 0 = Ok a).
Context (Hb : endpoint contig_data prev_pair 1 = Ok b).

Lemma normalize_pair_no_coverage :
  c_coverage a = None →
  normalize_pair contig_data prev_pair n_occ "abundance" = Raise TypeError
  ∧ normalize_pair contig_data prev_pair n_occ "theoritical_hit" = Raise TypeError.
Proof.
  intros Hcov. unfold normalize_pair. split.
  - rewrite decide_True by done. rewrite Ha, Hb. simpl. by rewrite Hcov.
  - repeat (rewrite decide_False by done). rewrite decide_True by done.
    rewrite Ha. simpl. by rewrite Hcov.
Qed.

Lemma normalize_pair_no_RS :
  c_RS a = None →
  normalize_pair contig_data prev_pair n_occ "RS" = Raise TypeError
  ∧ normalize_pair contig_data prev_pair n_occ "RS_length" = Raise TypeError
  ∧ normalize_pair contig_data prev_pair n_occ "theoritical_hit" = Raise TypeError.
Proof.
  intros Hrs. unfold normalize_pair. repeat split.
  - repeat (rewrite decide_False by done). rewrite decide_True by done.
    rewrite Ha. simpl. by rewrite Hrs.
  - repeat (rewrite decide_False by done). rewrite decide_True by done.
    rewrite Ha. simpl. unfold int_truediv. simpl. by rewrite Hrs.
  - repeat (rewrite decide_False by done). rewrite decide_True by done.
    rewrite Ha. simpl. rewrite Hrs. by destruct (c_coverage a).
Qed.


End normalize_pair_errors.


(** ** Registry construction: the entries *)

Lemma last_of_its_name_S contig assembly i :
  last_of_its_name (contig :: assembly) (S i) → last_of_its_name assembly i.
Proof.
  intros H c Hc j c' Hj Hc'. apply (H c Hc (S j) c'); [lia|done].
Qed.

Lemma last_of_its_name_0 contig assembly :
  last_of_its_name (contig :: assembly) 0 → fasta_id contig ∉ fasta_id <$> assembly.
Proof.
  intros H Hin. apply list_elem_of_fmap in Hin as (c' & Heq & Hin).
  apply list_elem_of_lookup in Hin as [j Hj].
  by apply (H contig eq_refl (S j) c'); [lia|done|].
Qed.

Lemma last_of_its_name_NoDup assembly i :
  NoDup (fasta_id <$> assembly) → last_of_its_name assembly i.
Proof.
  intros Hnd c Hc j c' Hj Hc' Heq.
  assert (i = j); [|lia].
  eapply NoDup_lookup; [exact Hnd| |].
  - rewrite list_lookup_fmap, Hc. reflexivity.
  - rewrite list_lookup_fmap, Hc'. simpl. by rewrite Heq.
Qed.

Lemma register_hits_hit_data_of nb_alignment name entry contig_data :
  register_hits nb_alignment name (c_id entry) (hit_data_of nb_alignment contig_data)
  = Ok (hit_data_of nb_alignment (<[name := entry]> contig_data)).
Proof.
  unfold register_hits, hit_data_of. case_decide; [|done].
  by rewrite fmap_insert.
Qed.

Section create_contig_data_registry.
Context (GC : string → spec_float).
Context (get_restriction_site : string → result string).
Context (findall : string → string → list string).
Context (py_int : string → result Z).
Context (py_float : string → result spec_float).
Context (nb_alignment : nat) (pattern : option string).

Local Abbreviation create :=
  (create_contig_data GC get_restriction_site findall py_int py_float).

Lemma add_contig_entry record b :
  built_hit_data b = hit_data_of nb_alignment (built_contig_data b) →
  add_contig GC findall nb_alignment pattern record b
  = Ok (RegistryBuild (global_id b + 1)
          (<[fasta_id record := entry_of GC findall pattern (global_id b) record]> (built_contig_data b))
          (hit_data_of nb_alignment
             (<[fasta_id record := entry_of GC findall pattern (global_id b) record]>
                (built_contig_data b)))
          (depth_rest b)).
Proof.
  intros Hhd. unfold add_contig. rewrite Hhd.
  change (Contig (global_id b) ?l ?g 0 None ?r) with (entry_of GC findall pattern (global_id b) record).
  by rewrite (register_hits_hit_data_of nb_alignment (fasta_id record)
                (entry_of GC findall pattern (global_id b) record)).
Qed.

Lemma add_contig_with_depth_entry record b text lines len cov :
  built_hit_data b = hit_data_of nb_alignment (built_contig_data b) →
  depth_rest b = text :: lines →
  depth_row py_int py_float text = Ok (len, cov) →
  add_contig_with_depth GC findall py_int py_float nb_alignment pattern record b
  = Ok (RegistryBuild (global_id b + 1)
          (<[fasta_id record := entry_with_depth GC findall pattern (global_id b) record len cov]>
             (built_contig_data b))
          (hit_data_of nb_alignment
             (<[fasta_id record := entry_with_depth GC findall pattern (global_id b) record len cov]>
                (built_contig_data b)))
          lines).
Proof.
  intros Hhd Hdepth Hparse. unfold add_contig_with_depth. rewrite Hdepth.
  cbn [readline]. unfold depth_row in Hparse.
  destruct (getitem (split_tab text) 1) as [f1|e]; [|done].
  cbn [mbind result_bind] in *.
  destruct (py_int f1) as [len'|e]; [|done].
  cbn [mbind result_bind] in *.
  destruct (getitem (split_tab text) 2) as [f2|e]; [|done].
  cbn [mbind result_bind] in *.
  destruct (py_float f2) as [cov'|e]; [|done].
  cbn [mbind result_bind] in *. injection Hparse as -> ->.
  rewrite Hhd.
  change (Contig (global_id b) len ?g 0 (Some cov) ?r)
    with (entry_with_depth GC findall pattern (global_id b) record len cov).
  by rewrite (register_hits_hit_data_of nb_alignment (fasta_id record)
                (entry_with_depth GC findall pattern (global_id b) record len cov)).
Qed.

Lemma for_contigs_add_contig_entries assembly : ∀ b,
  built_hit_data b = hit_data_of nb_alignment (built_contig_data b) →
  ∃ b', for_contigs (add_contig GC findall nb_alignment pattern) assembly b = Ok b'
    ∧ built_hit_data b' = hit_data_of nb_alignment (built_contig_data b')
    ∧ dom (built_contig_data b')
      = dom (built_contig_data b) ∪ list_to_set (fasta_id <$> assembly)
    ∧ (∀ name, name ∉ fasta_id <$> assembly →
         built_contig_data b' !! name = built_contig_data b !! name)
    ∧ (∀ i contig, assembly !! i = Some contig → last_of_its_name assembly i →
         built_contig_data b' !! fasta_id contig
         = Some (entry_of GC findall pattern (global_id b + Z.of_nat i) contig)).
Proof.
  induction assembly as [|contig rest IH]; intros b Hhd.
  - exists b. split; [done|]. split; [done|]. split; [set_solver|].
    split; [done|]. intros i c Hc. by rewrite lookup_nil in Hc.
  - cbn [for_contigs]. rewrite add_contig_entry by done.
    cbn [mbind result_bind].
    destruct (IH (RegistryBuild (global_id b + 1)
                    (<[fasta_id contig := entry_of GC findall pattern (global_id b) contig]>
                       (built_contig_data b))
                    (hit_data_of nb_alignment
                       (<[fasta_id contig := entry_of GC findall pattern (global_id b) contig]>
                          (built_contig_data b)))
                    (depth_rest b)))
      as (b' & Hrun & Hhd' & Hdom & Hother & Hentry); [done|].
    cbn [global_id built_contig_data built_hit_data] in *.
    exists b'. split; [done|]. split; [done|]. split; [|split].
    + rewrite Hdom, dom_insert_L, fmap_cons. set_solver.
    + intros name Hname. rewrite fmap_cons in Hname.
      apply not_elem_of_cons in Hname as [Hne Hname].
      by rewrite (Hother _ Hname), lookup_insert_ne.
    + intros [|i] c Hc Hlast.
      * injection Hc as <-. apply last_of_its_name_0 in Hlast.
        rewrite (Hother _ Hlast), lookup_insert_eq. do 2 f_equal. lia.
      * apply last_of_its_name_S in Hlast. simpl in Hc.
        rewrite (Hentry i c Hc Hlast). do 2 f_equal. lia.
Qed.

Lemma for_contigs_add_contig_with_depth_entries assembly : ∀ b,
  built_hit_data b = hit_data_of nb_alignment (built_contig_data b) →
  (∀ i, (i < length assembly)%nat →
     ∃ text, depth_rest b !! i = Some text
       ∧ is_Ok (depth_row py_int py_float text)) →
  ∃ b', for_contigs (add_contig_with_depth GC findall py_int py_float
                       nb_alignment pattern) assembly b = Ok b'
    ∧ built_hit_data b' = hit_data_of nb_alignment (built_contig_data b')
    ∧ dom (built_contig_data b')
      = dom (built_contig_data b) ∪ list_to_set (fasta_id <$> assembly)
    ∧ (∀ name, name ∉ fasta_id <$> assembly →
         built_contig_data b' !! name = built_contig_data b !! name)
    ∧ (∀ i contig text len cov,
         assembly !! i = Some contig → last_of_its_name assembly i →
         depth_rest b !! i = Some text →
         depth_row py_int py_float text = Ok (len, cov) →
         built_contig_data b' !! fasta_id contig
         = Some (entry_with_depth GC findall pattern (global_id b + Z.of_nat i) contig len cov)).
Proof.
  induction assembly as [|contig rest IH]; intros b Hhd Hrows.
  - exists b. split; [done|]. split; [done|]. split; [set_solver|].
    split; [done|]. intros i c ? ? ? Hc. by rewrite lookup_nil in Hc.
  - cbn [for_contigs].
    destruct (Hrows 0%nat) as (text & Htext & Hparse); [simpl; lia|].
    destruct (depth_rest b) as [|text' lines] eqn:Hdepth; [done|].
    injection Htext as ->.
    destruct (depth_row py_int py_float text) as [[len cov]|e] eqn:Hrow; [|done].
    rewrite (add_contig_with_depth_entry contig b text lines len cov) by done.
    cbn [mbind result_bind].
    destruct (IH (RegistryBuild (global_id b + 1)
                    (<[fasta_id contig := entry_with_depth GC findall pattern (global_id b) contig len cov]>
                       (built_contig_data b))
                    (hit_data_of nb_alignment
                       (<[fasta_id contig := entry_with_depth GC findall pattern (global_id b) contig len cov]>
                          (built_contig_data b)))
                    lines))
      as (b' & Hrun & Hhd' & Hdom & Hother & Hentry); [done| |].
    { intros i Hi. apply (Hrows (S i)). simpl. lia. }
    cbn [global_id built_contig_data built_hit_data depth_rest] in *.
    exists b'. split; [done|]. split; [done|]. split; [|split].
    + rewrite Hdom, dom_insert_L, fmap_cons. set_solver.
    + intros name Hname. rewrite fmap_cons in Hname.
      apply not_elem_of_cons in Hname as [Hne Hname].
      by rewrite (Hother _ Hname), lookup_insert_ne.
    + intros [|i] c text' len' cov' Hc Hlast Htext' Hparse'.
      * injection Hc as <-. injection Htext' as <-.
        rewrite Hrow in Hparse'. injection Hparse' as <- <-.
        apply last_of_its_name_0 in Hlast.
        rewrite (Hother _ Hlast), lookup_insert_eq. do 2 f_equal. lia.
      * apply last_of_its_name_S in Hlast. simpl in Hc, Htext'.
        rewrite (Hentry i c text' len' cov' Hc Hlast Htext' Hparse').
        do 2 f_equal. lia.
Qed.

(** Registry construction without a depth file. *)
Lemma create_contig_data_no_depth (assembly : list fasta)
    (enzyme : option string) :
  restriction_pattern get_restriction_site enzyme = Ok pattern →
  ∃ contig_data,
    create assembly nb_alignment None enzyme
    = Ok (contig_data, hit_data_of nb_alignment contig_data)
    ∧ dom contig_data = list_to_set (fasta_id <$> assembly)
    ∧ ∀ i contig, assembly !! i = Some contig → last_of_its_name assembly i →
        contig_data !! fasta_id contig = Some (entry_of GC findall pattern (Z.of_nat i + 1) contig).
Proof.
  intros Hpat. unfold create_contig_data. rewrite Hpat. cbn [mbind result_bind].
  destruct (for_contigs_add_contig_entries assembly
              (RegistryBuild 1 ∅ (hit_data_of nb_alignment ∅) []))
    as (b' & Hrun & Hhd & Hdom & _ & Hentry).
  { done. }
  assert (hit_data_of nb_alignment ∅
          = if decide (1 < nb_alignment)%nat then Some ∅ else None) as Hempty.
  { unfold hit_data_of. case_decide; [|done]. by rewrite fmap_empty. }
  rewrite <- Hempty, Hrun. cbn [mbind result_bind].
  exists (built_contig_data b'). rewrite Hhd. split; [done|]. split.
  - rewrite Hdom. cbn [built_contig_data]. by rewrite dom_empty_L, (left_id_L ∅ (∪)).
  - intros i contig Hc Hlast. rewrite (Hentry i contig Hc Hlast).
    cbn [global_id]. do 2 f_equal. lia.
Qed.

(** Without a depth file, once the restriction pattern is obtained, registry
    construction returns.  The registry holds exactly the names of the
    assembly; a name maps to the entry of the last record that carries it:
    the id is the position of that record counted from 1 (the earlier
    records of a repeated name leave their ids unused), the length is the
    length of the sequence, the hit count is 0 and the coverage is "-".
    [hit_data] is built for several alignment files only, and then gives
    every registered name its id and one zero per file. *)
Theorem create_contig_data_entries (assembly : list fasta)
    (enzyme : option string) :
  restriction_pattern get_restriction_site enzyme = Ok pattern →
  ∃ contig_data,
    create assembly nb_alignment None enzyme
    = Ok (contig_data, hit_data_of nb_alignment contig_data)
    ∧ dom contig_data = list_to_set (fasta_id <$> assembly)
    ∧ ∀ i contig, assembly !! i = Some contig → last_of_its_name assembly i →
        contig_data !! fasta_id contig
        = Some (entry_of GC findall pattern (Z.of_nat i + 1) contig).
Proof. exact (create_contig_data_no_depth assembly enzyme). Qed.

(** With a depth file whose first [N] data rows each hold an integer in
    their second field and a float in their third, registry construction
    returns, and the contig at position [i] takes its length and its
    coverage from data row [i] (the header line is skipped), whatever name
    that row carries: the first field of a row is never read, and the length
    of the sequence is not used. *)
Theorem create_contig_data_depth_by_position (assembly : list fasta)
    (header : string) (rows : list string) (enzyme : option string) :
  restriction_pattern get_restriction_site enzyme = Ok pattern →
  (∀ i, (i < length assembly)%nat →
     ∃ text, rows !! i = Some text ∧ is_Ok (depth_row py_int py_float text)) →
  ∃ contig_data,
    create assembly nb_alignment (Some (header :: rows)) enzyme
    = Ok (contig_data, hit_data_of nb_alignment contig_data)
    ∧ dom contig_data = list_to_set (fasta_id <$> assembly)
    ∧ ∀ i contig text len cov,
        assembly !! i = Some contig → last_of_its_name assembly i →
        rows !! i = Some text →
        depth_row py_int py_float text = Ok (len, cov) →
        contig_data !! fasta_id contig
        = Some (entry_with_depth GC findall pattern (Z.of_nat i + 1) contig len cov).
Proof.
  intros Hpat Hrows. unfold create_contig_data. rewrite Hpat.
  cbn [mbind result_bind readline].
  destruct (for_contigs_add_contig_with_depth_entries assembly
              (RegistryBuild 1 ∅ (hit_data_of nb_alignment ∅) rows))
    as (b' & Hrun & Hhd & Hdom & _ & Hentry).
  { done. }
  { exact Hrows. }
  assert (hit_data_of nb_alignment ∅
          = if decide (1 < nb_alignment)%nat then Some ∅ else None) as Hempty.
  { unfold hit_data_of. case_decide; [|done]. by rewrite fmap_empty. }
  rewrite <- Hempty, Hrun. cbn [mbind result_bind].
  exists (built_contig_data b'). rewrite Hhd. split; [done|]. split.
  - rewrite Hdom. cbn [built_contig_data]. by rewrite dom_empty_L, (left_id_L ∅ (∪)).
  - intros i contig text len cov Hc Hlast Htext Hparse.
    rewrite (Hentry i contig text len cov Hc Hlast Htext Hparse).
    cbn [global_id]. do 2 f_equal. lia.
Qed.
End create_contig_data_registry.

Section create_contig_data_bijection.
Context (GC : string → spec_float).
Context (get_restriction_site : string → result string).
Context (findall : string → string → list string).
Context (py_int : string → result Z).
Context (py_float : string → result spec_float).

Local Abbreviation create :=
  (create_contig_data GC get_restriction_site findall py_int py_float).

(** With a depth file whose first [N] data rows can be read, the loop over
    the assembly does not raise. *)
Lemma create_contig_data_returns (assembly : list fasta) (nb_alignment : nat)
    (depth_file : option (list string)) (enzyme : option string) :
  is_Ok (restriction_pattern get_restriction_site enzyme) →
  depth_rows_parse py_int py_float depth_file (length assembly) →
  is_Ok (create assembly nb_alignment depth_file enzyme).
Proof.
  intros Hpat Hrows. unfold create_contig_data.
  destruct (restriction_pattern _ _) as [pattern|e]; [|done].
  cbn [mbind result_bind].
  assert (hit_data_of nb_alignment ∅
          = if decide (1 < nb_alignment)%nat then Some ∅ else None) as Hempty.
  { unfold hit_data_of. case_decide; [|done]. by rewrite fmap_empty. }
  destruct depth_file as [depth|].
  - destruct (readline depth) as [header rows] eqn:Hread.
    destruct (for_contigs_add_contig_with_depth_entries GC get_restriction_site findall
                py_int py_float nb_alignment pattern assembly
                (RegistryBuild 1 ∅ (hit_data_of nb_alignment ∅) rows))
      as (b' & Hrun & _); [done| |].
    { intros i Hi. destruct (Hrows i Hi) as (text & Htext & Hparse).
      rewrite Hread in Htext. by exists text. }
    by rewrite <- Hempty, Hrun.
  - destruct (for_contigs_add_contig_entries GC get_restriction_site findall py_int
                py_float nb_alignment pattern assembly (RegistryBuild 1 ∅ (hit_data_of nb_alignment ∅) []))
      as (b' & Hrun & _); [done|].
    by rewrite <- Hempty, Hrun.
Qed.

(** C6: on an assembly with distinct names, registry construction returns
    whenever the enzyme pattern is obtained and the depth file, if there is
    one, holds a readable data row for each contig; and a registry that is
    returned holds exactly the names of the assembly, gives the contig at
    position [i] (from 0) the id [i + 1], gives distinct names distinct
    ids, and reaches every id of [1..N]. *)
Theorem create_contig_data_id_bijection (assembly : list fasta)
    (nb_alignment : nat) (depth_file : option (list string))
    (enzyme : option string) :
  NoDup (fasta_id <$> assembly) →
  (is_Ok (restriction_pattern get_restriction_site enzyme) →
   depth_rows_parse py_int py_float depth_file (length assembly) →
   is_Ok (create assembly nb_alignment depth_file enzyme))
  ∧ ∀ contig_data hit_data,
      create assembly nb_alignment depth_file enzyme = Ok (contig_data, hit_data) →
      dom contig_data = list_to_set (fasta_id <$> assembly)
      ∧ (∀ i contig, assembly !! i = Some contig →
           c_id <$> contig_data !! fasta_id contig = Some (Z.of_nat i + 1))
      ∧ (∀ name1 name2 r1 r2,
           contig_data !! name1 = Some r1 → contig_data !! name2 = Some r2 →
           c_id r1 = c_id r2 → name1 = name2)
      ∧ (∀ k, 1 ≤ k ≤ Z.of_nat (length assembly) →
           ∃ name r, contig_data !! name = Some r ∧ c_id r = k).
Proof.
  intros Hnodup. split.
  - apply create_contig_data_returns.
  - apply (create_contig_data_ids_of_returned GC get_restriction_site findall
             py_int py_float assembly nb_alignment depth_file enzyme Hnodup).
Qed.
End create_contig_data_bijection.

(** C6 at an assembly of two contigs with a depth file of two data rows,
    without enzyme. *)
Lemma create_contig_data_id_bijection_witness :
  ∃ contig_data hit_data,
    create_contig_data_run two_contigs 1
      (Some ["contigName" +:+ TAB +:+ "contigLen" +:+ TAB +:+ "totalAvgDepth";
             depth_line "a" "4" "2.5"; depth_line "b" "2" "1.0"])
      None
    = Ok (contig_data, hit_data)
    ∧ c_id <$> contig_data !! "a" = Some 1
    ∧ c_id <$> contig_data !! "b" = Some 2.
Proof.
  destruct (create_contig_data_id_bijection GC_percent no_restriction_site
              no_findall int_of_digits float_of_decimal two_contigs 1
              (Some ["contigName" +:+ TAB +:+ "contigLen" +:+ TAB +:+ "totalAvgDepth";
                     depth_line "a" "4" "2.5"; depth_line "b" "2" "1.0"])
              None)
    as [Hok Hids].
  - apply (bool_decide_unpack _). vm_compute. exact I.
  - assert (is_Ok (create_contig_data_run two_contigs 1
                     (Some ["contigName" +:+ TAB +:+ "contigLen" +:+ TAB
                            +:+ "totalAvgDepth";
                            depth_line "a" "4" "2.5"; depth_line "b" "2" "1.0"])
                     None)) as Hrun.
    { apply Hok; [exact I|].
      intros i Hi. destruct i as [|[|i]]; [| |simpl in Hi; lia];
        (eexists; split; [reflexivity|]; vm_compute; exact I). }
    destruct (create_contig_data_run _ _ _ _) as [[contig_data hit_data]|e] eqn:Hcreate;
      [|done].
    exists contig_data, hit_data. split; [reflexivity|].
    destruct (Hids contig_data hit_data Hcreate) as (_ & Hidx & _).
    split.
    + exact (Hidx 0%nat (Fasta "a" "ACGT") eq_refl).
    + exact (Hidx 1%nat (Fasta "b" "GC") eq_refl).
Defined.

(** [create_contig_data_entries] at an assembly that names "a" twice: the
    later record replaces the earlier one and takes the id 3, and no contig
    has the id 1. *)
Lemma create_contig_data_entries_witness :
  ∃ contig_data,
    create_contig_data_run [Fasta "a" "ACGT"; Fasta "b" "GC"; Fasta "a" "GG"] 2 None None
    = Ok (contig_data, hit_data_of 2 contig_data)
    ∧ contig_data !! "a" = Some (Contig 3 2 (GC_percent "GG") 0 None None)
    ∧ contig_data !! "b" = Some (Contig 2 2 (GC_percent "GC") 0 None None)
    ∧ dom contig_data = {["a"; "b"]}.
Proof.
  destruct (create_contig_data_entries GC_percent no_restriction_site no_findall
              int_of_digits float_of_decimal 2 None
              [Fasta "a" "ACGT"; Fasta "b" "GC"; Fasta "a" "GG"] None eq_refl)
    as (contig_data & Hrun & Hdom & Hentry).
  exists contig_data. split; [exact Hrun|]. split; [|split].
  - apply (Hentry 2%nat (Fasta "a" "GG") eq_refl).
    intros c Hc j c' Hj Hc'. apply lookup_lt_Some in Hc'. simpl in Hc'. lia.
  - apply (Hentry 1%nat (Fasta "b" "GC") eq_refl).
    intros c Hc j c' Hj Hc'. injection Hc as <-.
    destruct j as [|[|[|j]]]; [lia|lia| |done]. by injection Hc' as <-.
  - rewrite Hdom. set_solver.
Defined.

(** [create_contig_data_depth_by_position] at a depth file whose rows name
    the two contigs in the other order: contig "a" takes the length and
    the coverage of the row of "b". *)
Lemma create_contig_data_depth_by_position_witness :
  ∃ contig_data,
    create_contig_data_run [Fasta "a" "ACGT"; Fasta "b" "GC"] 1
      (Some ["contigName" +:+ TAB +:+ "contigLen" +:+ TAB +:+ "totalAvgDepth";
             depth_line "b" "2" "2.5"; depth_line "a" "4" "1.0"])
      None
    = Ok (contig_data, None)
    ∧ contig_data !! "a"
      = Some (Contig 1 2 (GC_percent "ACGT") 0
                (Some (S754_finite false 5629499534213120 (-51))) None).
Proof.
  destruct (create_contig_data_depth_by_position GC_percent no_restriction_site
              no_findall int_of_digits float_of_decimal 1 None
              [Fasta "a" "ACGT"; Fasta "b" "GC"]
              ("contigName" +:+ TAB +:+ "contigLen" +:+ TAB +:+ "totalAvgDepth")
              [depth_line "b" "2" "2.5"; depth_line "a" "4" "1.0"] None eq_refl)
    as (contig_data & Hrun & Hdom & Hentry).
  - intros i Hi. destruct i as [|[|i]]; [| |simpl in Hi; lia];
      (eexists; split; [reflexivity|vm_compute; exact I]).
  - exists contig_data. split; [exact Hrun|].
    apply (Hentry 0%nat (Fasta "a" "ACGT") (depth_line "b" "2" "2.5") 2
             (S754_finite false 5629499534213120 (-51)) eq_refl).
    + intros c Hc j c' Hj Hc'. injection Hc as <-.
      destruct j as [|[|j]]; [lia| |done]. by injection Hc' as <-.
    + reflexivity.
    + vm_compute. reflexivity.
Defined.

(** ** The pair collector: what every run keeps *)

Section wp.
Context {St : Type}.
Implicit Types (st : St) (E : St → Prop).

Lemma wp_bind {A B} (m : prog St A) (f : A → prog St B) Q E st :
  wp (m ≫= f) Q E st ↔ wp m (λ a, wp (f a) Q E) E st.
Proof. unfold wp, mbind, prog_bind. by destruct (m st) as [[a|e] st']. Qed.

Lemma wp_ret {A} (a : A) (Q : A → St → Prop) E st : wp (mret a) Q E st ↔ Q a st.
Proof. done. Qed.

Lemma wp_pass (Q : unit → St → Prop) E st : wp pass Q E st ↔ Q () st.
Proof. done. Qed.

Lemma wp_read {A} (f : St → result A) (Q : A → St → Prop) E st :
  wp (read f) Q E st ↔ match f st with Ok a => Q a st | Raise _ => E st end.
Proof. unfold wp, read. by destruct (f st). Qed.

Lemma wp_update (f : St → result St) (Q : unit → St → Prop) E st :
  wp (update f) Q E st ↔ match f st with Ok st' => Q () st' | Raise _ => E st end.
Proof. unfold wp, update. by destruct (f st). Qed.

Lemma wp_wand {A} (m : prog St A) (Q Q' : A → St → Prop) E st :
  wp m Q E st → (∀ a st', Q a st' → Q' a st') → wp m Q' E st.
Proof. unfold wp. destruct (m st) as [[a|e] st']; [|done]. intros H HQ. by apply HQ. Qed.

Lemma wp_for_each {A} (I : St → Prop) (body : A → prog St unit) xs :
  (∀ x st, I st → wp (body x) (λ _, I) I st) →
  ∀ st, I st → wp (for_each xs body) (λ _, I) I st.
Proof.
  intros Hbody. induction xs as [|x xs IH]; intros st Hst; [done|].
  cbn [for_each]. apply wp_bind. specialize (Hbody x st Hst).
  unfold wp in *. destruct (body x st) as [[[]|e] st']; [|done]. by apply IH.
Qed.

Lemma wp_for_enumerate {A} (I : St → Prop) (body : nat → A → prog St unit) xs :
  (∀ i x st, I st → wp (body i x) (λ _, I) I st) →
  ∀ i st, I st → wp (for_enumerate i xs body) (λ _, I) I st.
Proof.
  intros Hbody. induction xs as [|x xs IH]; intros i st Hst; [done|].
  cbn [for_enumerate]. apply wp_bind. specialize (Hbody i x st Hst).
  unfold wp in *. destruct (body i x st) as [[[]|e] st']; [|done]. by apply IH.
Qed.
End wp.

(** One step of symbolic execution of a command. *)
Ltac wp_step :=
  lazymatch goal with
  | |- wp (_ ≫= _) _ _ _ => apply wp_bind
  | |- wp (read _) _ _ _ => apply wp_read
  | |- wp (update _) _ _ _ => apply wp_update
  | |- wp pass _ _ _ => apply wp_pass
  | |- wp (mret _) _ _ _ => apply wp_ret
  end.

Lemma add_hits_add_hits k1 k2 c : add_hits k1 (add_hits k2 c) = add_hits (k2 + k1) c.
Proof. unfold add_hits. simpl. f_equal. lia. Qed.

Lemma only_hits_grow_refl cd : only_hits_grow cd cd.
Proof.
  intros name. exists 0. split; [done|]. destruct (cd !! name) as [[]|]; [|done].
  simpl. unfold add_hits. simpl. do 2 f_equal. lia.
Qed.

Lemma only_hits_grow_count cd0 cd cd' name :
  only_hits_grow cd0 cd → count_hit name cd = Ok cd' → only_hits_grow cd0 cd'.
Proof.
  intros Hgrow Hcount name'. unfold count_hit, dict_get in Hcount.
  destruct (cd !! name) as [c|] eqn:Hc; [|done]. injection Hcount as <-.
  destruct (Hgrow name') as (k & Hk & Hname').
  destruct (decide (name = name')) as [<-|Hne].
  - rewrite lookup_insert_eq. rewrite Hc in Hname'.
    destruct (cd0 !! name) as [c0|]; [|done]. injection Hname' as ->.
    exists (k + 1). split; [lia|]. simpl. f_equal. unfold add_hits. simpl.
    f_equal. lia.
  - rewrite lookup_insert_ne by done. by exists k.
Qed.

Lemma only_hits_grow_lookup cd0 cd name c :
  only_hits_grow cd0 cd → cd !! name = Some c →
  ∃ c0, cd0 !! name = Some c0 ∧ c_id c0 = c_id c.
Proof.
  intros Hgrow Hc. destruct (Hgrow name) as (k & _ & Hname). rewrite Hc in Hname.
  destruct (cd0 !! name) as [c0|]; [|done]. injection Hname as ->. by exists c0.
Qed.

Lemma hits_shape_count_library_hit name i hd hd' :
  count_library_hit name i hd = Ok hd' → hits_shape hd' = hits_shape hd.
Proof.
  unfold count_library_hit, dict_get, getitem. destruct hd as [d|]; [|done].
  destruct (d !! name) as [h|] eqn:Hh; [|done]. cbn [mbind result_bind].
  destruct (h_hit h !! i) as [x|]; [|done]. cbn [mbind result_bind].
  intros [= <-]. unfold hits_shape. simpl. f_equal. by apply hits_shape_count.
Qed.

Section collector_invariant.
Context (contig_data : gmap string contig) (hit_data : option (gmap string hits)).
Context (n_files : nat) (self_contacts : bool).

Local Abbreviation inv := (collector_inv contig_data hit_data n_files self_contacts).

Lemma inv_set_temp st a b st' : inv st → set_temp a b st = Ok st' → inv st'.
Proof. intros H [= <-]. exact H. Qed.

Lemma inv_set_total st a b st' : inv st → set_total a b st = Ok st' → inv st'.
Proof. intros H [= <-]. exact H. Qed.

Lemma inv_count_hit st name st' :
  inv st → set_registry (count_hit name) st = Ok st' → inv st'.
Proof.
  intros (Hreg & Hnet & Hlib) Hrun. unfold set_registry in Hrun.
  destruct (count_hit name (registry st)) as [cd'|e] eqn:Hcount; [|done].
  injection Hrun as <-. split; [|done]. simpl. by eapply only_hits_grow_count.
Qed.

Lemma inv_count_library_hit st name i st' :
  (1 < n_files)%nat →
  inv st → set_library_hits (count_library_hit name i) st = Ok st' → inv st'.
Proof.
  intros Hn (Hreg & Hnet & Hsh & Hlib) Hrun. unfold set_library_hits in Hrun.
  destruct (count_library_hit name i (library_hits st)) as [hd'|e] eqn:Hcount; [|done].
  injection Hrun as <-. split; [done|]. split; [done|]. simpl. split.
  - by rewrite (hits_shape_count_library_hit _ _ _ _ Hcount).
  - intros; lia.
Qed.

Lemma inv_pre_net_write st a b st' :
  canonical_row contig_data self_contacts [a; b] →
  inv st → pre_net_write a b st = Ok st' → inv st'.
Proof.
  intros Hrow (Hreg & Hnet & Hlib) [= <-]. split; [done|]. split; [|done]. simpl.
  apply Forall_app. split; [done|]. by apply Forall_singleton.
Qed.

Lemma collect_pair_inv i p st :
  inv st → wp (collect_pair n_files i self_contacts p) (λ _, inv) inv st.
Proof.
  intros Hst. unfold collect_pair.
  do 2 wp_step. destruct (getitem p 1) as [contig1|]; [|done].
  do 2 wp_step. destruct (getitem p 5) as [contig2|]; [|done].
  do 2 wp_step. unfold dict_get.
  destruct (registry st !! contig1) as [c1|] eqn:H1; [|done]. cbn [mbind result_bind].
  do 2 wp_step. destruct (registry st !! contig2) as [c2|] eqn:H2; [|done].
  cbn [mbind result_bind].
  destruct (only_hits_grow_lookup _ _ _ _ (proj1 Hst) H1) as (a & Ha & Hida).
  destruct (only_hits_grow_lookup _ _ _ _ (proj1 Hst) H2) as (b & Hb & Hidb).
  do 2 wp_step. cbn [set_temp].
  match goal with |- wp _ _ _ ?s => assert (inv s) as Hst1 by exact Hst; revert Hst1;
                                    generalize s end.
  clear st Hst H1 H2. intros st Hst.
  do 2 wp_step.
  destruct (set_registry (count_hit contig1) st) as [st1|] eqn:Hc1; [|done].
  apply (inv_count_hit _ _ _ Hst) in Hc1. clear st Hst.
  do 2 wp_step.
  destruct (set_registry (count_hit contig2) st1) as [st2|] eqn:Hc2; [|done].
  apply (inv_count_hit _ _ _ Hc1) in Hc2. clear st1 Hc1.
  wp_step.
  assert (wp (if decide (1 < n_files)%nat
              then update (set_library_hits (count_library_hit contig1 i));;
                   update (set_library_hits (count_library_hit contig2 i))
              else pass) (λ _, inv) inv st2) as Hlib.
  { case_decide as Hn; [|done].
    do 2 wp_step.
    destruct (set_library_hits (count_library_hit contig1 i) st2) as [st3|] eqn:Hl1;
      [|done].
    apply (inv_count_library_hit _ _ _ _ Hn Hc2) in Hl1.
    wp_step.
    destruct (set_library_hits (count_library_hit contig2 i) st3) as [st4|] eqn:Hl2;
      [|done].
    by apply (inv_count_library_hit _ _ _ _ Hn Hl1) in Hl2. }
  apply (wp_wand _ _ _ _ _ Hlib). clear st2 Hc2 Hlib. intros [] st3 Hlib.
  destruct (self_contacts && bool_decide (c_id c1 = c_id c2)) eqn:Hself.
  - apply andb_true_iff in Hself as [Hsc Heq]. apply bool_decide_eq_true in Heq.
    wp_step. cbn [pre_net_write]. eapply inv_pre_net_write; [|exact Hlib|done].
    exists contig1, contig2, a, b. repeat split; try done. right.
    split; [done|lia].
  - destruct (bool_decide (c_id c1 < c_id c2)) eqn:Hlt;
      [|destruct (bool_decide (c_id c1 > c_id c2)) eqn:Hgt].
    + apply bool_decide_eq_true in Hlt.
      do 2 wp_step. cbn [set_temp].
      match goal with |- wp _ _ _ ?s => assert (inv s) as Hst by exact Hlib end.
      wp_step. cbn [pre_net_write].
      eapply inv_pre_net_write; [|exact Hst|done].
      exists contig1, contig2, a, b. repeat split; try done. left. lia.
    + apply bool_decide_eq_true in Hgt.
      do 2 wp_step. cbn [set_temp].
      match goal with |- wp _ _ _ ?s => assert (inv s) as Hst by exact Hlib end.
      wp_step. cbn [pre_net_write].
      eapply inv_pre_net_write; [|exact Hst|done].
      exists contig2, contig1, b, a. repeat split; try done. left. lia.
    + done.
Qed.
End collector_invariant.

Section collector_invariant_files.
Context (contig_data : gmap string contig) (hit_data : option (gmap string hits)).
Context (n_files : nat) (self_contacts : bool).

Local Abbreviation inv := (collector_inv contig_data hit_data n_files self_contacts).

Lemma collect_file_inv i pairs st :
  inv st → wp (collect_file n_files self_contacts i pairs) (λ _, inv) inv st.
Proof.
  intros Hst. unfold collect_file.
  do 2 wp_step. cbn [set_temp].
  match goal with |- wp _ _ _ ?s => assert (inv s) as Hst0 by exact Hst end.
  wp_step.
  eapply wp_wand.
  { apply (wp_for_each inv); [|exact Hst0].
    intros p st1 Hst1. by apply collect_pair_inv. }
  clear st Hst Hst0. intros [] st Hst.
  do 2 wp_step. cbn [set_total].
  match goal with |- wp _ _ _ ?s => assert (inv s) as Hst1 by exact Hst end.
  do 2 wp_step. cbv beta iota. wp_step. unfold ratio_3D. wp_step.
  by destruct (int_truediv _ _).
Qed.

Lemma precompute_network_inv (aligment_files : list (list (list string))) :
  n_files = length aligment_files →
  let run := precompute_network aligment_files contig_data hit_data self_contacts in
  inv run.2 ∧ ∀ contig_data', run.1 = Ok contig_data' → contig_data' = registry run.2.
Proof.
  intros Hn.
  assert (inv (Collector contig_data hit_data [] 0 0 0 0)) as Hst0.
  { split; [apply only_hits_grow_refl|]. split; [apply Forall_nil_2|]. by split. }
  assert (wp (for_enumerate 0 aligment_files
                (collect_file (length aligment_files) self_contacts);;
              st ← read Ok;
              ratio_3D (inter_contacts st) (all_contacts st);;
              mret (registry st))
            (λ cd' st, inv st ∧ cd' = registry st) inv
            (Collector contig_data hit_data [] 0 0 0 0)) as Hwp.
  { wp_step. eapply wp_wand.
    { apply (wp_for_enumerate inv); [|exact Hst0].
      intros i pairs st Hst. rewrite <- Hn. by apply collect_file_inv. }
    intros [] st Hst. do 2 wp_step. cbv beta iota. wp_step. unfold ratio_3D. wp_step.
    destruct (int_truediv _ _); [|done]. by wp_step. }
  unfold wp in Hwp. cbv zeta. unfold precompute_network.
  match type of Hwp with
  | (let (_, _) := ?x in _) => destruct x as [[cd'|e] st]
  end.
  - destruct Hwp as [Hinv ->]. split; [done|]. by intros ? [= <-].
  - split; [done|]. by intros ? [=].
Qed.
End collector_invariant_files.

(** Whatever the alignment files hold, and whether the collector returns or
    raises: every row of the pre-network file is a pair of registered names
    with the lower id first, or with two equal ids when self-contacts are
    enabled. *)
Theorem precompute_network_rows_canonical
    (aligment_files : list (list (list string)))
    (contig_data : gmap string contig) (hit_data : option (gmap string hits))
    (self_contacts : bool) :
  Forall (canonical_row contig_data self_contacts)
    (pre_net (precompute_network aligment_files contig_data hit_data
                self_contacts).2).
Proof.
  destruct (precompute_network_inv contig_data hit_data (length aligment_files)
              self_contacts aligment_files eq_refl) as [(_ & H & _) _].
  exact H.
Qed.

(** Whatever the alignment files hold, and whether the collector returns or
    raises: the registry it leaves behind holds the names it was given,
    every contig with its fields unchanged but for a hit count that did not
    decrease; a returned dict is that registry; the per-file counters keep
    their names and lengths, and are not touched at all when there is a
    single alignment file. *)
Theorem precompute_network_only_hits_grow
    (aligment_files : list (list (list string)))
    (contig_data : gmap string contig) (hit_data : option (gmap string hits))
    (self_contacts : bool) :
  let run := precompute_network aligment_files contig_data hit_data self_contacts in
  only_hits_grow contig_data (registry run.2)
  ∧ (∀ contig_data', run.1 = Ok contig_data' → contig_data' = registry run.2)
  ∧ hits_shape (library_hits run.2) = hits_shape hit_data
  ∧ ((length aligment_files ≤ 1)%nat → library_hits run.2 = hit_data).
Proof.
  destruct (precompute_network_inv contig_data hit_data (length aligment_files)
              self_contacts aligment_files eq_refl) as [(H1 & _ & H3 & H4) H2].
  by repeat split.
Qed.

(** ** A record the collector cannot process *)

Section collect_pair_errors.
Context (n_files i : nat) (self_contacts : bool).

(** A line with fewer than six fields raises [IndexError], a line that
    names a contig the registry does not hold raises [KeyError]; both
    before anything is counted or written: the state is left as it was. *)
Theorem collect_pair_rejects (p : list string) (st : collector) :
  ((length p < 6)%nat →
   collect_pair n_files i self_contacts p st = (Raise IndexError, st))
  ∧ (∀ contig1 contig2,
       p !! 1%nat = Some contig1 → p !! 5%nat = Some contig2 →
       registry st !! contig1 = None ∨ registry st !! contig2 = None →
       collect_pair n_files i self_contacts p st = (Raise KeyError, st)).
Proof.
  split.
  - intros Hlen. unfold collect_pair, read, getitem, mbind, prog_bind.
    destruct (p !! 1%nat) as [contig1|]; [|done].
    rewrite (lookup_ge_None_2 p 5) by lia. done.
  - intros contig1 contig2 H1 H5 Hreg.
    unfold collect_pair, read, getitem, dict_get, mbind, prog_bind, result_bind.
    rewrite H1, H5.
    destruct (registry st !! contig1) as [c1|]; [|done].
    destruct Hreg as [?|Hreg]; [done|]. by rewrite Hreg.
Qed.
End collect_pair_errors.

(** [collect_pair_rejects] at a line of two fields, and at a line naming
    the unregistered contig "c". *)
Lemma collect_pair_rejects_witness :
  collect_pair 1 0 false ["read"; "a"] (Collector (two_contig_data None None) None [] 0 0 0 0)
  = (Raise IndexError, Collector (two_contig_data None None) None [] 0 0 0 0)
  ∧ collect_pair 1 0 false (pair_line "a" "c")
      (Collector (two_contig_data None None) None [] 0 0 0 0)
    = (Raise KeyError, Collector (two_contig_data None None) None [] 0 0 0 0).
Proof.
  split.
  - apply (proj1 (collect_pair_rejects 1 0 false _ _)). simpl. lia.
  - apply (proj2 (collect_pair_rejects 1 0 false _ _) "a" "c"); [done|done|].
    right. vm_compute. reflexivity.
Defined.

(** ** The pair collector on processable files *)

Lemma hits_from_app name pairs1 pairs2 :
  hits_from name (pairs1 ++ pairs2) = hits_from name pairs1 + hits_from name pairs2.
Proof. induction pairs1 as [|p pairs1 IH]; simpl; [done|]. rewrite IH. lia. Qed.

Lemma add_hits_fmap k1 k2 (x : option contig) :
  add_hits k2 <$> (add_hits k1 <$> x) = add_hits (k1 + k2) <$> x.
Proof. destruct x as [c|]; [|done]. simpl. by rewrite add_hits_add_hits. Qed.

Section collect_all.
Context (contig_data : gmap string contig) (n_files : nat) (self_contacts : bool).

Local Abbreviation collected := (collected contig_data self_contacts).

Lemma collect_pair_collected i seen p st :
  collected seen st → processable n_files i st p →
  ∃ st', collect_pair n_files i self_contacts p st = (Ok (), st')
    ∧ collected (seen ++ [p]) st'
    ∧ same_shape st st'
    ∧ all_contacts_temp st' = all_contacts_temp st + 1
    ∧ all_contacts st' = all_contacts st
    ∧ inter_contacts st' = inter_contacts st.
Proof.
  intros [Hreg Hnet] Hp.
  pose proof Hp as (contig1 & contig2 & Hp1 & Hp5 & [r1 H1] & [r2 H2] & Hc1 & Hc2).
  destruct (collect_pair_run n_files i self_contacts p st contig1 contig2 r1 r2)
    as (st' & emitted & Hrun & Hreg' & Hnet' & He1 & He2 & He3 & He4 & Hsh & Hall
        & Hall' & Hinter); [done..| |].
  { intros Hn.
    destruct (has_counter_inv _ _ _ _ Hc1 Hn) as (hd & h1 & Hhd & Hh1 & Hi1).
    destruct (has_counter_inv _ _ _ _ Hc2 Hn) as (hd' & h2 & Hhd' & Hh2 & Hi2).
    rewrite Hhd in Hhd'. injection Hhd' as <-. by exists hd, h1, h2. }
  exists st'. split; [done|]. split; [|split; [|done]].
  - split.
    + intros name. rewrite Hreg', Hreg, add_hits_fmap, hits_from_app. simpl.
      rewrite Hp1, Hp5. do 2 f_equal. lia.
    + rewrite Hnet', Hnet, bind_app. f_equal. simpl. rewrite app_nil_r.
      unfold emitted_row. rewrite Hp1, Hp5.
      pose proof (Hreg contig1) as Ha. pose proof (Hreg contig2) as Hb.
      rewrite H1 in Ha. rewrite H2 in Hb.
      destruct (contig_data !! contig1) as [a|]; [|done].
      destruct (contig_data !! contig2) as [b|]; [|done].
      injection Ha as ->. injection Hb as ->. simpl in *.
      destruct self_contacts; simpl; repeat case_bool_decide;
        first [solve [apply He1; done || lia] | solve [apply He2; lia]
              | solve [apply He3; lia] | solve [apply He4; done || lia]].
  - split; [|done]. intros name. rewrite Hreg'. by rewrite fmap_is_Some.
Qed.

Lemma for_each_collected i pairs : ∀ seen st,
  collected seen st → Forall (processable n_files i st) pairs →
  ∃ st', for_each pairs (collect_pair n_files i self_contacts) st = (Ok (), st')
    ∧ collected (seen ++ pairs) st'
    ∧ same_shape st st'
    ∧ all_contacts_temp st' = all_contacts_temp st + Z.of_nat (length pairs)
    ∧ all_contacts st' = all_contacts st
    ∧ inter_contacts st' = inter_contacts st.
Proof.
  induction pairs as [|p pairs IH]; intros seen st Hst Hall.
  - exists st. rewrite app_nil_r. split; [done|]. split; [done|].
    split; [apply same_shape_refl|]. simpl length. repeat split; lia.
  - apply Forall_cons in Hall as [Hp Hall].
    destruct (collect_pair_collected i seen p st Hst Hp)
      as (st1 & Hrun1 & Hst1 & Hsh1 & Hn1 & Ha1 & Hi1).
    destruct (IH (seen ++ [p]) st1 Hst1) as (st' & Hrun & Hst' & Hsh & Hn & Ha & Hi).
    { eapply Forall_impl; [done|]. intros q. by apply processable_same_shape. }
    exists st'. cbn [for_each]. rewrite (bind_ok _ _ _ _ _ Hrun1).
    split; [done|]. rewrite <- app_assoc in Hst'. split; [done|].
    split; [by eapply same_shape_trans|]. simpl length. repeat split; lia.
Qed.
End collect_all.

Section collect_files_collected.
Context (contig_data : gmap string contig) (n_files : nat) (self_contacts : bool).

Local Abbreviation collected := (collected contig_data self_contacts).

Lemma collect_file_collected i pairs seen st :
  pairs ≠ [] →
  collected seen st → Forall (processable n_files i st) pairs →
  ∃ st', collect_file n_files self_contacts i pairs st = (Ok (), st')
    ∧ collected (seen ++ pairs) st'
    ∧ same_shape st st'
    ∧ all_contacts st' = all_contacts st + Z.of_nat (length pairs).
Proof.
  intros Hne Hst Hall.
  destruct (for_each_collected contig_data n_files self_contacts i pairs seen
              (Collector (registry st) (library_hits st) (pre_net st) 0 0
                 (all_contacts st) (inter_contacts st)))
    as (st1 & Hrun & Hst1 & Hsh & Hn & Ha & Hi).
  { exact Hst. }
  { eapply Forall_impl; [done|]. intros q. by apply processable_same_shape. }
  unfold collect_file.
  erewrite bind_ok by (unfold update, set_temp; reflexivity).
  rewrite (bind_ok _ _ _ _ _ Hrun).
  destruct st1 as [cd1 hd1 net1 at1 it1 a1 i1].
  cbn [all_contacts_temp all_contacts inter_contacts] in Hn, Ha, Hi.
  unfold update, read, set_total, ratio_3D, int_truediv, mbind, prog_bind,
    mret, prog_ret. cbn.
  assert (at1 ≠ 0) as Hpos by (destruct pairs; [done|cbn [length] in Hn; lia]).
  rewrite decide_False by done.
  eexists. split; [reflexivity|]. split; [exact Hst1|].
  split; [by destruct Hsh|]. cbn. lia.
Qed.

Lemma for_enumerate_collected files : ∀ i seen st,
  Forall (λ pairs, pairs ≠ []) files →
  collected seen st →
  (∀ j pairs, files !! j = Some pairs → Forall (processable n_files (i + j) st) pairs) →
  ∃ st', for_enumerate i files (collect_file n_files self_contacts) st = (Ok (), st')
    ∧ collected (seen ++ concat files) st'
    ∧ all_contacts st' = all_contacts st + Z.of_nat (length (concat files)).
Proof.
  induction files as [|pairs files IH]; intros i seen st Hne Hst Hall.
  - exists st. cbn [concat for_enumerate]. rewrite app_nil_r.
    split; [done|]. split; [done|]. simpl. lia.
  - apply Forall_cons in Hne as [Hne1 Hne].
    destruct (collect_file_collected i pairs seen st Hne1 Hst)
      as (st1 & Hrun1 & Hst1 & Hsh1 & Ha1).
    { specialize (Hall 0%nat pairs eq_refl). by rewrite Nat.add_0_r in Hall. }
    destruct (IH (S i) (seen ++ pairs) st1 Hne Hst1) as (st' & Hrun & Hst' & Ha).
    { intros j pairs' Hj. specialize (Hall (S j) pairs' Hj).
      replace (S i + j)%nat with (i + S j)%nat by lia.
      eapply Forall_impl; [done|]. intros q. by apply processable_same_shape. }
    exists st'. cbn [for_enumerate]. rewrite (bind_ok _ _ _ _ _ Hrun1).
    split; [done|]. cbn [concat]. rewrite app_assoc. split; [done|].
    rewrite length_app. lia.
Qed.
End collect_files_collected.

(** The collector on files of processable lines. *)
Lemma precompute_network_processable
    (aligment_files : list (list (list string)))
    (contig_data : gmap string contig) (hit_data : option (gmap string hits))
    (self_contacts : bool) :
  aligment_files ≠ [] →
  Forall (λ pairs, pairs ≠ []) aligment_files →
  (∀ j pairs, aligment_files !! j = Some pairs →
     Forall (processable (length aligment_files) j
               (Collector contig_data hit_data [] 0 0 0 0)) pairs) →
  ∃ st,
    precompute_network aligment_files contig_data hit_data self_contacts
    = (Ok (registry st), st)
    ∧ (∀ name, registry st !! name
               = add_hits (hits_from name (concat aligment_files))
                 <$> contig_data !! name)
    ∧ pre_net st = concat aligment_files ≫= emitted_row contig_data self_contacts
    ∧ all_contacts st = Z.of_nat (length (concat aligment_files)).
Proof.
  intros Hfiles Hne Hall. unfold precompute_network.
  destruct (for_enumerate_collected contig_data (length aligment_files) self_contacts
              aligment_files 0%nat [] (Collector contig_data hit_data [] 0 0 0 0))
    as (st & Hrun & [Hreg Hnet] & Ha); [done| |done|].
  { split; [|done]. intros name. simpl.
    destruct (contig_data !! name) as [[]|]; [|done]. simpl. unfold add_hits. simpl.
    do 2 f_equal. lia. }
  rewrite (bind_ok _ _ _ _ _ Hrun).
  assert (0 < all_contacts st) as Hpos.
  { rewrite Ha. cbn [all_contacts].
    destruct aligment_files as [|[|p pairs] files]; [done| |].
    - by apply Forall_cons in Hne as [? _].
    - simpl. lia. }
  destruct st as [cd1 hd1 net1 at1 it1 a1 i1]. cbn [all_contacts] in Hpos.
  unfold read, ratio_3D, int_truediv, mbind, prog_bind, mret, prog_ret. cbn.
  rewrite decide_False by lia.
  exists (Collector cd1 hd1 net1 at1 it1 a1 i1). split; [reflexivity|].
  cbn in *. by repeat split.
Qed.

(** When every alignment file has at least one line and every line names,
    in its fields 1 and 5, two registered contigs (with their per-file
    counters when there are several files), the collector returns the
    registry it mutated: the hit count of every contig has grown by the
    number of times the lines name it (twice for a line naming it at both
    ends) and nothing else changed; the pre-network file holds, in the
    order of the lines, the row of every line but the self-pairs dropped
    when self-contacts are disabled, the lower id first; and the total of
    contacts is the number of lines. *)
Theorem precompute_network_collects
    (aligment_files : list (list (list string)))
    (contig_data : gmap string contig) (hit_data : option (gmap string hits))
    (self_contacts : bool) :
  aligment_files ≠ [] →
  Forall (λ pairs, pairs ≠ []) aligment_files →
  (∀ j pairs, aligment_files !! j = Some pairs →
     Forall (processable (length aligment_files) j
               (Collector contig_data hit_data [] 0 0 0 0)) pairs) →
  ∃ st,
    precompute_network aligment_files contig_data hit_data self_contacts
    = (Ok (registry st), st)
    ∧ (∀ name, registry st !! name
               = add_hits (hits_from name (concat aligment_files))
                 <$> contig_data !! name)
    ∧ pre_net st = concat aligment_files ≫= emitted_row contig_data self_contacts
    ∧ all_contacts st = Z.of_nat (length (concat aligment_files)).
Proof. apply precompute_network_processable. Qed.

(** [precompute_network_collects] at one file of three lines, self-contacts
    disabled: the self-pair is counted and not written. *)
Lemma precompute_network_collects_witness :
  ∃ st,
    precompute_network [[pair_line "b" "a"; pair_line "a" "a"; pair_line "a" "b"]]
      (two_contig_data None None) None false
    = (Ok (registry st), st)
    ∧ pre_net st = [["a"; "b"]; ["a"; "b"]]
    ∧ c_hit <$> registry st !! "a" = Some 4
    ∧ c_hit <$> registry st !! "b" = Some 2.
Proof.
  destruct (precompute_network_collects
              [[pair_line "b" "a"; pair_line "a" "a"; pair_line "a" "b"]]
              (two_contig_data None None) None false)
    as (st & Hrun & Hreg & Hnet & _).
  - discriminate.
  - apply Forall_singleton. discriminate.
  - intros j pairs Hj. destruct j as [|j]; [|done]. injection Hj as <-.
    repeat (apply Forall_cons; split); try apply Forall_nil_2;
      (eexists _, _; split; [reflexivity|]; split; [reflexivity|];
       split; [eexists; vm_compute; reflexivity|];
       split; [eexists; vm_compute; reflexivity|];
       split; intros Hn; simpl in Hn; lia).
  - exists st. split; [exact Hrun|]. split; [rewrite Hnet; vm_compute; reflexivity|].
    rewrite !Hreg. split; vm_compute; reflexivity.
Defined.

(** ** merge_nodes: when it raises, and what it returns *)

Section dict_keys.
Context {K V : Type} `{EqDecision K}.
Implicit Types (d : list (K * V)) (k : K) (v : V).

Lemma keys_del d k : Dict.keys (Dict.del d k) = filter (λ k', k' ≠ k) (Dict.keys d).
Proof.
  unfold Dict.keys. induction d as [|[k0 v0] d IH]; [done|].
  cbn [Dict.del]. rewrite fmap_cons. cbn [fst]. rewrite filter_cons.
  destruct (decide (k0 = k)) as [->|Hne].
  - rewrite decide_False by (by intros ?). exact IH.
  - rewrite decide_True by done. rewrite fmap_cons. cbn [fst]. by rewrite IH.
Qed.

Lemma NoDup_keys_del d k : NoDup (Dict.keys d) → NoDup (Dict.keys (Dict.del d k)).
Proof. intros Hnd. rewrite keys_del. by apply NoDup_filter. Qed.
End dict_keys.

Section remove_facts.
Context {W : Type}.
Implicit Types (G : graph W) (u v a b n m : node) (w : W).

Lemma NoDup_keys_drop_half G u n :
  NoDup (Dict.keys G) → NoDup (Dict.keys (drop_half G u n)).
Proof.
  intros Hnd. unfold drop_half. destruct (Dict.get G u); [|done].
  by apply NoDup_keys_set.
Qed.

Lemma rows_NoDup_drop_half G u n : rows_NoDup G → rows_NoDup (drop_half G u n).
Proof.
  intros Hrows m nbrs. unfold drop_half.
  destruct (Dict.get G u) as [nbrs_u|] eqn:Hu; [|apply Hrows].
  rewrite get_set. case_decide; [|apply Hrows].
  intros [= <-]. apply NoDup_keys_del. by eapply Hrows.
Qed.

Lemma foldl_drop_half_NoDup n us : ∀ G,
  NoDup (Dict.keys G) → rows_NoDup G →
  NoDup (Dict.keys (foldl (λ G' u, drop_half G' u n) G us))
  ∧ rows_NoDup (foldl (λ G' u, drop_half G' u n) G us).
Proof.
  induction us as [|u us IH]; intros G Hnd Hrows; cbn [foldl]; [done|].
  apply IH; [by apply NoDup_keys_drop_half|by apply rows_NoDup_drop_half].
Qed.

(** A node that is removed was a node, and only it disappears. *)
Lemma remove_node_nodes G n G' :
  remove_node G n = Ok G' →
  is_node G n ∧ ∀ m, is_node G' m ↔ m ≠ n ∧ is_node G m.
Proof.
  unfold remove_node. destruct (Dict.get G n) as [nbrs|] eqn:Hn; [|done].
  intros [= <-]. split; [by eexists|].
  destruct (foldl_drop_half n (Dict.keys nbrs) G) as [Hnode _].
  intros m. unfold is_node at 1. rewrite get_del. case_decide; subst.
  - split; [by intros [? [=]]|]. by intros [? _].
  - fold (is_node (foldl (λ G' u, drop_half G' u n) G (Dict.keys nbrs)) m).
    rewrite Hnode. naive_solver.
Qed.

Lemma remove_node_raises G n e : remove_node G n = Raise e → e = NetworkXError.
Proof. unfold remove_node. destruct (Dict.get G n); [done|]. by intros [= <-]. Qed.

Lemma remove_node_well_formed G n G' :
  well_formed G → remove_node G n = Ok G' → well_formed G'.
Proof.
  intros (Hnd & Hrows & Hsym) Hrun.
  destruct (remove_node_nodes G n G' Hrun) as [Hn _].
  destruct (remove_node_spec G n Hn Hsym) as (G'' & Hrun' & _ & Hedge).
  rewrite Hrun in Hrun'. injection Hrun' as <-.
  unfold remove_node in Hrun. destruct (Dict.get G n) as [nbrs|]; [|done].
  injection Hrun as <-.
  destruct (foldl_drop_half_NoDup n (Dict.keys nbrs) G Hnd Hrows) as [Hnd' Hrows'].
  split; [by apply NoDup_keys_del|]. split.
  - intros m nbrs_m. rewrite get_del. case_decide; [done|]. apply Hrows'.
  - intros u v. rewrite !Hedge, (Hsym u v). repeat case_decide; naive_solver.
Qed.

Lemma remove_nodes_Ok ms : ∀ G G',
  remove_nodes G ms = Ok G' →
  NoDup ms ∧ (∀ m, m ∈ ms → is_node G m) ∧ (well_formed G → well_formed G').
Proof.
  induction ms as [|n ms IH]; intros G G' Hrun; cbn [remove_nodes] in Hrun.
  - injection Hrun as <-. split; [apply NoDup_nil_2|]. split; [|done].
    intros m Hm. by apply elem_of_nil in Hm.
  - destruct (remove_node G n) as [G1|e] eqn:Hstep; [|done].
    cbn [mbind result_bind] in Hrun.
    destruct (remove_node_nodes G n G1 Hstep) as [Hn Hnode].
    destruct (IH G1 G' Hrun) as (Hnd & Hin & Hwf). split; [|split].
    + apply NoDup_cons. split; [|done]. intros Hm. apply Hin, Hnode in Hm. naive_solver.
    + intros m Hm. apply elem_of_cons in Hm as [->|Hm]; [done|].
      by apply Hin, Hnode in Hm as [_ Hm].
    + intros HG. apply Hwf. by eapply remove_node_well_formed.
Qed.

Lemma remove_nodes_raises ms : ∀ G e, remove_nodes G ms = Raise e → e = NetworkXError.
Proof.
  induction ms as [|n ms IH]; intros G e Hrun; cbn [remove_nodes] in Hrun; [done|].
  destruct (remove_node G n) as [G1|e'] eqn:Hstep.
  - by eapply IH.
  - injection Hrun as <-. by eapply remove_node_raises.
Qed.
End remove_facts.

Section merge_loop_facts.
Context {W : Type} (add : W → W → W).
Context (nodes : list node) (new_node : node).
Implicit Types (G : graph W) (a b x m : node) (w : W).

Lemma redirect_well_formed G other w :
  is_node G new_node → well_formed G →
  well_formed (redirect add new_node G other w).
Proof.
  intros Hnew (Hnd & Hrows & Hsym).
  destruct (redirect_spec add new_node G other w Hnew Hsym) as (_ & Hsym' & _).
  split; [|split; [|done]]; unfold redirect;
    destruct (edge_weight G other new_node).
  - unfold put_edge. by do 2 apply NoDup_keys_put_half.
  - by apply well_formed_add_edge.
  - unfold put_edge. by do 2 apply rows_NoDup_put_half.
  - by apply well_formed_add_edge.
Qed.

Lemma merge_loop_well_formed es : ∀ G,
  is_node G new_node → well_formed G →
  let G' := foldl (merge_step add nodes new_node) G es in
  is_node G' new_node ∧ well_formed G'
  ∧ ∀ m, is_node G' m →
      is_node G m ∨ ∃ n1 n2 w, (n1, n2, w) ∈ es ∧ (m = n1 ∨ m = n2).
Proof.
  induction es as [|[[n1 n2] w] es IH]; intros G Hnew Hwf; cbn [foldl].
  - split; [done|]. split; [done|]. intros m Hm. by left.
  - cbv zeta.
    change (merge_step add nodes new_node G (n1, n2, w))
      with (if decide (n1 ∈ nodes) then redirect add new_node G n2 w
            else if decide (n2 ∈ nodes) then redirect add new_node G n1 w
                 else G).
    assert (∀ other, other = n1 ∨ other = n2 →
              let G0 := redirect add new_node G other w in
              let G' := foldl (merge_step add nodes new_node) G0 es in
              is_node G' new_node ∧ well_formed G'
              ∧ ∀ m, is_node G' m →
                  is_node G m
                  ∨ ∃ n1' n2' w', (n1', n2', w') ∈ (n1, n2, w) :: es
                                  ∧ (m = n1' ∨ m = n2')) as Hredirect.
    { intros other Hother G0 G'. subst G0 G'.
      destruct (redirect_spec add new_node G other w Hnew (proj2 (proj2 Hwf)))
        as (Hnode & _ & _).
      destruct (IH (redirect add new_node G other w))
        as (H1 & H2 & H3); [apply Hnode; by right|by apply redirect_well_formed|].
      split; [done|]. split; [done|].
      intros m Hm. destruct (H3 m Hm) as [Hm'|(n1' & n2' & w' & Hin & Hm')].
      - apply Hnode in Hm' as [->|Hm']; [|by left].
        right. exists n1, n2, w. split; [apply list_elem_of_here|done].
      - right. exists n1', n2', w'. split; [by apply list_elem_of_further|done]. }
    destruct (decide (n1 ∈ nodes)); [apply Hredirect; by right|].
    destruct (decide (n2 ∈ nodes)); [apply Hredirect; by left|].
    destruct (IH G Hnew Hwf) as (H1 & H2 & H3).
    split; [done|]. split; [done|].
    intros m Hm. destruct (H3 m Hm) as [Hm'|(n1' & n2' & w' & Hin & Hm')]; [by left|].
    right. exists n1', n2', w'. split; [by apply list_elem_of_further|done].
Qed.
End merge_loop_facts.

(** The graph before the merged nodes are removed. *)
Lemma merge_nodes_before_removal {W : Type} (add : W → W → W) (G1 : graph W)
    (nodes : list node) (new_node : node) :
  well_formed G1 →
  let G2 := foldl (merge_step add nodes new_node) (add_node (copy G1) new_node)
              (edges G1) in
  well_formed G2 ∧ ∀ m, is_node G2 m → m = new_node ∨ is_node G1 m.
Proof.
  intros Hwf. destruct (copy_spec G1 Hwf) as (Hcnode & Hcedge & Hcwf).
  destruct (merge_loop_well_formed add nodes new_node (edges G1)
              (add_node (copy G1) new_node)) as (_ & Hwf2 & Hback).
  { apply is_node_add_node. by left. }
  { destruct Hcwf as (Hnd & Hrows & Hsym). split; [|split].
    - by apply NoDup_keys_add_node.
    - by apply rows_NoDup_add_node.
    - intros u v. by rewrite !edge_weight_add_node. }
  split; [exact Hwf2|].
  intros m Hm. destruct (Hback m Hm) as [Hm'|(n1 & n2 & w & Hin & Hm')].
  - apply is_node_add_node in Hm' as [?|Hm']; [by left|]. right. by apply Hcnode.
  - right. destruct (edges_endpoints G1 n1 n2 w Hwf Hin).
    by destruct Hm' as [->| ->].
Qed.

(** Contracting a list that names a node twice, or that names a node the
    graph does not hold (other than the new node itself), raises
    [NetworkXError]: the loop that removes the merged nodes fails on it. *)
Theorem merge_nodes_rejects {W : Type} (add : W → W → W) (G1 : graph W)
    (nodes : list node) (new_node : node) :
  well_formed G1 →
  ¬ NoDup nodes ∨ (∃ m, m ∈ nodes ∧ m ≠ new_node ∧ ¬ is_node G1 m) →
  merge_nodes add G1 nodes new_node = Raise NetworkXError.
Proof.
  intros Hwf Hbad. unfold merge_nodes.
  destruct (merge_nodes_before_removal add G1 nodes new_node Hwf) as [_ Hback].
  cbv zeta in Hback.
  destruct (remove_nodes _ nodes) as [G|e] eqn:Hrun.
  - exfalso. apply remove_nodes_Ok in Hrun as (Hnd & Hin & _).
    destruct Hbad as [Hdup|(m & Hm & Hne & Hout)]; [done|].
    destruct (Hback m (Hin m Hm)); done.
  - f_equal. by eapply remove_nodes_raises.
Qed.

(** A graph returned by a contraction is again a graph as networkx keeps it,
    so that it can be contracted again. *)
Theorem merge_nodes_well_formed {W : Type} (add : W → W → W) (G1 G : graph W)
    (nodes : list node) (new_node : node) :
  well_formed G1 →
  merge_nodes add G1 nodes new_node = Ok G →
  well_formed G.
Proof.
  intros Hwf Hrun. unfold merge_nodes in Hrun.
  destruct (merge_nodes_before_removal add G1 nodes new_node Hwf) as [Hwf2 _].
  apply remove_nodes_Ok in Hrun as (_ & _ & Hwf'). by apply Hwf'.
Qed.

Lemma three_edges_well_formed : well_formed three_edges.
Proof. unfold three_edges. repeat apply well_formed_add_edge. apply well_formed_empty. Qed.

(** [merge_nodes_rejects] at a list naming node 2 twice, and at a list
    naming the node 7, which the graph does not hold. *)
Lemma merge_nodes_rejects_witness :
  merge_nodes fadd three_edges [NInt 2; NInt 2] (NStr "bin_1") = Raise NetworkXError
  ∧ merge_nodes fadd three_edges [NInt 2; NInt 7] (NStr "bin_1") = Raise NetworkXError.
Proof.
  split; apply merge_nodes_rejects; try apply three_edges_well_formed.
  - left. intros Hnd. apply NoDup_cons in Hnd as [Hout _]. apply Hout.
    apply list_elem_of_here.
  - right. exists (NInt 7). split; [apply list_elem_of_further, list_elem_of_here|].
    split; [discriminate|]. intros Hin. apply get_is_Some_keys in Hin.
    revert Hin. apply (bool_decide_unpack _). vm_compute. exact I.
Defined.

(** [merge_nodes_well_formed] at the contraction of nodes 2 and 3. *)
Lemma merge_nodes_well_formed_witness :
  well_formed [(NInt 5, [(NStr "bin_1", float_of_Z 7)]);
               (NStr "bin_1", [(NInt 5, float_of_Z 7)])].
Proof.
  apply (merge_nodes_well_formed fadd three_edges _ [NInt 2; NInt 3] (NStr "bin_1")
           three_edges_well_formed).
  vm_compute. reflexivity.
Defined.

(** ** The writers *)

Lemma split_tab_no_tab s : no_tab s = true → split_tab s = [s].
Proof.
  induction s as [|c s IH]; [done|]. cbn [no_tab split_tab].
  intros [Hc Hs]%andb_true_iff. apply negb_true_iff in Hc. rewrite Hc.
  by rewrite IH.
Qed.

Lemma split_tab_cons s rest :
  no_tab s = true → split_tab (s +:+ TAB +:+ rest) = s :: split_tab rest.
Proof.
  induction s as [|c s IH]; [done|]. cbn [no_tab].
  intros [Hc Hs]%andb_true_iff. apply negb_true_iff in Hc.
  change (String c s +:+ TAB +:+ rest) with (String c (s +:+ TAB +:+ rest)).
  cbn [split_tab]. rewrite Hc. by rewrite IH.
Qed.

Lemma split_tab_join fields :
  Forall (λ s, no_tab s = true) fields → fields ≠ [] →
  split_tab (join_tab fields) = fields.
Proof.
  induction 1 as [|s fields Hs Hfields IH]; [done|]. intros _.
  destruct fields as [|s' fields].
  - by apply split_tab_no_tab.
  - change (join_tab (s :: s' :: fields)) with (s +:+ TAB +:+ join_tab (s' :: fields)).
    rewrite split_tab_cons by done. by rewrite IH.
Qed.

Lemma string_app_assoc s1 s2 s3 : (s1 +:+ s2) +:+ s3 = s1 +:+ s2 +:+ s3.
Proof.
  induction s1 as [|c s1 IH]; [done|].
  change ((String c s1 +:+ s2) +:+ s3) with (String c ((s1 +:+ s2) +:+ s3)).
  by rewrite IH.
Qed.

Lemma no_tab_app s1 s2 : no_tab (s1 +:+ s2) = no_tab s1 && no_tab s2.
Proof.
  induction s1 as [|c s1 IH]; [done|].
  change (String c s1 +:+ s2) with (String c (s1 +:+ s2)).
  cbn [no_tab]. by rewrite IH, andb_assoc.
Qed.

Lemma no_tab_pretty_N_char x s : no_tab (String (pretty_N_char x) s) = no_tab s.
Proof. unfold pretty_N_char. by repeat case_match. Qed.

Lemma no_tab_pretty_N_go x : ∀ s, no_tab s = true → no_tab (pretty_N_go x s) = true.
Proof.
  induction (N.lt_wf_0 x) as [x _ IH]; intros s Hs.
  assert (x = 0 ∨ 0 < x)%N as [->|Hpos] by lia.
  - by rewrite pretty_N_go_0.
  - rewrite pretty_N_go_step by done. apply IH.
    + by apply N.div_lt.
    + by rewrite no_tab_pretty_N_char.
Qed.

Lemma no_tab_pretty_N (x : N) : no_tab (pretty x) = true.
Proof.
  unfold pretty, pretty_N. case_decide; [done|]. by apply no_tab_pretty_N_go.
Qed.

Lemma no_tab_pretty_Z (z : Z) : no_tab (pretty z) = true.
Proof.
  destruct z as [|p|p]; [done| |].
  - apply (no_tab_pretty_N (Npos p)).
  - change (pretty (Zneg p)) with ("-" +:+ pretty (Npos p)).
    rewrite no_tab_app. by rewrite (no_tab_pretty_N (Npos p)).
Qed.

Lemma no_tab_str_or_dash {A} (str : A → string) (field : option A) :
  (∀ x, no_tab (str x) = true) → no_tab (str_or_dash str field) = true.
Proof. intros H. destruct field; [apply H|reflexivity]. Qed.

Lemma no_tab_str_float_parts x : no_tab (str_float_parts x) = true.
Proof.
  destruct x as [[]|[]| |s m e]; try done. unfold str_float_parts.
  rewrite !no_tab_app, !no_tab_pretty_Z. by destruct s.
Qed.

(** [write_contig_data] writes the header, then one line per contig in the
    order of the dict.  When no name and no printed float holds a
    tabulation, the line of a contig, without its final newline, splits on
    tabulations into exactly the seven fields that the header names: id,
    name, length, GC content, hit count, coverage and restriction site
    count, the last two being "-" when the registry holds none. *)
Theorem write_contig_data_fields (str_float : spec_float → string)
    (contig_data : list (string * contig)) :
  (∀ x, no_tab (str_float x) = true) →
  Forall (λ item, no_tab item.1 = true) contig_data →
  length (write_contig_data str_float contig_data) = S (length contig_data)
  ∧ write_contig_data str_float contig_data !! 0%nat
    = Some (join_tab ["ID"; "Name"; "Size"; "GC_content"; "Hit"; "Shotgun_coverage";
                      "Restriction_site"] +:+ NEWLINE)
  ∧ ∀ i name c, contig_data !! i = Some (name, c) →
      ∃ line,
        write_contig_data str_float contig_data !! S i = Some (line +:+ NEWLINE)
        ∧ split_tab line
          = [pretty (c_id c); name; pretty (c_length c); str_float (c_GC c);
             pretty (c_hit c); str_or_dash str_float (c_coverage c);
             str_or_dash pretty (c_RS c)].
Proof.
  intros Hfloat Hnames. split; [|split].
  - unfold write_contig_data. simpl. by rewrite length_fmap.
  - reflexivity.
  - intros i name c Hi.
    exists (join_tab [pretty (c_id c); name; pretty (c_length c); str_float (c_GC c);
                      pretty (c_hit c); str_or_dash str_float (c_coverage c);
                      str_or_dash pretty (c_RS c)]).
    split.
    + unfold write_contig_data. rewrite lookup_cons_ne_0 by done.
      cbn [pred]. rewrite list_lookup_fmap, Hi. cbn [fmap option_fmap option_map fst snd].
      f_equal. unfold contig_data_line. cbn [join_tab].
      by rewrite !string_app_assoc.
    + apply split_tab_join; [|done].
      rewrite Forall_forall in Hnames. specialize (Hnames _ (list_elem_of_lookup_2 _ _ _ Hi)).
      repeat (apply Forall_cons; split); try apply Forall_nil_2;
        try apply no_tab_pretty_Z; try done.
      * by apply no_tab_str_or_dash.
      * apply no_tab_str_or_dash. apply no_tab_pretty_Z.
Qed.

(** [write_hit_data] writes one line per contig in the order of the dict.
    When no name holds a tabulation, the line of a contig with at least one
    per-file counter, without its final newline, splits on tabulations into
    its id, its name and one count per alignment file. *)
Theorem write_hit_data_fields (hit_data : list (string * hits)) :
  Forall (λ item, no_tab item.1 = true) hit_data →
  length (write_hit_data hit_data) = length hit_data
  ∧ ∀ i name h, hit_data !! i = Some (name, h) → h_hit h ≠ [] →
      ∃ line,
        write_hit_data hit_data !! i = Some (line +:+ NEWLINE)
        ∧ split_tab line = pretty (h_id h) :: name :: (pretty <$> h_hit h).
Proof.
  intros Hnames. split; [unfold write_hit_data; by rewrite length_fmap|].
  intros i name h Hi Hhits.
  exists (join_tab (pretty (h_id h) :: name :: (pretty <$> h_hit h))). split.
  - unfold write_hit_data. rewrite list_lookup_fmap, Hi.
    cbn [fmap option_fmap option_map fst snd]. f_equal. unfold hit_data_line.
    destruct (h_hit h) as [|x xs]; [done|].
    change (join_tab (pretty (h_id h) :: name :: (pretty <$> x :: xs)))
      with (pretty (h_id h) +:+ TAB +:+ name +:+ TAB +:+ join_tab (pretty <$> x :: xs)).
    by rewrite !string_app_assoc.
  - apply split_tab_join; [|done].
    rewrite Forall_forall in Hnames. specialize (Hnames _ (list_elem_of_lookup_2 _ _ _ Hi)).
    apply Forall_cons. split; [apply no_tab_pretty_Z|].
    apply Forall_cons. split; [done|].
    apply Forall_fmap, Forall_forall. intros x _. apply no_tab_pretty_Z.
Qed.

(** [write_contig_data_fields] at the registry of two contigs after one
    contact between them. *)
Lemma write_contig_data_fields_witness :
  ∃ line,
    write_contig_data str_float_parts
      [("a", Contig 1 4 (float_of_Z 50) 1 None None);
       ("b", Contig 2 2 (float_of_Z 100) 1 None (Some 3))] !! 2%nat
    = Some (line +:+ NEWLINE)
    ∧ split_tab line = ["2"; "b"; "2"; str_float_parts (float_of_Z 100); "1"; "-"; "3"].
Proof.
  destruct (write_contig_data_fields str_float_parts
              [("a", Contig 1 4 (float_of_Z 50) 1 None None);
               ("b", Contig 2 2 (float_of_Z 100) 1 None (Some 3))]
              no_tab_str_float_parts) as (_ & _ & Hline).
  - repeat (apply Forall_cons; split); try apply Forall_nil_2; reflexivity.
  - destruct (Hline 1%nat "b" (Contig 2 2 (float_of_Z 100) 1 None (Some 3)) eq_refl)
      as (line & Hwritten & Hfields).
    exists line. split; [exact Hwritten|]. rewrite Hfields. reflexivity.
Defined.

(** [write_hit_data_fields] at two contigs and two alignment files. *)
Lemma write_hit_data_fields_witness :
  ∃ line,
    write_hit_data [("a", Hits 1 [2; 0]); ("b", Hits 2 [1; 1])] !! 0%nat
    = Some (line +:+ NEWLINE)
    ∧ split_tab line = ["1"; "a"; "2"; "0"].
Proof.
  destruct (write_hit_data_fields [("a", Hits 1 [2; 0]); ("b", Hits 2 [1; 1])])
    as [_ Hline].
  - repeat (apply Forall_cons; split); try apply Forall_nil_2; reflexivity.
  - destruct (Hline 0%nat "a" (Hits 1 [2; 0]) eq_refl) as (line & Hwritten & Hfields);
      [discriminate|].
    exists line. split; [exact Hwritten|]. rewrite Hfields. reflexivity.
Defined.
(** [bins_network_contigs] at the graph of three edges, contigs 2 and 3
    contracted into bin 1 and contig 5 of interest. *)
Lemma bins_network_contigs_witness :
  contract_bins [(CInt 1, [CInt 2; CInt 3])] (node_of_cell <$> [CInt 5]) three_edges
  = Ok ([NInt 5; NStr "bin_1"],
        [(NInt 5, [(NStr "bin_1", float_of_Z 7)]);
         (NStr "bin_1", [(NInt 5, float_of_Z 7)])])
  ∧ CInt 5 ∈ [CInt 5].
Proof.
  assert (contract_bins [(CInt 1, [CInt 2; CInt 3])] (node_of_cell <$> [CInt 5])
            three_edges
          = Ok ([NInt 5; NStr "bin_1"],
                [(NInt 5, [(NStr "bin_1", float_of_Z 7)]);
                 (NStr "bin_1", [(NInt 5, float_of_Z 7)])])) as Hrun
    by (vm_compute; reflexivity).
  split; [exact Hrun|].
  apply (bins_network_contigs _ _ _ _ 5 Hrun).
  eexists. vm_compute. reflexivity.
Defined.

(** ** The pre-network file read back *)

Lemma string_length_app s1 s2 :
  String.length (s1 +:+ s2) = (String.length s1 + String.length s2)%nat.
Proof.
  induction s1 as [|c s1 IH]; [done|].
  change (String c s1 +:+ s2) with (String c (s1 +:+ s2)). simpl. by rewrite IH.
Qed.

Lemma string_app_nil_r s : s +:+ EmptyString = s.
Proof.
  induction s as [|c s IH]; [done|].
  change (String c s +:+ EmptyString) with (String c (s +:+ EmptyString)).
  by rewrite IH.
Qed.

Lemma no_separator_cons c s :
  no_separator (String c s) = true →
  Ascii.eqb c HT = false ∧ is_newline c = false ∧ no_separator s = true.
Proof.
  cbn [no_separator].
  intros [[[H1 H2]%andb_true_iff _]%andb_true_iff H3]%andb_true_iff.
  by rewrite negb_true_iff in H1, H2.
Qed.

Lemma is_newline_false c : is_newline c = false → Ascii.eqb c LF = false ∧ Ascii.eqb c CR = false.
Proof. unfold is_newline. by intros [? ?]%orb_false_iff. Qed.

(** *** Text mode *)

Lemma universal_newlines_no_CR s :
  (∀ c, c ∈ String.list_ascii_of_string s → Ascii.eqb c CR = false) →
  universal_newlines s = s.
Proof.
  induction s as [|c s IH]; [done|]. intros Hs. cbn [universal_newlines].
  rewrite (Hs c) by apply list_elem_of_here.
  rewrite IH; [done|]. intros c' Hc'. apply Hs. by apply list_elem_of_further.
Qed.

(** A line of text is a body without line feed, followed by a line feed. *)
Lemma text_line_split l :
  text_line l = true →
  ∃ body, l = body +:+ NEWLINE
    ∧ ∀ c, c ∈ String.list_ascii_of_string body → Ascii.eqb c LF = false.
Proof.
  induction l as [|c l IH]; [done|]. cbn [text_line].
  destruct l as [|c' l'].
  - intros Hc. apply Ascii.eqb_eq in Hc as ->. exists EmptyString. split; [done|].
    intros c Hc. by apply elem_of_nil in Hc.
  - intros [Hc Hl]%andb_true_iff. apply negb_true_iff in Hc.
    destruct (IH Hl) as (body & Hbody & Hno).
    exists (String c body). split.
    + change (String c body +:+ NEWLINE) with (String c (body +:+ NEWLINE)).
      by rewrite <- Hbody.
    + intros c0 Hc0. cbn [String.list_ascii_of_string] in Hc0.
      apply elem_of_cons in Hc0 as [->|Hc0]; [done|]. by apply Hno.
Qed.

Lemma split_lines_line body rest :
  (∀ c, c ∈ String.list_ascii_of_string body → Ascii.eqb c LF = false) →
  split_lines (body +:+ NEWLINE +:+ rest) = (body +:+ NEWLINE) :: split_lines rest.
Proof.
  induction body as [|c body IH]; intros Hbody.
  - done.
  - change (String c body +:+ NEWLINE +:+ rest)
      with (String c (body +:+ NEWLINE +:+ rest)).
    cbn [split_lines]. rewrite (Hbody c) by apply list_elem_of_here.
    rewrite IH; [done|]. intros c' Hc'. apply Hbody. by apply list_elem_of_further.
Qed.

Lemma split_lines_file_of lines :
  Forall (λ l, text_line l = true) lines →
  split_lines (file_of lines) = lines.
Proof.
  induction 1 as [|l lines Hl _ IH]; [done|].
  destruct (text_line_split l Hl) as (body & -> & Hbody).
  cbn [file_of foldr]. fold (file_of lines).
  rewrite string_app_assoc, split_lines_line by done. by rewrite IH.
Qed.

(** *** The stand-in sort *)

Lemma insert_line_perm l sorted : insert_line l sorted ≡ₚ l :: sorted.
Proof.
  induction sorted as [|l' rest IH]; [done|]. cbn [insert_line].
  destruct (String.compare l l'); try done.
  rewrite IH. apply Permutation_swap.
Qed.

Lemma sort_pairs_text_permutes : permutes_lines sort_pairs_text.
Proof.
  intros lines Hlines. exists (foldr insert_line [] lines). split.
  - induction lines as [|l lines IH]; [done|]. cbn [foldr].
    rewrite insert_line_perm. apply Forall_cons in Hlines as [_ Hlines].
    by rewrite IH.
  - unfold sort_pairs_text. by rewrite split_lines_file_of.
Qed.

(** *** csv.reader on plain fields *)

Lemma csv_feed_in_field body : ∀ flds acc rest,
  no_separator body = true →
  Z.of_nat (String.length acc + String.length body) ≤ field_limit →
  csv_feed (CsvParser IN_FIELD flds acc) (body +:+ rest)
  = csv_feed (CsvParser IN_FIELD flds (acc +:+ body)) rest.
Proof.
  induction body as [|c body IH]; intros flds acc rest Hbody Hlen.
  - by rewrite string_app_nil_r.
  - apply no_separator_cons in Hbody as (Htab & Hnl & Hbody).
    change (String c body +:+ rest) with (String c (body +:+ rest)).
    cbn [csv_feed]. unfold parse_process_char at 1. cbn [csv_st].
    rewrite Hnl, Htab. unfold parse_add_char. cbn [csv_field csv_fields].
    rewrite decide_False by (simpl in Hlen; lia).
    cbn [mbind result_bind]. rewrite IH.
    + by rewrite string_app_assoc.
    + done.
    + rewrite string_length_app. simpl in *. lia.
Qed.

(** A plain field, from the start of a field up to the tabulation or the
    line feed that ends it. *)
Lemma csv_feed_field (st : csv_state) name flds rest (stop : Ascii.ascii) :
  st = START_FIELD ∨ (st = START_RECORD ∧ (name ≠ EmptyString ∨ stop = HT)) →
  csv_plain name = true →
  stop = HT ∨ stop = LF →
  csv_feed (CsvParser st flds EmptyString) (name +:+ String stop rest)
  = csv_feed (CsvParser (if Ascii.eqb stop HT then START_FIELD else EAT_CRNL)
                (flds ++ [name]) EmptyString) rest.
Proof.
  intros Hst Hplain Hstop. unfold csv_plain in Hplain.
  apply andb_true_iff in Hplain as [[Hsep Hquote]%andb_true_iff Hlen].
  apply bool_decide_eq_true in Hlen.
  assert (is_newline stop = negb (Ascii.eqb stop HT)) as Hstopnl
    by (destruct Hstop as [->| ->]; done).
  destruct name as [|c name].
  - change (EmptyString +:+ String stop rest) with (String stop rest).
    cbn [csv_feed].
    assert (parse_process_char (CsvParser st flds EmptyString) (Some stop)
            = csv_start_field (CsvParser st flds EmptyString) (Some stop)) as ->.
    { destruct Hst as [->|[-> [?| ->]]]; done. }
    unfold csv_start_field. rewrite Hstopnl.
    destruct Hstop as [->| ->]; done.
  - apply no_separator_cons in Hsep as (Htab & Hnl & Hsep).
    cbn [unquoted] in Hquote. apply negb_true_iff in Hquote.
    change (String c name +:+ String stop rest)
      with (String c (name +:+ String stop rest)).
    cbn [csv_feed].
    assert (parse_process_char (CsvParser st flds EmptyString) (Some c)
            = Ok (CsvParser IN_FIELD flds (String c EmptyString))) as ->.
    { assert (csv_start_field (CsvParser st flds EmptyString) (Some c)
              = Ok (CsvParser IN_FIELD flds (String c EmptyString))) as Hstart.
      { unfold csv_start_field. rewrite Hnl, Hquote, Htab. unfold parse_add_char.
        cbn [csv_field]. by rewrite decide_False by (unfold field_limit; simpl; lia). }
      destruct Hst as [->|[-> _]]; unfold parse_process_char; cbn [csv_st];
        by rewrite ?Hnl, Hstart. }
    cbn [mbind result_bind]. rewrite csv_feed_in_field.
    + cbn [csv_feed]. unfold parse_process_char at 1. cbn [csv_st].
      rewrite Hstopnl. destruct Hstop as [->| ->]; done.
    + done.
    + simpl in *. lia.
Qed.

(** A written row of two plain names is read back as it was written. *)
Lemma csv_feed_pre_net_line contig1 contig2 :
  csv_plain contig1 = true → csv_plain contig2 = true →
  csv_feed parse_reset (pre_net_line [contig1; contig2])
  = Ok (CsvParser START_RECORD [contig1; contig2] EmptyString).
Proof.
  intros H1 H2. unfold pre_net_line, parse_reset. cbn [join_tab].
  unfold TAB, NEWLINE. rewrite !string_app_assoc.
  change (String (Ascii.ascii_of_nat 9) EmptyString
          +:+ contig2 +:+ String (Ascii.ascii_of_nat 10) EmptyString)
    with (String HT (contig2 +:+ String LF EmptyString)).
  rewrite (csv_feed_field START_RECORD contig1 [] _ HT); [|by right; split; [|right]|done|by left].
  rewrite (csv_feed_field START_FIELD contig2 _ _ LF); [|by left|done|by right].
  done.
Qed.

Lemma csv_reader_pre_net_lines rows :
  Forall plain_pair rows →
  csv_reader (pre_net_line <$> rows) = Reader rows None.
Proof.
  unfold csv_reader. induction 1 as [|r rows (c1 & c2 & -> & H1 & H2) _ IH]; [done|].
  rewrite fmap_cons. cbn [csv_records].
  rewrite csv_feed_pre_net_line by done. cbn [csv_st].
  rewrite decide_True by done. by rewrite IH.
Qed.

Lemma csv_plain_chars name c :
  csv_plain name = true → c ∈ String.list_ascii_of_string name →
  Ascii.eqb c HT = false ∧ Ascii.eqb c LF = false ∧ Ascii.eqb c CR = false.
Proof.
  unfold csv_plain. intros [[Hsep _]%andb_true_iff _]%andb_true_iff.
  induction name as [|c' name IH]; intros Hc; [by apply elem_of_nil in Hc|].
  apply no_separator_cons in Hsep as (Htab & Hnl & Hsep).
  apply is_newline_false in Hnl as [Hlf Hcr].
  cbn [String.list_ascii_of_string] in Hc. apply elem_of_cons in Hc as [->|Hc]; [done|].
  by apply IH.
Qed.

Lemma list_ascii_of_string_app s1 s2 :
  String.list_ascii_of_string (s1 +:+ s2) = String.list_ascii_of_string s1 ++ String.list_ascii_of_string s2.
Proof.
  induction s1 as [|c s1 IH]; [done|].
  change (String c s1 +:+ s2) with (String c (s1 +:+ s2)).
  cbn [String.list_ascii_of_string]. by rewrite IH.
Qed.

Lemma pre_net_line_text_line r : plain_pair r → text_line (pre_net_line r) = true.
Proof.
  intros (c1 & c2 & -> & H1 & H2). unfold pre_net_line. cbn [join_tab].
  assert (∀ body, (∀ c, c ∈ String.list_ascii_of_string body → Ascii.eqb c LF = false) →
            text_line (body +:+ NEWLINE) = true) as Hline.
  { induction body as [|c body IH]; intros Hbody; [done|].
    change (String c body +:+ NEWLINE) with (String c (body +:+ NEWLINE)).
    cbn [text_line].
    destruct (body +:+ NEWLINE) as [|c' l'] eqn:Heq.
    { by destruct body. }
    rewrite (Hbody c) by apply list_elem_of_here. cbn [negb andb].
    apply IH. intros c0 Hc0. apply Hbody. by apply list_elem_of_further. }
  apply Hline. intros c Hc. rewrite !list_ascii_of_string_app in Hc.
  apply elem_of_app in Hc as [Hc|Hc];
    [by destruct (csv_plain_chars _ _ H1 Hc) as (_ & ? & _)|].
  apply elem_of_app in Hc as [Hc|Hc];
    [|by destruct (csv_plain_chars _ _ H2 Hc) as (_ & ? & _)].
  unfold TAB in Hc. cbn [String.list_ascii_of_string] in Hc.
  by apply list_elem_of_singleton in Hc as ->.
Qed.

Lemma pre_net_line_no_CR r c :
  plain_pair r → c ∈ String.list_ascii_of_string (pre_net_line r) → Ascii.eqb c CR = false.
Proof.
  intros (c1 & c2 & -> & H1 & H2). unfold pre_net_line. cbn [join_tab].
  rewrite !list_ascii_of_string_app. intros Hc.
  apply elem_of_app in Hc as [Hc|Hc].
  { apply elem_of_app in Hc as [Hc|Hc];
      [by destruct (csv_plain_chars _ _ H1 Hc) as (_ & _ & ?)|].
    apply elem_of_app in Hc as [Hc|Hc];
      [|by destruct (csv_plain_chars _ _ H2 Hc) as (_ & _ & ?)].
    unfold TAB in Hc. cbn [String.list_ascii_of_string] in Hc.
    by apply list_elem_of_singleton in Hc as ->. }
  unfold NEWLINE in Hc. cbn [String.list_ascii_of_string] in Hc.
  by apply list_elem_of_singleton in Hc as ->.
Qed.

Lemma file_of_no_CR rows c :
  Forall plain_pair rows →
  c ∈ String.list_ascii_of_string (file_of (pre_net_line <$> rows)) → Ascii.eqb c CR = false.
Proof.
  induction 1 as [|r rows Hr _ IH]; [intros Hc; by apply elem_of_nil in Hc|].
  rewrite fmap_cons. cbn [file_of foldr]. fold (file_of (pre_net_line <$> rows)).
  rewrite list_ascii_of_string_app. intros [Hc|Hc]%elem_of_app.
  - by eapply pre_net_line_no_CR.
  - by apply IH.
Qed.

(** The pre-network file of rows of plain names, once sorted, is read back
    as these rows, in some order. *)
Lemma sorted_pre_network_rows (sort_pairs : string → string) (rows : list row) :
  permutes_lines sort_pairs →
  Forall plain_pair rows →
  ∃ sorted, sorted ≡ₚ rows
    ∧ csv_reader (text_lines (sort_pairs (file_of (pre_net_line <$> rows))))
      = Reader sorted None.
Proof.
  intros Hsort Hrows.
  destruct (Hsort (pre_net_line <$> rows)) as (lines & Hperm & ->).
  { apply Forall_fmap. eapply Forall_impl; [exact Hrows|].
    intros r Hr. by apply pre_net_line_text_line. }
  apply Permutation_map_inv in Hperm as (sorted & -> & Hperm).
  change (map pre_net_line sorted) with (pre_net_line <$> sorted).
  assert (Forall plain_pair sorted) as Hsorted by (by rewrite <- Hperm).
  exists sorted. split; [done|]. unfold text_lines.
  rewrite universal_newlines_no_CR by (intros c Hc; by eapply file_of_no_CR).
  rewrite split_lines_file_of.
  - by apply csv_reader_pre_net_lines.
  - apply Forall_fmap. eapply Forall_impl; [exact Hsorted|].
    intros r Hr. by apply pre_net_line_text_line.
Qed.

(** ** alignment_to_contacts with normalization disabled *)

Lemma emitted_row_retained (contig_data contig_data' : gmap string contig)
    (self_contacts : bool) (p : list string) (contig1 contig2 : string) (a b : contig) :
  p !! 1%nat = Some contig1 → p !! 5%nat = Some contig2 →
  contig_data !! contig1 = Some a → contig_data !! contig2 = Some b →
  (c_id a = c_id b → contig1 = contig2) →
  is_Some (contig_data' !! contig1) → is_Some (contig_data' !! contig2) →
  length (emitted_row contig_data self_contacts p)
  = (if decide (retained self_contacts p) then 1 else 0)%nat
  ∧ Forall (registered contig_data') (emitted_row contig_data self_contacts p).
Proof.
  intros Hp1 Hp5 Ha Hb Hinj [a' Ha'] [b' Hb'].
  assert (registered contig_data' [contig1; contig2]) as H12.
  { unfold registered, pair_ids. simpl. rewrite Ha'. simpl. rewrite Hb'. by eexists. }
  assert (registered contig_data' [contig2; contig1]) as H21.
  { unfold registered, pair_ids. simpl. rewrite Hb'. simpl. rewrite Ha'. by eexists. }
  assert (emitted_row contig_data self_contacts p
          = if self_contacts && bool_decide (c_id a = c_id b) then [[contig1; contig2]]
            else if bool_decide (c_id a < c_id b) then [[contig1; contig2]]
            else if bool_decide (c_id a > c_id b) then [[contig2; contig1]]
            else []) as ->.
  { unfold emitted_row. by rewrite Hp1, Hp5, Ha, Hb. }
  assert (retained self_contacts p ↔ self_contacts = true ∨ contig1 ≠ contig2) as Hret.
  { unfold retained. rewrite Hp1, Hp5. naive_solver. }
  destruct (decide (contig1 = contig2)) as [<-|Hne].
  - assert (b = a) as -> by congruence.
    rewrite bool_decide_eq_true_2 by done.
    rewrite (bool_decide_eq_false_2 (c_id a < c_id a)) by lia.
    rewrite (bool_decide_eq_false_2 (c_id a > c_id a)) by lia.
    destruct self_contacts; cbn [andb].
    + rewrite decide_True by (apply Hret; by left).
      split; [done|]. by apply Forall_singleton.
    + rewrite decide_False by (rewrite Hret; intros [?|?]; done).
      split; [done|]. apply Forall_nil_2.
  - rewrite decide_True by (apply Hret; by right).
    rewrite (bool_decide_eq_false_2 (c_id a = c_id b)) by (intros ?; by apply Hne, Hinj).
    rewrite andb_false_r.
    destruct (bool_decide (c_id a < c_id b)) eqn:Hlt.
    + split; [done|]. by apply Forall_singleton.
    + apply bool_decide_eq_false in Hlt.
      rewrite bool_decide_eq_true_2.
      * split; [done|]. by apply Forall_singleton.
      * assert (c_id a ≠ c_id b) by (intros ?; by apply Hne, Hinj). lia.
Qed.

Lemma emitted_rows_retained (contig_data contig_data' : gmap string contig)
    (self_contacts : bool) (lines : list (list string)) :
  (∀ name, is_Some (contig_data' !! name) ↔ is_Some (contig_data !! name)) →
  (∀ name1 name2 a b, contig_data !! name1 = Some a → contig_data !! name2 = Some b →
     c_id a = c_id b → name1 = name2) →
  Forall (λ p, ∃ contig1 contig2,
            p !! 1%nat = Some contig1 ∧ p !! 5%nat = Some contig2
            ∧ is_Some (contig_data !! contig1) ∧ is_Some (contig_data !! contig2))
    lines →
  length (lines ≫= emitted_row contig_data self_contacts)
  = length (filter (retained self_contacts) lines)
  ∧ Forall (registered contig_data') (lines ≫= emitted_row contig_data self_contacts).
Proof.
  intros Hsame Hinj. induction 1 as [|p lines Hp _ [IHlen IHreg]].
  - split; [done|]. apply Forall_nil_2.
  - destruct Hp as (contig1 & contig2 & Hp1 & Hp5 & [a Ha] & [b Hb]).
    destruct (emitted_row_retained contig_data contig_data' self_contacts p
                contig1 contig2 a b) as [Hlen Hreg]; try done.
    { by apply Hinj. }
    { apply Hsame. by eexists. }
    { apply Hsame. by eexists. }
    rewrite bind_cons, length_app, filter_cons. split.
    + rewrite Hlen, IHlen. by case_decide.
    + by apply Forall_app.
Qed.

Lemma registered_endpoints (contig_data : gmap string contig) (r : row) :
  registered contig_data r →
  ∃ name1 name2 a b,
    contig_data !! name1 = Some a ∧ contig_data !! name2 = Some b
    ∧ endpoint contig_data r 0 = Ok a ∧ endpoint contig_data r 1 = Ok b.
Proof.
  intros [[i j] H]. unfold pair_ids in H. unfold endpoint, getitem, dict_get.
  destruct (r !! 0%nat) as [name1|]; [|done]. simpl in H.
  destruct (contig_data !! name1) as [a|] eqn:Ha; [|done]. simpl in H.
  destruct (r !! 1%nat) as [name2|]; [|done]. simpl in H.
  destruct (contig_data !! name2) as [b|] eqn:Hb; [|done].
  exists name1, name2, a, b. simpl. by rewrite Ha, Hb.
Qed.

(** A stream whose first group cannot be weighted: nothing is written. *)
Lemma compute_network_first_raises (sort_pairs : list row → list row)
    (pre_network : list row) (contig_data : gmap string contig)
    (normalization : string) (e : exn) :
  (∀ r n, r ∈ sort_pairs pre_network →
     effective_count contig_data r n normalization = Raise e) →
  sort_pairs pre_network ≠ [] →
  compute_network sort_pairs pre_network contig_data normalization = (Raise e, []).
Proof.
  intros Hraise Hrows. unfold compute_network.
  destruct (sort_pairs pre_network) as [|first [|second rest]]; [done| |].
  - unfold aggregate, agg_loop, agg_flush. cbn [prev_pair n_occ curr_pair].
    rewrite Hraise by apply list_elem_of_here. done.
  - rewrite aggregate_groups. unfold groups.
    destruct (runs_cons first 1 (second :: rest)) as (r & k & gs & -> & ->).
    cbn [write_groups]. unfold line_of. cbn [fst snd].
    rewrite Hraise by apply list_elem_of_here. done.
Qed.

Lemma emitted_rows_plain (contig_data : gmap string contig) (self_contacts : bool)
    (names : list string) (lines : list (list string)) :
  Forall (λ name, csv_plain name = true) names →
  Forall (names_both names) lines →
  Forall plain_pair (lines ≫= emitted_row contig_data self_contacts).
Proof.
  intros Hplain. rewrite Forall_forall in Hplain.
  induction 1 as [|p lines (contig1 & contig2 & Hp1 & Hp5 & Hin1 & Hin2) _ IH].
  - apply Forall_nil_2.
  - rewrite bind_cons. apply Forall_app. split; [|done].
    unfold emitted_row. rewrite Hp1, Hp5.
    assert (plain_pair [contig1; contig2]) as H12
      by (exists contig1, contig2; split; [done|]; split; by apply Hplain).
    assert (plain_pair [contig2; contig1]) as H21
      by (exists contig2, contig1; split; [done|]; split; by apply Hplain).
    destruct (contig_data !! contig1) as [c1|]; [|apply Forall_nil_2].
    destruct (contig_data !! contig2) as [c2|]; [|apply Forall_nil_2].
    repeat case_match; try apply Forall_nil_2; by apply Forall_singleton.
Qed.

(** The aggregation pass on a file whose sorted copy is read back as the
    rows [sorted], without an error of the reader. *)
Lemma compute_network_file_rows (sort_pairs : string → string)
    (sort_rows : list row → list row) (pre_network_file : string)
    (pre_network : list row) (contig_data : gmap string contig)
    (normalization : string) :
  csv_reader (text_lines (sort_pairs pre_network_file))
  = Reader (sort_rows pre_network) None →
  compute_network_file sort_pairs pre_network_file contig_data normalization
  = compute_network sort_rows pre_network contig_data normalization.
Proof.
  intros Hread. unfold compute_network_file, compute_network. rewrite Hread.
  unfold aggregate_reader. by cbn [failure yielded].
Qed.

Section alignment_to_contacts_stages.
Context (GC : string → spec_float).
Context (get_restriction_site : string → result string).
Context (findall : string → string → list string).
Context (py_int : string → result Z).
Context (py_float : string → result spec_float).
Context (sort_pairs : string → string).
Context (sort_pairs_lines : permutes_lines sort_pairs).

Local Abbreviation pipeline :=
  (alignment_to_contacts GC get_restriction_site findall py_int py_float sort_pairs).

(** The first two stages without a depth file, on an assembly of distinct
    plain names and on non-empty files of lines naming contigs of the
    assembly: the aggregation pass reads back the rows that the collector
    wrote, in the order [sort_rows] of the sorted file. *)
Lemma alignment_to_contacts_stages (aligment_files : list (list (list string)))
    (assembly : list fasta) (enzyme pattern : option string) (self_contacts : bool) :
  restriction_pattern get_restriction_site enzyme = Ok pattern →
  NoDup (fasta_id <$> assembly) →
  Forall (λ name, csv_plain name = true) (fasta_id <$> assembly) →
  aligment_files ≠ [] →
  Forall (λ pairs, pairs ≠ []) aligment_files →
  Forall (names_both (fasta_id <$> assembly)) (concat aligment_files) →
  ∃ st (sort_rows : list row → list row),
    (∀ rows, sort_rows rows ≡ₚ rows)
    ∧ (∀ normalization,
         pipeline aligment_files assembly None normalization enzyme self_contacts
         = compute_network sort_rows (pre_net st) (registry st) normalization)
    ∧ length (pre_net st)
      = length (filter (retained self_contacts) (concat aligment_files))
    ∧ Forall (registered (registry st)) (pre_net st)
    ∧ ∀ name c, registry st !! name = Some c →
        c_coverage c = None ∧ (pattern = None → c_RS c = None).
Proof.
  intros Hpat Hnodup Hplain Hfiles Hne Hnames.
  destruct (create_contig_data_no_depth GC get_restriction_site findall py_int
              py_float (length aligment_files) pattern assembly enzyme Hpat)
    as (contig_data & Hcreate & Hdom & Hentry).
  assert (∀ name, name ∈ fasta_id <$> assembly → is_Some (contig_data !! name))
    as Hreg0.
  { intros name Hin. apply elem_of_dom. rewrite Hdom. by apply elem_of_list_to_set. }
  assert (∀ name a, contig_data !! name = Some a →
            ∃ i contig, assembly !! i = Some contig ∧ fasta_id contig = name
              ∧ a = entry_of GC findall pattern (Z.of_nat i + 1) contig) as Hpos.
  { intros name a Ha.
    assert (name ∈ dom contig_data) as Hin by (apply elem_of_dom; eauto).
    rewrite Hdom, elem_of_list_to_set in Hin.
    apply list_elem_of_fmap in Hin as (contig & -> & Hin).
    apply list_elem_of_lookup in Hin as [i Hi].
    exists i, contig. split; [done|]. split; [done|].
    rewrite (Hentry i contig Hi (last_of_its_name_NoDup _ _ Hnodup)) in Ha.
    by injection Ha as <-. }
  assert (∀ name1 name2 a b,
            contig_data !! name1 = Some a → contig_data !! name2 = Some b →
            c_id a = c_id b → name1 = name2) as Hinj.
  { intros name1 name2 a b Ha Hb Hid.
    destruct (Hpos _ _ Ha) as (i & c1 & Hi & <- & ->).
    destruct (Hpos _ _ Hb) as (j & c2 & Hj & <- & ->).
    simpl in Hid. assert (i = j) as -> by lia. congruence. }
  destruct (precompute_network_processable aligment_files contig_data
              (hit_data_of (length aligment_files) contig_data) self_contacts)
    as (st & Hrun & Hhits & Hnet & _); [done|done| |].
  { intros j pairs Hj. apply Forall_forall. intros p Hp.
    assert (p ∈ concat aligment_files) as Hin.
    { apply list_elem_of_In, in_concat. exists pairs.
      split; apply list_elem_of_In; [by eapply list_elem_of_lookup_2|done]. }
    rewrite Forall_forall in Hnames.
    destruct (Hnames p Hin) as (contig1 & contig2 & Hp1 & Hp5 & Hin1 & Hin2).
    exists contig1, contig2. split; [done|]. split; [done|].
    split; [by apply Hreg0|]. split; [by apply Hreg0|].
    assert (∀ name, name ∈ fasta_id <$> assembly →
              has_counter (length aligment_files) j
                (hit_data_of (length aligment_files) contig_data) name) as Hcounter.
    { intros name Hname Hn. destruct (Hreg0 name Hname) as [c Hc].
      unfold hit_data_of. rewrite decide_True by done.
      eexists _, (length aligment_files). split; [reflexivity|]. split.
      - rewrite !lookup_fmap, Hc. simpl. by rewrite length_replicate.
      - by apply lookup_lt_Some in Hj. }
    split; by apply Hcounter. }
  destruct (emitted_rows_retained contig_data (registry st) self_contacts
              (concat aligment_files)) as [Hlen Hrows].
  { intros name. rewrite Hhits. by rewrite fmap_is_Some. }
  { exact Hinj. }
  { eapply Forall_impl; [exact Hnames|].
    intros p (contig1 & contig2 & Hp1 & Hp5 & Hin1 & Hin2).
    exists contig1, contig2. repeat split; try done; by apply Hreg0. }
  assert (Forall plain_pair (pre_net st)) as Hpairs.
  { rewrite Hnet. by eapply emitted_rows_plain. }
  rewrite <- Hnet in Hlen, Hrows.
  destruct (sorted_pre_network_rows sort_pairs (pre_net st) sort_pairs_lines Hpairs)
    as (sorted & Hperm & Hread).
  exists st, (λ rows, if decide (rows = pre_net st) then sorted else rows).
  split; [|split; [|split; [done|split; [done|]]]].
  - intros rows. by case_decide as Hrows'; [rewrite Hrows'|].
  - intros normalization. unfold alignment_to_contacts. rewrite Hcreate, Hrun.
    apply compute_network_file_rows. by rewrite decide_True.
  - intros name c Hc. rewrite Hhits in Hc.
    destruct (contig_data !! name) as [c0|] eqn:Hc0; [|done].
    injection Hc as <-. destruct (Hpos _ _ Hc0) as (i & contig & _ & _ & ->).
    split; [done|]. by intros ->.
Qed.

(** The whole pipeline with normalization disabled and without a depth
    file, when the sort writes the lines of the pre-network file in some
    order, on an assembly of distinct names that [csv.reader] reads back as
    they are written (no tabulation, line end or NUL character, no double
    quote at the start, at most 131072 characters) and on alignment files that each
    hold at least one line, every line naming two contigs of the assembly.
    With [kept] the number of lines kept for the network (all of them when
    self-contacts are enabled, those naming two different contigs
    otherwise): no kept line makes the aggregation pass raise
    [StopIteration], exactly one makes it raise [UnboundLocalError], and in
    both cases the network file stays empty; with two or more the pipeline
    returns, every weight is an integer count and the weights add up to
    [kept]. *)
Theorem alignment_to_contacts_raw (aligment_files : list (list (list string)))
    (assembly : list fasta) (enzyme pattern : option string) (self_contacts : bool) :
  restriction_pattern get_restriction_site enzyme = Ok pattern →
  NoDup (fasta_id <$> assembly) →
  Forall (λ name, csv_plain name = true) (fasta_id <$> assembly) →
  aligment_files ≠ [] →
  Forall (λ pairs, pairs ≠ []) aligment_files →
  Forall (names_both (fasta_id <$> assembly)) (concat aligment_files) →
  let kept := length (filter (retained self_contacts) (concat aligment_files)) in
  let outcome :=
    alignment_to_contacts GC get_restriction_site findall py_int py_float sort_pairs
      aligment_files assembly None "None" enzyme self_contacts in
  (kept = 0%nat → outcome = (Raise StopIteration, []))
  ∧ (kept = 1%nat → outcome = (Raise UnboundLocalError, []))
  ∧ ((2 ≤ kept)%nat →
     ∃ net, outcome = (Ok (), net)
       ∧ Forall (λ e : edge, ∃ n, e.2 = WInt n) net
       ∧ sum_weights net = Z.of_nat kept).
Proof.
  intros Hpat Hnodup Hplain Hfiles Hne Hnames kept outcome.
  destruct (alignment_to_contacts_stages aligment_files assembly enzyme pattern
              self_contacts Hpat Hnodup Hplain Hfiles Hne Hnames)
    as (st & sort_rows & sort_pairs_perm & Hpipe & Hlen & Hrows & _).
  fold kept in Hlen. unfold outcome. rewrite Hpipe. split; [|split].
  - intros Hkept. rewrite Hkept in Hlen. apply nil_length_inv in Hlen.
    rewrite Hlen. unfold compute_network.
    by rewrite (proj1 (Permutation_nil_r _) (sort_pairs_perm [])).
  - intros Hkept. rewrite Hkept in Hlen.
    destruct (pre_net st) as [|r [|r' rows]]; [done| |done].
    unfold compute_network.
    rewrite (proj1 (Permutation_singleton_r _ _) (sort_pairs_perm [r])).
    by rewrite aggregate_single_row_raw.
  - intros Hkept.
    destruct (compute_network_raw_groups sort_rows sort_pairs_perm (registry st)
                (pre_net st) Hrows) as (net & Hnetrun & Hgroups); [lia|].
    exists net. split; [done|]. split; [by eapply raw_edges_int|].
    rewrite (raw_edges_sum _ _ _ Hgroups), groups_sum, sort_pairs_perm. lia.
Qed.

(** The pipeline without a depth file leaves every coverage at "-", and
    without an enzyme every restriction site count at "-": under the same
    assumptions on the sort, the names and the alignment files, as soon as
    one line is kept for the network, the normalizations "abundance" and
    "theoritical_hit" (and, without an enzyme, "RS" and "RS_length") make
    the aggregation pass raise [TypeError] on the first group, and the
    network file stays empty. *)
Theorem alignment_to_contacts_missing_field
    (aligment_files : list (list (list string)))
    (assembly : list fasta) (enzyme pattern : option string) (self_contacts : bool)
    (normalization : string) :
  restriction_pattern get_restriction_site enzyme = Ok pattern →
  NoDup (fasta_id <$> assembly) →
  Forall (λ name, csv_plain name = true) (fasta_id <$> assembly) →
  aligment_files ≠ [] →
  Forall (λ pairs, pairs ≠ []) aligment_files →
  Forall (names_both (fasta_id <$> assembly)) (concat aligment_files) →
  (1 ≤ length (filter (retained self_contacts) (concat aligment_files)))%nat →
  normalization ∈ ["abundance"; "theoritical_hit"]
  ∨ (pattern = None ∧ normalization ∈ ["RS"; "RS_length"]) →
  pipeline aligment_files assembly None normalization enzyme self_contacts
  = (Raise TypeError, []).
Proof.
  intros Hpat Hnodup Hplain Hfiles Hne Hnames Hkept Hnorm.
  destruct (alignment_to_contacts_stages aligment_files assembly enzyme pattern
              self_contacts Hpat Hnodup Hplain Hfiles Hne Hnames)
    as (st & sort_rows & sort_pairs_perm & Hpipe & Hlen & Hrows & Hfields).
  rewrite Hpipe. apply compute_network_first_raises.
  - intros r n Hr. rewrite sort_pairs_perm in Hr.
    rewrite Forall_forall in Hrows.
    destruct (registered_endpoints _ _ (Hrows r Hr))
      as (name1 & name2 & a & b & Ha & Hb & Hend0 & Hend1).
    destruct (Hfields name1 a Ha) as [Hcov Hrs].
    destruct (normalize_pair_no_coverage (registry st) r n a b Hend0 Hend1 Hcov)
      as [Habundance Htheoritical].
    unfold effective_count.
    destruct Hnorm as [Hin|[-> Hin]].
    + apply elem_of_cons in Hin as [->|Hin]; [by rewrite decide_True|].
      apply list_elem_of_singleton in Hin as ->. by rewrite decide_True.
    + destruct (normalize_pair_no_RS (registry st) r n a Hend0 (Hrs eq_refl))
        as (HRS & HRS_length & _).
      apply elem_of_cons in Hin as [->|Hin]; [by rewrite decide_True|].
      apply list_elem_of_singleton in Hin as ->. by rewrite decide_True.
  - intros Hnil. rewrite <- Hlen in Hkept.
    assert (length (sort_rows (pre_net st)) = length (pre_net st)) as Hsame
      by (by rewrite sort_pairs_perm).
    rewrite Hnil in Hsame. simpl in Hsame. lia.
Qed.
End alignment_to_contacts_stages.

(** [alignment_to_contacts_raw] at two contigs: with the single line of a
    self-pair, self-contacts disabled, then enabled; and with three lines
    between the two contigs. *)
Lemma alignment_to_contacts_raw_witness :
  alignment_to_contacts GC_percent no_restriction_site no_findall int_of_digits
    float_of_decimal sort_pairs_text [[pair_line "a" "a"]] two_contigs None
    "None" None false
  = (Raise StopIteration, [])
  ∧ alignment_to_contacts GC_percent no_restriction_site no_findall int_of_digits
      float_of_decimal sort_pairs_text [[pair_line "a" "a"]] two_contigs None
      "None" None true
    = (Raise UnboundLocalError, [])
  ∧ ∃ net,
      alignment_to_contacts GC_percent no_restriction_site no_findall int_of_digits
        float_of_decimal sort_pairs_text
        [[pair_line "a" "b"; pair_line "b" "a"]; [pair_line "a" "b"]] two_contigs None
        "None" None false
      = (Ok (), net)
      ∧ sum_weights net = 3.
Proof.
  assert (NoDup (fasta_id <$> two_contigs)) as Hnodup
    by (apply (bool_decide_unpack _); vm_compute; exact I).
  assert (Forall (λ name, csv_plain name = true) (fasta_id <$> two_contigs)) as Hplain
    by (repeat (apply Forall_cons; split); try apply Forall_nil_2; reflexivity).
  assert (∀ c1 c2, c1 ∈ ["a"; "b"] → c2 ∈ ["a"; "b"] →
            names_both (fasta_id <$> two_contigs) (pair_line c1 c2)) as Hline.
  { intros c1 c2 H1 H2. by exists c1, c2. }
  assert ("a" ∈ ["a"; "b"]) as Ha by apply list_elem_of_here.
  assert ("b" ∈ ["a"; "b"]) as Hb by apply list_elem_of_further, list_elem_of_here.
  split; [|split].
  - refine (proj1 (alignment_to_contacts_raw GC_percent no_restriction_site
                     no_findall int_of_digits float_of_decimal sort_pairs_text
                     sort_pairs_text_permutes [[pair_line "a" "a"]] two_contigs None None
                     false eq_refl Hnodup Hplain _ _ _) _).
    + discriminate.
    + apply Forall_singleton. discriminate.
    + apply Forall_singleton. by apply Hline.
    + reflexivity.
  - refine (proj1 (proj2 (alignment_to_contacts_raw GC_percent no_restriction_site
                     no_findall int_of_digits float_of_decimal sort_pairs_text
                     sort_pairs_text_permutes [[pair_line "a" "a"]] two_contigs None None
                     true eq_refl Hnodup Hplain _ _ _)) _).
    + discriminate.
    + apply Forall_singleton. discriminate.
    + apply Forall_singleton. by apply Hline.
    + reflexivity.
  - destruct (proj2 (proj2 (alignment_to_contacts_raw GC_percent no_restriction_site
                     no_findall int_of_digits float_of_decimal sort_pairs_text
                     sort_pairs_text_permutes
                     [[pair_line "a" "b"; pair_line "b" "a"]; [pair_line "a" "b"]]
                     two_contigs None None false eq_refl Hnodup Hplain
                     ltac:(discriminate)
                     ltac:(repeat (apply Forall_cons; split); try apply Forall_nil_2;
                           discriminate)
                     ltac:(repeat (apply Forall_cons; split); try apply Forall_nil_2;
                           by apply Hline))))
      as (net & Hrun & _ & Hsum).
    + vm_compute. lia.
    + exists net. split; [exact Hrun|exact Hsum].
Defined.

(** [alignment_to_contacts_missing_field] at one line between two contigs,
    under "abundance" and under "RS". *)
Lemma alignment_to_contacts_missing_field_witness :
  alignment_to_contacts GC_percent no_restriction_site no_findall int_of_digits
    float_of_decimal sort_pairs_text [[pair_line "a" "b"]] two_contigs None
    "abundance" None false
  = (Raise TypeError, [])
  ∧ alignment_to_contacts GC_percent no_restriction_site no_findall int_of_digits
      float_of_decimal sort_pairs_text [[pair_line "a" "b"]] two_contigs None
      "RS" None false
    = (Raise TypeError, []).
Proof.
  assert (NoDup (fasta_id <$> two_contigs)) as Hnodup
    by (apply (bool_decide_unpack _); vm_compute; exact I).
  assert (Forall (λ name, csv_plain name = true) (fasta_id <$> two_contigs)) as Hplain
    by (repeat (apply Forall_cons; split); try apply Forall_nil_2; reflexivity).
  assert (names_both (fasta_id <$> two_contigs) (pair_line "a" "b")) as Hline.
  { exists "a", "b". repeat split.
    - apply list_elem_of_here.
    - apply list_elem_of_further, list_elem_of_here. }
  split;
    apply (alignment_to_contacts_missing_field GC_percent no_restriction_site
             no_findall int_of_digits float_of_decimal sort_pairs_text
             sort_pairs_text_permutes [[pair_line "a" "b"]] two_contigs None None false _
             eq_refl Hnodup Hplain);
    try discriminate; try (apply Forall_singleton; (discriminate || exact Hline));
    try (vm_compute; lia).
  - left. apply list_elem_of_here.
  - right. split; [done|]. apply list_elem_of_here.
Defined.

(** A name that starts with a double quote is not read back as it was
    written: the two lines written for the contigs ["a"] (the quotes
    included in the name) and [b] are read back as rows naming [a], which
    the registry does not hold, and the final flush raises [KeyError]. *)
Example quoted_name_run :
  alignment_to_contacts GC_percent no_restriction_site no_findall int_of_digits
    float_of_decimal sort_pairs_text
    [[pair_line quoted_a "b"; pair_line quoted_a "b"]]
    [Fasta quoted_a "ACGT"; Fasta "b" "GC"] None "None" None false
  = (Raise KeyError, []).
Proof. vm_compute. reflexivity. Qed.
